(** * NPLinker scoring framework: link aggregation and scoring methods

    A shallow embedding of [prototype/nplinker/scoring/methods.py]:
    [ObjectLink], [LinkCollection] and the three scoring methods
    ([MetcalfScoring], [RosettaScoring], [TestScoring]).

    Python objects that are mutated through several references
    ([ObjectLink] instances, the strain lists they point to) live in an
    explicit store and are named by locations; dictionaries whose iteration
    order the code relies on are insertion-ordered association lists;
    [_method_data] and the store are finite maps.  Exceptions are results
    that still carry the state reached when they were raised. *)

From stdpp Require Import gmap list strings.
From Stdlib Require Import QArith.QArith_base Qround.

Local Open Scope nat_scope.

(** ** Insertion-ordered dictionaries (Python [dict]) *)

Section odict.
Context {K V : Type} `{EqDecision K}.

(** [d[k]], as an option. *)
Fixpoint od_get (k : K) (d : list (K * V)) : option V :=
  match d with
  | [] => None
  | (k', v) :: d' => if decide (k = k') then Some v else od_get k d'
  end.

(** [k in d]. *)
Definition od_mem (k : K) (d : list (K * V)) : bool :=
  match od_get k d with Some _ => true | None => false end.

(** [d[k] = v]: an existing key keeps its position, a new key goes last. *)
Fixpoint od_set (k : K) (v : V) (d : list (K * V)) : list (K * V) :=
  match d with
  | [] => [(k, v)]
  | (k', v') :: d' =>
      if decide (k = k') then (k, v) :: d' else (k', v') :: od_set k v d'
  end.

(** [del d[k]] on a key that is present. *)
Fixpoint od_del (k : K) (d : list (K * V)) : list (K * V) :=
  match d with
  | [] => []
  | (k', v') :: d' =>
      if decide (k = k') then d' else (k', v') :: od_del k d'
  end.

(** [d.keys()]. *)
Definition od_keys (d : list (K * V)) : list K := d.*1.

(** [d.update(e)]. *)
Definition od_update (d e : list (K * V)) : list (K * V) :=
  foldl (fun acc kv => od_set kv.1 kv.2 acc) d e.

(** [{k: v for k, v in d.items() if p(k)}]. *)
Definition od_filter_keys (p : K -> bool) (d : list (K * V)) : list (K * V) :=
  List.filter (fun kv => p kv.1) d.

(** A Python dict has each key once. *)
Definition od_wf (d : list (K * V)) : Prop := NoDup (od_keys d).
End odict.

(** ** Floating-point scores

    Scores are Python/numpy floats.  Their arithmetic is kept abstract: the
    operations the code uses are the fields of this class. *)

Class Float (F : Type) := {
  fsub : F -> F -> F;      (* a - b *)
  fdiv : F -> F -> F;      (* a / b *)
  flt : F -> F -> bool;    (* a < b *)
  fge : F -> F -> bool     (* a >= b *)
}.

(** The comparisons of numbers that are not NaN: [a >= b] is [not (a < b)]. *)
Class FloatOrder (F : Type) `{Float F} :=
  fge_not_flt : forall a b : F, fge a b = negb (flt a b).

(** ** Exceptions *)

Inductive exn :=
| Exception (msg : string)   (* raise Exception(msg) *)
| KeyError
| IndexError
| AttributeError
| TypeError
| InvalidRef.                (* a location outside the store; no Python run reaches it *)

(** ** Entities *)

Inductive Kind := BGC | GCF | Spectrum | MolecularFamily.

Global Instance Kind_eq_dec : EqDecision Kind.
Proof. solve_decision. Defined.

(** A reference to a domain object: its class and its [id]. *)
Record Obj := mkObj { kind : Kind; id : nat }.

Global Instance Obj_eq_dec : EqDecision Obj.
Proof. solve_decision. Defined.

Definition Strain := nat.
Definition loc := nat.

(** A scoring-method instance used as a dictionary key or set member is
    hashed by object identity: a method is named by its instance number. *)
Definition Method := nat.

(** ** Store, records and the state-and-exception monad *)

Section Model.
Context {F : Type} `{Float F}.

(** A hit of the Rosetta matcher ([.spec], [.bgc] and the two scores). *)
Record RosettaHit := mkHit {
  spec : Obj;
  bgc : Obj;
  spec_match_score : F;
  bgc_match_score : F
}.

(** The payload a method stores in a link: a Metcalf or test score, the
    list of Rosetta hits, or [None]. *)
Inductive Data :=
| DNone
| DFloat (x : F)
| DHits (hs : list RosettaHit).

(** [ObjectLink]: [shared_strains] is a reference to a list object. *)
Record ObjectLink := mkObjectLink {
  source : Obj;
  target : Obj;
  shared_strains : loc;
  _method_data : gmap Method Data
}.

(** [LinkCollection]: [_link_data] maps a source to a dict from targets to
    [ObjectLink] objects (references into the store). *)
Record LinkCollection := mkLinkCollection {
  _methods : gset Method;
  _link_data : list (Obj * list (Obj * loc));
  _and_mode : bool
}.

(** The program state: the [ObjectLink] objects, the strain-list objects,
    and the [LinkCollection] the methods are run on. *)
Record State := mkState {
  st_links : gmap loc ObjectLink;
  st_next : loc;
  st_lists : gmap loc (list Strain);
  st_coll : LinkCollection
}.

Inductive result (A : Type) :=
| Ok (a : A) (s : State)
| Raise (e : exn) (s : State).
Global Arguments Ok {A} a s.
Global Arguments Raise {A} e s.

Definition M (A : Type) : Type := State -> result A.

Definition ret {A} (a : A) : M A := fun s => Ok a s.
Definition raise {A} (e : exn) : M A := fun s => Raise e s.
Definition bind {A B} (m : M A) (k : A -> M B) : M B :=
  fun s => match m s with
           | Ok a s' => k a s'
           | Raise e s' => Raise e s'
           end.
Definition get_state : M State := fun s => Ok s s.
Definition put_state (s : State) : M unit := fun _ => Ok tt s.

(** The state a run ends in, whether it returned or raised. *)
Definition final_state {A} (r : result A) : State :=
  match r with Ok _ s => s | Raise _ s => s end.
End Model.

Notation "'let*' x ':=' m 'in' k" := (bind m (fun x => k))
  (at level 10, x pattern, m at level 200, k at level 200, only parsing).

Section Operations.
Context {F : Type} `{Float F}.
Local Abbreviation M := (@M F).
Local Abbreviation State := (@State F).
Local Abbreviation ObjectLink := (@ObjectLink F).
Local Abbreviation Data := (@Data F).

(** [for x in xs: body(x)] *)
Fixpoint mfor {X} (xs : list X) (body : X -> M unit) : M unit :=
  match xs with
  | [] => ret tt
  | x :: xs' => let* _ := body x in mfor xs' body
  end.

(** A loop that carries local variables [acc] from one iteration to the next. *)
Fixpoint mfold {X A} (xs : list X) (acc : A) (body : A -> X -> M A) : M A :=
  match xs with
  | [] => ret acc
  | x :: xs' => let* acc' := body acc x in mfold xs' acc' body
  end.

Definition of_option {A} (e : exn) (o : option A) : M A :=
  match o with Some a => ret a | None => raise e end.

(** *** Store access *)

Definition read_link (l : loc) : M ObjectLink :=
  let* s := get_state in of_option InvalidRef (st_links s !! l).

Definition write_link (l : loc) (o : ObjectLink) : M unit :=
  let* s := get_state in
  put_state (mkState (<[l := o]> (st_links s)) (st_next s) (st_lists s) (st_coll s)).

Definition alloc_link (o : ObjectLink) : M loc :=
  let* s := get_state in
  let* _ := put_state (mkState (<[st_next s := o]> (st_links s)) (S (st_next s))
                               (st_lists s) (st_coll s)) in
  ret (st_next s).

Definition get_coll : M LinkCollection :=
  let* s := get_state in ret (st_coll s).

Definition put_coll (c : LinkCollection) : M unit :=
  let* s := get_state in
  put_state (mkState (st_links s) (st_next s) (st_lists s) c).

Definition set_link_data (d : list (Obj * list (Obj * loc))) : M unit :=
  let* c := get_coll in
  put_coll (mkLinkCollection (_methods c) d (_and_mode c)).

(** *** ObjectLink *)

(** The list object created once, when [def __init__(..., shared_strains=[])]
    is evaluated; every call that omits the argument receives this object. *)
Definition default_shared_strains : loc := 0.

(** [ObjectLink(source, target, method, data, shared_strains)]; an omitted
    [shared_strains] is [None] here. *)
Definition ObjectLink_init (source target : Obj) (method : Method) (data : Data)
    (shared_strains : option loc) : M loc :=
  let ss := match shared_strains with
            | Some l => l
            | None => default_shared_strains
            end in
  alloc_link (mkObjectLink source target ss {[ method := data ]}).

(** [self._merge(other_link)]: [self._method_data.update(other_link._method_data)]. *)
Definition _merge (self other_link : loc) : M loc :=
  let* o := read_link self in
  let* p := read_link other_link in
  let* _ := write_link self (mkObjectLink (source o) (target o) (shared_strains o)
                                          (_method_data p ∪ _method_data o)) in
  ret self.

(** [self._method_data[method] = newdata] *)
Definition set_data (self : loc) (method : Method) (newdata : Data) : M unit :=
  let* o := read_link self in
  write_link self (mkObjectLink (source o) (target o) (shared_strains o)
                                (<[method := newdata]> (_method_data o))).

(** [del self._method_data[method]] *)
Definition del_data (self : loc) (method : Method) : M unit :=
  let* o := read_link self in
  match _method_data o !! method with
  | None => raise KeyError
  | Some _ =>
      write_link self (mkObjectLink (source o) (target o) (shared_strains o)
                                    (delete method (_method_data o)))
  end.

(** [self.data(method)]: [self._method_data[method]]. *)
Definition data (self : loc) (method : Method) : M Data :=
  let* o := read_link self in of_option KeyError (_method_data o !! method).

(** [self[name]]: the payload when present; otherwise the code evaluates
    [object.__getitem__], an attribute that [object] does not have. *)
Definition __getitem__ (self : loc) (name : Method) : M Data :=
  let* o := read_link self in
  match _method_data o !! name with
  | Some d => ret d
  | None => raise AttributeError
  end.

(** [self.method_count] and [self.methods] of a link. *)
Definition link_method_count (o : ObjectLink) : nat := size (_method_data o).
Definition link_methods (o : ObjectLink) : gset Method := dom (_method_data o).

(** [link.shared_strains.append(x)]: the mutation of the list object a
    link refers to. *)
Definition shared_strains_append (self : loc) (x : Strain) : M unit :=
  let* o := read_link self in
  let* s := get_state in
  let* l := of_option InvalidRef (st_lists s !! shared_strains o) in
  put_state (mkState (st_links s) (st_next s)
                     (<[shared_strains o := l ++ [x]]> (st_lists s)) (st_coll s)).

(** [link.shared_strains], read. *)
Definition read_shared_strains (self : loc) : M (list Strain) :=
  let* o := read_link self in
  let* s := get_state in
  of_option InvalidRef (st_lists s !! shared_strains o).
End Operations.

(** ** LinkCollection *)

Section LinkCollectionOps.
Context {F : Type} `{Float F}.
Local Abbreviation M := (@M F).

(** [LinkCollection(and_mode)] *)
Definition LinkCollection_init (and_mode : bool) : LinkCollection :=
  mkLinkCollection ∅ [] and_mode.

(** [self._link_data[source]] *)
Definition get_item (src : Obj) : M (list (Obj * loc)) :=
  let* c := get_coll in of_option KeyError (od_get src (_link_data c)).

(** [self._link_data[source] = links] *)
Definition set_item (src : Obj) (links : list (Obj * loc)) : M unit :=
  let* c := get_coll in set_link_data (od_set src links (_link_data c)).

(** [del self._link_data[source]] *)
Definition del_item (src : Obj) : M unit :=
  let* c := get_coll in
  if od_mem src (_link_data c) then set_link_data (od_del src (_link_data c))
  else raise KeyError.

(** [to_remove.add(source)] on the set [to_remove], kept in insertion order. *)
Definition set_add (x : Obj) (s : list Obj) : list Obj :=
  if bool_decide (x ∈ s) then s else s ++ [x].

(** [a.keys() & b.keys()], listed in the order of [a]. *)
Definition keys_inter {V W} (a : list (Obj * V)) (b : list (Obj * W)) : list Obj :=
  List.filter (fun k => od_mem k b) (od_keys a).

(** The inner loop of [_merge_and_mode]:
    [for target, object_link in object_links[source].items():
       if target in self._link_data[source]:
         self._link_data[source][target]._merge(object_link)]. *)
Definition and_merge_targets (src : Obj) (links_to_merge : list (Obj * loc)) : M unit :=
  mfor links_to_merge (fun tl =>
    let* cur := get_item src in
    match od_get tl.1 cur with
    | Some l => let* _ := _merge l tl.2 in ret tt
    | None => ret tt
    end).

(** One iteration of the outer loop of [_merge_and_mode], for the item
    [(source, existing_links)]; the result is the new value of [to_remove]. *)
Definition and_visit (intersect1 : list Obj) (object_links : list (Obj * list (Obj * loc)))
    (to_remove : list Obj) (item : Obj * list (Obj * loc)) : M (list Obj) :=
  let src := item.1 in
  let existing_links := item.2 in
  if negb (bool_decide (src ∈ intersect1)) then ret (set_add src to_remove)
  else
    let* links_to_merge := of_option KeyError (od_get src object_links) in
    let intersect2 := keys_inter existing_links links_to_merge in
    let* _ := set_item src
                (od_filter_keys (fun k => bool_decide (k ∈ intersect2)) existing_links) in
    let* _ := and_merge_targets src links_to_merge in
    let* cur := get_item src in
    if bool_decide (length cur = 0) then ret (set_add src to_remove)
    else ret to_remove.

Definition _merge_and_mode (object_links : list (Obj * list (Obj * loc))) : M unit :=
  let* c := get_coll in
  let intersect1 := keys_inter (_link_data c) object_links in
  let* to_remove := mfold (_link_data c) [] (and_visit intersect1 object_links) in
  mfor to_remove del_item.

(** The second loop of [_merge_or_mode]:
    [for target, object_link in links.items():
       self._link_data[source][target]._merge(object_link)]. *)
Definition or_merge_targets (src : Obj) (links : list (Obj * loc)) : M unit :=
  mfor links (fun tl =>
    let* cur := get_item src in
    let* l := of_option KeyError (od_get tl.1 cur) in
    let* _ := _merge l tl.2 in ret tt).

(** One iteration of the outer loop of [_merge_or_mode], for [(source, links)]. *)
Definition or_visit (item : Obj * list (Obj * loc)) : M unit :=
  let src := item.1 in
  let links := item.2 in
  let* c := get_coll in
  let* _ := match od_get src (_link_data c) with
            | None => set_item src links
            | Some cur =>
                set_item src
                  (od_update cur (od_filter_keys (fun k => negb (od_mem k cur)) links))
            end in
  or_merge_targets src links.

Definition _merge_or_mode (object_links : list (Obj * list (Obj * loc))) : M unit :=
  mfor object_links or_visit.

(** [_add_links_from_method(method, object_links)].  The message of the
    exception is the text the code puts before the name of the method; the
    name itself is not part of the model. *)
Definition _add_links_from_method (method : Method)
    (object_links : list (Obj * list (Obj * loc))) : M unit :=
  let* c := get_coll in
  if bool_decide (method ∈ _methods c) then
    raise (Exception "Duplicate method found in LinkCollection")
  else
    let* _ := (if bool_decide (size (_methods c) = 0) then set_link_data object_links
               else if negb (_and_mode c) then _merge_or_mode object_links
               else _merge_and_mode object_links) in
    let* c' := get_coll in
    put_coll (mkLinkCollection ({[method]} ∪ _methods c') (_link_data c') (_and_mode c')).

(** Read-only properties. *)
Definition methods (c : LinkCollection) : gset Method := _methods c.
Definition sources (c : LinkCollection) : list Obj := od_keys (_link_data c).
Definition links (c : LinkCollection) : list (Obj * list (Obj * loc)) := _link_data c.
Definition source_count (c : LinkCollection) : nat := length (_link_data c).
Definition method_count (c : LinkCollection) : nat := size (_methods c).
Definition __len__ (c : LinkCollection) : nat := length (_link_data c).

(** The [ObjectLink] stored for the pair [(src, tgt)], if any. *)
Definition link_at (d : list (Obj * list (Obj * loc))) (src tgt : Obj) : option loc :=
  match od_get src d with
  | Some ts => od_get tgt ts
  | None => None
  end.

(** Every reference of a result mapping, in iteration order. *)
Definition link_locs (d : list (Obj * list (Obj * loc))) : list loc :=
  concat (map (fun st => st.2.*2) d).

(** The state a program starts in: no link yet, the default strain list
    allocated and empty, the collection freshly constructed. *)
Definition initial_state (and_mode : bool) : @State F :=
  mkState ∅ 0 {[ default_shared_strains := [] ]} (LinkCollection_init and_mode).
End LinkCollectionOps.

(** ** Several contributions in a row *)

Section Contributions.
Context {F : Type} `{Float F}.

(** A result mapping as Python holds it: each source once, and each target
    once under its source. *)
Definition results_wf (R : list (Obj * list (Obj * loc))) : Prop :=
  od_wf R /\ forall src ts, (src, ts) ∈ R -> od_wf ts.

(** Every reference of [A] is allocated and its link has a payload of every
    method of [ms]. *)
Definition links_hold (h : gmap loc (@ObjectLink F)) (A : list (Obj * list (Obj * loc)))
    (ms : gset Method) : Prop :=
  forall l, l ∈ link_locs A ->
            exists o, h !! l = Some o /\ ms ⊆ dom (_method_data o).

(** [for method, results in contributions:
       link_collection._add_links_from_method(method, results)] *)
Definition add_all (contributions : list (Method * list (Obj * list (Obj * loc))))
    : @M F unit :=
  mfor contributions (fun c => _add_links_from_method c.1 c.2).
End Contributions.

(** ** The merges, described without the loops

    What [_merge_and_mode] and [_merge_or_mode] do to the link data and to
    the store, as functions of the existing link data [A] and of the new
    results [B].  The loops above are proved to compute exactly these. *)

Section MergeDescriptions.
Context {F : Type} `{Float F}.
Local Abbreviation ObjectLink := (@ObjectLink F).

(** The link [o] after [o._merge(p)]. *)
Definition merged (o p : ObjectLink) : ObjectLink :=
  mkObjectLink (source o) (target o) (shared_strains o) (_method_data p ∪ _method_data o).

(** The store after [l._merge(lb)]. *)
Definition apply_merge (h : gmap loc ObjectLink) (pr : loc * loc) : gmap loc ObjectLink :=
  match h !! pr.1, h !! pr.2 with
  | Some o, Some p => <[pr.1 := merged o p]> h
  | _, _ => h
  end.

(** The store after a sequence of merges. *)
Definition apply_merges (prs : list (loc * loc)) (h : gmap loc ObjectLink)
    : gmap loc ObjectLink :=
  foldl apply_merge h prs.

(** The targets of [existing] that [links_to_merge] has too. *)
Definition and_targets (existing links_to_merge : list (Obj * loc)) : list (Obj * loc) :=
  od_filter_keys (fun k => bool_decide (k ∈ keys_inter existing links_to_merge)) existing.

(** The entry of a source once the AND loop has visited it. *)
Definition and_entry (B : list (Obj * list (Obj * loc))) (e : Obj * list (Obj * loc))
    : Obj * list (Obj * loc) :=
  match od_get e.1 B with
  | Some links_to_merge => (e.1, and_targets e.2 links_to_merge)
  | None => e
  end.

(** Whether the AND loop puts the source into [to_remove]. *)
Definition and_removed (B : list (Obj * list (Obj * loc))) (e : Obj * list (Obj * loc))
    : bool :=
  match od_get e.1 B with
  | Some links_to_merge => bool_decide (length (and_targets e.2 links_to_merge) = 0)
  | None => true
  end.

(** The merges of the loop over [cur]'s partner dictionary:
    [(l, object_link)] for each [(tgt, object_link)] whose target is in [cur]. *)
Definition pairs_with (cur links_to_merge : list (Obj * loc)) : list (loc * loc) :=
  omap (fun tl : Obj * loc => (fun l => (l, tl.2)) <$> od_get tl.1 cur) links_to_merge.

(** The merges the AND loop performs for one source. *)
Definition and_pairs_of (B : list (Obj * list (Obj * loc))) (e : Obj * list (Obj * loc))
    : list (loc * loc) :=
  match od_get e.1 B with
  | Some links_to_merge => pairs_with (and_targets e.2 links_to_merge) links_to_merge
  | None => []
  end.

Definition and_pairs (A B : list (Obj * list (Obj * loc))) : list (loc * loc) :=
  concat (map (and_pairs_of B) A).

(** The link data after [_merge_and_mode]. *)
Definition and_link_data (A B : list (Obj * list (Obj * loc)))
    : list (Obj * list (Obj * loc)) :=
  map (and_entry B) (List.filter (fun e => negb (and_removed B e)) A).

(** The entry of source [src] once the OR loop has visited [(src, links)]. *)
Definition or_targets (d : list (Obj * list (Obj * loc))) (src : Obj)
    (links : list (Obj * loc)) : list (Obj * loc) :=
  match od_get src d with
  | None => links
  | Some cur => od_update cur (od_filter_keys (fun k => negb (od_mem k cur)) links)
  end.

(** The link data after the OR loop over [B], starting from [d]. *)
Definition or_link_data (d B : list (Obj * list (Obj * loc)))
    : list (Obj * list (Obj * loc)) :=
  foldl (fun d e => od_set e.1 (or_targets d e.1 e.2) d) d B.

(** The merges of the OR loop over [B], starting from [d]. *)
Fixpoint or_pairs (d B : list (Obj * list (Obj * loc))) : list (loc * loc) :=
  match B with
  | [] => []
  | e :: B' =>
      pairs_with (or_targets d e.1 e.2) e.2
      ++ or_pairs (od_set e.1 (or_targets d e.1 e.2) d) B'
  end.
End MergeDescriptions.

(** ** Rational numbers as scores, for concrete runs *)

Definition Qlt_bool (a b : Q) : bool := negb (Qle_bool b a).

#[export] Instance Q_Float : Float Q :=
  {| fsub := Qminus; fdiv := Qdiv; flt := Qlt_bool; fge := fun a b => Qle_bool b a |}.

#[export] Instance Q_FloatOrder : FloatOrder Q.
Proof. intros a b. unfold flt, fge, Q_Float, Qlt_bool. by rewrite negb_involutive. Qed.

(** ** Computations that only read: a value or an exception *)

Inductive exc (A : Type) :=
| Val (a : A)
| Exc (e : exn).
Arguments Val {A} a.
Arguments Exc {A} e.

Definition exc_bind {A B} (m : exc A) (k : A -> exc B) : exc B :=
  match m with Val a => k a | Exc e => Exc e end.

Notation "'let?' x ':=' m 'in' k" := (exc_bind m (fun x => k))
  (at level 10, x pattern, m at level 200, k at level 200, only parsing).

(** [l[i]] on a list, for an index that is not negative. *)
Definition index {A} (l : list A) (i : nat) : exc A :=
  match l !! i with Some a => Val a | None => Exc IndexError end.

(** [t[i][j]] on a two-dimensional table. *)
Definition index2 {A} (t : list (list A)) (i j : nat) : exc A :=
  let? row := index t i in index row j.

(** ** The analysis context [npl]

    The lists of objects, and the attributes of the objects the scoring
    methods read: [x.strains], [bgc.parent] and [gcf.bgcs].  The classes
    [BGC], [GCF], [Spectrum] and [MolecularFamily] are unrelated: an object
    is an instance of exactly its own class among them. *)

Record NPLinker := mkNPLinker {
  bgcs : list Obj;
  gcfs : list Obj;
  spectra : list Obj;
  molfams : list Obj;
  strains : list Strain;
  _spectra : list Obj;
  _gcfs : list Obj;
  _molfams : list Obj;
  obj_strains : Obj -> list Strain;
  parent : Obj -> Obj;
  gcf_bgcs : Obj -> list Obj
}.

(** [isinstance(x, cls)] for [cls] one of the four classes. *)
Definition isinstance (x : Obj) (cls : Kind) : bool := bool_decide (kind x = cls).

(** [all(isinstance(x, type(objects[0])) for x in objects)]; the generator
    body is never run on an empty sequence. *)
Definition uniformly_typed (objects : list Obj) : bool :=
  match objects with
  | [] => true
  | o0 :: _ => forallb (fun x => isinstance x (kind o0)) objects
  end.

(** ** MetcalfScoring *)

Section Metcalf.
Context {F : Type} `{Float F}.
Local Abbreviation M := (@M F).

(** A [(3, n)] result array, by columns: source id, destination id, score. *)
Definition Triples : Type := list (nat * nat * F).

(** What the code reads of the [LinkFinder] object: the two lookup tables and
    [get_links(datalinks, objects, name, cutoff)]. *)
Record LinkFinder := mkLinkFinder {
  metcalf_expected : list (list F);
  metcalf_variance_sqrt : list (list F);
  lf_get_links : list Obj -> option F -> list Triples
}.

Record MetcalfScoring := mkMetcalfScoring {
  mc_id : Method;             (* the instance itself, as a key *)
  cutoff : option F;          (* [None] or a number; 1.0 after [__init__] *)
  standardised : bool         (* [True] after [__init__] *)
}.

(** [self.cutoff is None or (final_score >= self.cutoff)] *)
Definition passes_cutoff (self : MetcalfScoring) (final_score : F) : bool :=
  match cutoff self with
  | None => true
  | Some c => fge final_score c
  end.

(** [(score - expected) / variance_sqrt] with both values looked up at
    [[met_strains][gen_strains]]. *)
Definition standardise (linkfinder : LinkFinder) (met_strains gen_strains : nat)
    (score : F) : exc F :=
  let? expected := index2 (metcalf_expected linkfinder) met_strains gen_strains in
  let? variance_sqrt := index2 (metcalf_variance_sqrt linkfinder) met_strains gen_strains in
  Val (fdiv (fsub score expected) variance_sqrt).

(** The loop of [_metcalf_postprocess_met]; [acc] stands for the three lists
    [new_src], [new_dst], [new_sco]. *)
Fixpoint postprocess_met_loop (npl : NPLinker) (self : MetcalfScoring)
    (linkfinder : LinkFinder) (met_objs : list Obj) (rows acc : Triples) : exc Triples :=
  match rows with
  | [] => Val acc
  | (src_id, dst_id, score) :: rows' =>
      let? met_obj := index met_objs src_id in
      let met_strains := length (obj_strains npl met_obj) in
      let? gcf := index (gcfs npl) dst_id in
      let gen_strains := length (obj_strains npl gcf) in
      let? final_score := standardise linkfinder met_strains gen_strains score in
      if passes_cutoff self final_score
      then postprocess_met_loop npl self linkfinder met_objs rows'
             (acc ++ [(src_id, dst_id, final_score)])
      else postprocess_met_loop npl self linkfinder met_objs rows' acc
  end.

Definition _metcalf_postprocess_met (npl : NPLinker) (self : MetcalfScoring)
    (linkfinder : LinkFinder) (results : list Triples) (input_type : Kind)
    : exc (list Triples) :=
  let met_objs := if bool_decide (input_type = Spectrum) then spectra npl else molfams npl in
  let? rows := index results 0 in
  let? new := postprocess_met_loop npl self linkfinder met_objs rows [] in
  Val [new].

(** The inner loop of [_metcalf_postprocess_gen]. *)
Fixpoint postprocess_gen_loop (npl : NPLinker) (self : MetcalfScoring)
    (linkfinder : LinkFinder) (met_objs : list Obj) (rows acc : Triples) : exc Triples :=
  match rows with
  | [] => Val acc
  | (src_id, dst_id, score) :: rows' =>
      let? gcf := index (gcfs npl) src_id in
      let gen_strains := length (obj_strains npl gcf) in
      let? met_obj := index met_objs dst_id in
      let met_strains := length (obj_strains npl met_obj) in
      let? final_score := standardise linkfinder met_strains gen_strains score in
      if passes_cutoff self final_score
      then postprocess_gen_loop npl self linkfinder met_objs rows'
             (acc ++ [(src_id, dst_id, final_score)])
      else postprocess_gen_loop npl self linkfinder met_objs rows' acc
  end.

(** The outer loop over [enumerate([self.npl.spectra, self.npl.molfams])]. *)
Fixpoint postprocess_gen_outer (npl : NPLinker) (self : MetcalfScoring)
    (linkfinder : LinkFinder) (results : list Triples)
    (met_objs_list : list (nat * list Obj)) (new_results : list Triples)
    : exc (list Triples) :=
  match met_objs_list with
  | [] => Val new_results
  | (m, met_objs) :: rest =>
      let? rows := index results m in
      let? new := postprocess_gen_loop npl self linkfinder met_objs rows [] in
      postprocess_gen_outer npl self linkfinder results rest (new_results ++ [new])
  end.

Definition _metcalf_postprocess_gen (npl : NPLinker) (self : MetcalfScoring)
    (linkfinder : LinkFinder) (results : list Triples) (input_type : Kind)
    : exc (list Triples) :=
  postprocess_gen_outer npl self linkfinder results
    [(0, spectra npl); (1, molfams npl)] [].

(** The spec's formula: [z] is the standardised score of the raw score [s]
    between the metabolomic object number [met_id] of [met_objs], with [m]
    strains, and the GCF number [gcf_id], with [g] strains:
    [z = (s - expected[m][g]) / variance_sqrt[m][g]]. *)
Definition standardised_as (npl : NPLinker) (linkfinder : LinkFinder)
    (met_objs : list Obj) (met_id gcf_id : nat) (s z : F) : Prop :=
  exists met_obj gcf expected variance_sqrt,
    met_objs !! met_id = Some met_obj
    /\ gcfs npl !! gcf_id = Some gcf
    /\ index2 (metcalf_expected linkfinder)
              (length (obj_strains npl met_obj)) (length (obj_strains npl gcf)) = Val expected
    /\ index2 (metcalf_variance_sqrt linkfinder)
              (length (obj_strains npl met_obj)) (length (obj_strains npl gcf))
       = Val variance_sqrt
    /\ z = fdiv (fsub s expected) variance_sqrt.

(** The spec's retention rule: [cutoff is None or z >= cutoff]. *)
Definition retained (self : MetcalfScoring) (z : F) : Prop :=
  cutoff self = None \/ exists c, cutoff self = Some c /\ fge z c = true.

End Metcalf.

(** ** The [get_links] methods *)

Section GetLinks.
Context {F : Type} `{Float F}.
Local Abbreviation M := (@M F).
Local Abbreviation Data := (@Data F).
Local Abbreviation RosettaHit := (@RosettaHit F).
Local Abbreviation Triples := (@Triples F).
Local Abbreviation LinkFinder := (@LinkFinder F).
Local Abbreviation MetcalfScoring := (@MetcalfScoring F).

(** A read-only computation run inside a stateful one. *)
Definition lift {A} (m : exc A) : M A :=
  match m with Val a => ret a | Exc e => raise e end.

(** [if src not in results: results[src] = {}], then
    [results[src][tgt] = ObjectLink(src, tgt, method, data)]. *)
Definition store_new_link (method : Method) (src tgt : Obj) (data : Data)
    (results : list (Obj * list (Obj * loc))) : M (list (Obj * list (Obj * loc))) :=
  let results1 := if od_mem src results then results else od_set src [] results in
  let* l := ObjectLink_init src tgt method data None in
  let* inner := of_option KeyError (od_get src results1) in
  ret (od_set src (od_set tgt l inner) results1).

(** The loop of [MetcalfScoring.get_links] over the entries of a GCF-input
    result array: the source is the GCF, the target a Spectrum or a
    MolecularFamily according to [type_]. *)
Definition metcalf_gcf_entries (npl : NPLinker) (self : MetcalfScoring) (type_ : Kind)
    (res : Triples) (metcalf_results : list (Obj * list (Obj * loc)))
    : M (list (Obj * list (Obj * loc))) :=
  mfold res metcalf_results (fun metcalf_results '(src_id, dst_id, score) =>
    let* obj := lift (index (if bool_decide (type_ = Spectrum) then _spectra npl
                             else _molfams npl) dst_id) in
    let* gcf := lift (index (_gcfs npl) src_id) in
    store_new_link (mc_id self) gcf obj (DFloat score) metcalf_results).

(** The loop over the entries of a Spectrum or MolecularFamily input. *)
Definition metcalf_met_entries (npl : NPLinker) (self : MetcalfScoring) (input_type : Kind)
    (res : Triples) (metcalf_results : list (Obj * list (Obj * loc)))
    : M (list (Obj * list (Obj * loc))) :=
  mfold res metcalf_results (fun metcalf_results '(src_id, dst_id, score) =>
    let* gcf := lift (index (_gcfs npl) dst_id) in
    let* obj := lift (index (if bool_decide (input_type = Spectrum) then _spectra npl
                             else _molfams npl) src_id) in
    store_new_link (mc_id self) obj gcf (DFloat score) metcalf_results).

(** [MetcalfScoring.get_links(objects, link_collection)]; [LINKFINDER] is the
    class attribute, [None] before [setup]. *)
Definition MetcalfScoring_get_links (npl : NPLinker) (LINKFINDER : option LinkFinder)
    (self : MetcalfScoring) (objects : list Obj) : M unit :=
  if negb (uniformly_typed objects) then
    raise (Exception "MetcalfScoring: uniformly-typed list of objects is required")
  else
    let* o0 := lift (index objects 0) in
    if isinstance o0 BGC then
      raise (Exception "MetcalfScoring requires input type GCF/Spectrum/MolecularFamily, not BGC")
    else
      let* linkfinder := of_option AttributeError LINKFINDER in
      let input_type := kind o0 in
      let* results :=
        (if negb (standardised self) then
           ret (lf_get_links linkfinder objects (cutoff self))
         else
           let results := lf_get_links linkfinder objects None in
           let gcf_input := bool_decide (input_type = GCF) in
           if negb gcf_input
           then lift (_metcalf_postprocess_met npl self linkfinder results input_type)
           else lift (_metcalf_postprocess_gen npl self linkfinder results input_type)) in
      if bool_decide (input_type = GCF) then
        let* result_gcf_spec := lift (index results 0) in
        let* result_gcf_fam := lift (index results 1) in
        let* metcalf_results :=
          mfold [(result_gcf_spec, Spectrum); (result_gcf_fam, MolecularFamily)] []
            (fun metcalf_results '(res, type_) =>
               if bool_decide (length res = 0) then ret metcalf_results
               else metcalf_gcf_entries npl self type_ res metcalf_results) in
        _add_links_from_method (mc_id self) metcalf_results
      else
        let* results0 := lift (index results 0) in
        if bool_decide (length results0 = 0) then
          _add_links_from_method (mc_id self) []
        else
          let* metcalf_results := metcalf_met_entries npl self input_type results0 [] in
          _add_links_from_method (mc_id self) metcalf_results.

(** *** RosettaScoring *)

Record RosettaScoring := mkRosettaScoring {
  ro_id : Method;
  bgc_to_gcf : bool;
  spec_score_cutoff : F;
  bgc_score_cutoff : F
}.

Definition _include_hit (self : RosettaScoring) (hit : RosettaHit) : bool :=
  if flt (spec_match_score hit) (spec_score_cutoff self)
     || flt (bgc_match_score hit) (bgc_score_cutoff self)
  then false
  else true.

(** [list(filter(lambda hit: self._include_hit(hit), ROSETTA_OBJ._rosetta_hits))] *)
Definition ro_hits_of (self : RosettaScoring) (all_hits : list RosettaHit)
    : list RosettaHit :=
  List.filter (fun hit => _include_hit self hit) all_hits.

(** The body shared by the two loops of [RosettaScoring.get_links]: the hit
    is appended to the link of [(src, tgt)] when there is one, and a new
    link holding [[hit]] is stored otherwise. *)
Definition rosetta_add_hit (self : RosettaScoring) (src tgt : Obj) (hit : RosettaHit)
    (results : list (Obj * list (Obj * loc))) : M (list (Obj * list (Obj * loc))) :=
  let results1 := if od_mem src results then results else od_set src [] results in
  let* inner := of_option KeyError (od_get src results1) in
  match od_get tgt inner with
  | Some l =>
      let* original_data := data l (ro_id self) in
      match original_data with
      | DHits hs => let* _ := set_data l (ro_id self) (DHits (hs ++ [hit])) in ret results1
      | _ => raise TypeError
      end
  | None =>
      let* l := ObjectLink_init src tgt (ro_id self) (DHits [hit]) None in
      ret (od_set src (od_set tgt l inner) results1)
  end.

(** [RosettaScoring.get_links(objects, link_collection)]; [rosetta_hits] is
    [RosettaScoring.ROSETTA_OBJ._rosetta_hits], absent before [setup].
    [list(set(...))] lists the BGCs of the input GCFs once each. *)
Definition RosettaScoring_get_links (npl : NPLinker)
    (rosetta_hits : option (list RosettaHit))
    (self : RosettaScoring) (objects : list Obj) : M unit :=
  if negb (uniformly_typed objects) then
    raise (Exception "RosettaScoring: uniformly-typed list of objects is required")
  else
    let* o0 := lift (index objects 0) in
    if isinstance o0 MolecularFamily then
      raise (Exception "RosettaScoring requires input type Spectrum (found MolecularFamily)")
    else
      let objects := if isinstance o0 GCF
                     then remove_dups (concat (map (gcf_bgcs npl) objects))
                     else objects in
      let* all_hits := of_option AttributeError rosetta_hits in
      let ro_hits := ro_hits_of self all_hits in
      let* o0 := lift (index objects 0) in
      let* results :=
        (if isinstance o0 BGC then
           mfold objects [] (fun results bgc_ =>
             mfold ro_hits results (fun results hit =>
               if bool_decide (id bgc_ = id (bgc hit)) then
                 let src := if negb (bgc_to_gcf self) then bgc_ else parent npl bgc_ in
                 rosetta_add_hit self src (spec hit) hit results
               else ret results))
         else
           mfold objects [] (fun results spec_ =>
             mfold ro_hits results (fun results hit =>
               if bool_decide (id spec_ = id (spec hit)) then
                 let tgt := if negb (bgc_to_gcf self) then bgc hit
                            else parent npl (bgc hit) in
                 rosetta_add_hit self spec_ tgt hit results
               else ret results))) in
      _add_links_from_method (ro_id self) results.

(** *** TestScoring *)

Record TestScoring := mkTestScoring {
  ts_id : Method;
  value : Q;                  (* 0.5 after [__init__] *)
  mc : MetcalfScoring
}.

(** [int(n * self.value)] *)
Definition num_to_keep (self : TestScoring) (n : nat) : nat :=
  Z.to_nat (Qfloor (Qmult (inject_Z (Z.of_nat n)) (value self))).

(** [TestScoring.get_links(objects, link_collection)]; the [k]-th call of
    [random.random()] returns [random k]. *)
Definition TestScoring_get_links (npl : NPLinker) (LINKFINDER : option LinkFinder)
    (random : nat -> F) (self : TestScoring) (objects : list Obj) : M unit :=
  let* _ := MetcalfScoring_get_links npl LINKFINDER (mc self) objects in
  let* mc_results := get_coll in
  let results := take (num_to_keep self (__len__ mc_results)) (links mc_results) in
  let* _ := mfold results 0 (fun k '(_, links) =>
              mfold links k (fun k '(_, link) =>
                let* _ := set_data link (ts_id self) (DFloat (random k)) in
                let* _ := del_data link (mc_id (mc self)) in
                ret (S k))) in
  _add_links_from_method (ts_id self) results.
End GetLinks.

(** ** MetcalfScoring.setup and its cache file *)

Section MetcalfSetup.
(** [DL] and [LF] are the [DataLinks] and [LinkFinder] objects, opaque here. *)
Context {DL LF : Type}.

(** The cache file [metcalf/metcalf_scores.pckl]. *)
Inductive CacheFile :=
| NoFile                                                   (* [os.path.exists] is false *)
| Unreadable                                               (* present, does not unpickle *)
| Pickled (counts : list nat) (datalinks : DL) (linkfinder : LF).

(** The calls that leave the process, in the order they are made. *)
Inductive Event :=
| EvLoad                  (* [load_pickled_data] *)
| EvInvalidate            (* the "invalidating cached data" branch *)
| EvPreprocess            (* [find_correlations] and the two [metcalf_scoring] calls *)
| EvSave.                 (* [save_pickled_data] *)

(** The class attributes [MetcalfScoring.DATALINKS] and [.LINKFINDER], the
    cache file, and the log of events. *)
Record SetupState := mkSetupState {
  DATALINKS : option DL;
  LINKFINDER : option LF;
  cache_file : CacheFile;
  events : list Event
}.

(** Modelled from the spec: [load_pickled_data] of [nplinker/pickler.py],
    which is not among the sources.  A malformed cache file is treated as a
    cache miss: the call returns [None] instead of raising. *)
Definition load_pickled_data (f : CacheFile) : option (list nat * DL * LF) :=
  match f with
  | Pickled counts datalinks linkfinder => Some (counts, datalinks, linkfinder)
  | _ => None
  end.

(** [for i in range(len(counts)): if counts[i] != dataset_counts[i]: ... break];
    the result is [cache_ok]. *)
Fixpoint compare_counts (range : list nat) (counts dataset_counts : list nat) : exc bool :=
  match range with
  | [] => Val true
  | i :: range' =>
      let? c := index counts i in
      let? d := index dataset_counts i in
      if bool_decide (c ≠ d) then Val false
      else compare_counts range' counts dataset_counts
  end.

(** [len(npl.bgcs), len(npl.gcfs), len(npl.spectra), len(npl.molfams), len(npl.strains)] *)
Definition dataset_counts_of (npl : NPLinker) : list nat :=
  [length (bgcs npl); length (gcfs npl); length (spectra npl);
   length (molfams npl); length (strains npl)].

(** [preprocess npl] stands for [DataLinks()], [load_data], [find_correlations],
    [LinkFinder()] and the two [metcalf_scoring] calls. *)
Definition MetcalfScoring_setup (preprocess : NPLinker -> DL * LF) (npl : NPLinker)
    (st : SetupState) : exc SetupState :=
  let dataset_counts := dataset_counts_of npl in
  let? st1 :=
    match cache_file st with
    | NoFile => Val st
    | f =>
        let cache_data := load_pickled_data f in
        let ev := events st ++ [EvLoad] in
        match cache_data with
        | Some (counts, datalinks, linkfinder) =>
            let? cache_ok := compare_counts (seq 0 (length counts)) counts dataset_counts in
            if cache_ok
            then Val (mkSetupState (Some datalinks) (Some linkfinder) (cache_file st) ev)
            else Val (mkSetupState (DATALINKS st) (LINKFINDER st) (cache_file st)
                                   (ev ++ [EvInvalidate]))
        | None =>
            (* [cache_ok] is still true; [datalinks, linkfinder = None, None] *)
            Val (mkSetupState None None (cache_file st) ev)
        end
    end in
  match DATALINKS st1 with
  | None =>
      let '(datalinks, linkfinder) := preprocess npl in
      Val (mkSetupState (Some datalinks) (Some linkfinder)
             (Pickled dataset_counts datalinks linkfinder)
             (events st1 ++ [EvPreprocess; EvSave]))
  | Some _ => Val st1
  end.
End MetcalfSetup.

(** ** LinkCollection: filters and queries *)

Section LinkCollectionFilters.
Context {F : Type} `{Float F}.
Local Abbreviation M := (@M F).

(** [filter_sources(callable_obj)]; the predicate is given source objects. *)
Definition filter_sources (callable_obj : Obj -> bool) : M unit :=
  let* c := get_coll in
  set_link_data (od_filter_keys callable_obj (_link_data c)).

(** [filter_targets(callable_obj, sources)]; an omitted [sources] is [None].
    The first loop replaces the dictionary of each listed source by its
    filtered copy and collects in the list [to_remove] the sources left
    without a target; the second loop deletes them. *)
Definition filter_targets (callable_obj : Obj -> bool) (sources : option (list Obj))
    : M unit :=
  let* c := get_coll in
  let sources_list := match sources with
                      | None => od_keys (_link_data c)
                      | Some l => l
                      end in
  let* to_remove :=
    mfold sources_list [] (fun to_remove source =>
      let* cur := get_item source in
      let* _ := set_item source (od_filter_keys callable_obj cur) in
      let* cur' := get_item source in
      if bool_decide (length cur' = 0) then ret (to_remove ++ [source])
      else ret to_remove) in
  mfor to_remove del_item.

(** [{k: v for k, v in items if callable_obj(v)}]: the predicate is given
    the link objects, which it may read. *)
Fixpoint filter_values (callable_obj : loc -> M bool) (items : list (Obj * loc))
    : M (list (Obj * loc)) :=
  match items with
  | [] => ret []
  | (k, v) :: items' =>
      let* keep := callable_obj v in
      let* rest := filter_values callable_obj items' in
      ret (if keep then (k, v) :: rest else rest)
  end.

(** [filter_links(callable_obj, sources)] *)
Definition filter_links (callable_obj : loc -> M bool) (sources : option (list Obj))
    : M unit :=
  let* c := get_coll in
  let sources_list := match sources with
                      | None => od_keys (_link_data c)
                      | Some l => l
                      end in
  let* to_remove :=
    mfold sources_list [] (fun to_remove source =>
      let* cur := get_item source in
      let* new := filter_values callable_obj cur in
      let* _ := set_item source new in
      let* cur' := get_item source in
      if bool_decide (length cur' = 0) then ret (to_remove ++ [source])
      else ret to_remove) in
  mfor to_remove del_item.

(** [lambda x: len(x.shared_strains) > 0] *)
Definition has_shared_strains (x : loc) : M bool :=
  let* l := read_shared_strains x in ret (bool_decide (0 < length l)).

(** [filter_no_shared_strains()] *)
Definition filter_no_shared_strains : M unit :=
  filter_links has_shared_strains None.

(** [get_all_targets()].  The lookup [self._link_data[x]] of a key [x] of
    the dictionary itself cannot fail.  [list(set(...))] lists each target
    once, in an order Python does not specify; here, by first occurrence. *)
Definition get_all_targets (c : LinkCollection) : list Obj :=
  remove_dups
    (concat (omap (fun x => od_keys <$> od_get x (_link_data c)) (od_keys (_link_data c)))).

(** [[link for link in links if keep(link)]] on references. *)
Definition links_where (keep : @ObjectLink F -> bool) (links : list loc) : M (list loc) :=
  mfold links [] (fun acc link =>
    let* o := read_link link in
    ret (if keep o then acc ++ [link] else acc)).

(** [get_sorted_links(method, source, reverse, strict)]; [sort] is the
    [sort] method of [method]. *)
Definition get_sorted_links (method : Method) (sort : list loc -> bool -> M (list loc))
    (source : Obj) (reverse strict : bool) : M (list loc) :=
  let* cur := get_item source in
  let* found := links_where (fun o => bool_decide (method ∈ link_methods o)) cur.*2 in
  let* sorted_links_for_method := sort found reverse in
  if negb strict then
    let* cur' := get_item source in
    let* others := links_where (fun o => negb (bool_decide (method ∈ link_methods o)))
                     cur'.*2 in
    ret (sorted_links_for_method ++ others)
  else ret sorted_links_for_method.

(** [ScoringMethod.sort], and its overrides in [TestScoring] and
    [RosettaScoring]: [return objects]. *)
Definition ScoringMethod_sort (objects : list loc) (reverse : bool) : M (list loc) :=
  ret objects.
Definition TestScoring_sort (objects : list loc) (reverse : bool) : M (list loc) :=
  ret objects.
Definition RosettaScoring_sort (objects : list loc) (reverse : bool) : M (list loc) :=
  ret objects.

(** [ScoringMethod.get_links]: [return link_collection]. *)
Definition ScoringMethod_get_links (objects : list Obj) : M unit := ret tt.

(** *** [MetcalfScoring.sort]

    [sorted(objects, key=lambda objlink: objlink[self], reverse=reverse)]
    calls the key function once on each link, in list order, before it
    compares anything; it then sorts by [<] on the keys, and is stable.  On
    keys that [<] orders (no NaN) every stable sort gives the same list; the
    model inserts the elements one by one, each behind the elements that are
    not greater.  With [reverse] the list is reversed, sorted, and reversed
    again.  A list of fewer than two links is not compared at all.  The
    payloads a Metcalf method stores are floats: the model stops with
    TypeError when it would have to compare another payload. *)
Fixpoint insert_by_key (x : F * loc) (sorted : list (F * loc)) : list (F * loc) :=
  match sorted with
  | [] => [x]
  | y :: rest => if flt x.1 y.1 then x :: y :: rest else y :: insert_by_key x rest
  end.

Definition stable_sort (l : list (F * loc)) : list (F * loc) :=
  foldl (fun acc x => insert_by_key x acc) [] l.

Definition sorted_by_key (keyed : list (F * loc)) (reverse : bool) : list (F * loc) :=
  if reverse then rev (stable_sort (rev keyed)) else stable_sort keyed.

Definition float_of (d : @Data F) : M F :=
  match d with DFloat x => ret x | _ => raise TypeError end.

Definition MetcalfScoring_sort (self : @MetcalfScoring F) (objects : list loc)
    (reverse : bool) : M (list loc) :=
  let* keys := mfold objects [] (fun keys objlink =>
                 let* k := __getitem__ objlink (mc_id self) in ret (keys ++ [k])) in
  match objects with
  | [] | [_] => ret objects
  | _ =>
      let* floats := mfold keys [] (fun floats k =>
                       let* x := float_of k in ret (floats ++ [x])) in
      ret (sorted_by_key (zip floats objects) reverse).*2
  end.
End LinkCollectionFilters.

(** ** The filters, described without the loops *)

Section FilterDescriptions.
(** The link data after the first loop of a filter that turns the
    dictionary [cur] of a listed source into [g cur]. *)
Definition filter_step (g : list (Obj * loc) -> list (Obj * loc))
    (d : list (Obj * list (Obj * loc))) (source : Obj) : list (Obj * list (Obj * loc)) :=
  match od_get source d with
  | Some cur => od_set source (g cur) d
  | None => d
  end.

Definition filter_loop_data (g : list (Obj * loc) -> list (Obj * loc))
    (d : list (Obj * list (Obj * loc))) (sources_list : list Obj)
    : list (Obj * list (Obj * loc)) :=
  foldl (filter_step g) d sources_list.

(** The list [to_remove] after the first loop. *)
Definition filter_to_remove (g : list (Obj * loc) -> list (Obj * loc))
    (d : list (Obj * list (Obj * loc))) (sources_list : list Obj) : list Obj :=
  List.filter (fun source => match od_get source d with
                             | Some cur => bool_decide (length (g cur) = 0)
                             | None => false
                             end) sources_list.

(** The link data after the second loop. *)
Definition del_all (to_remove : list Obj) (d : list (Obj * list (Obj * loc)))
    : list (Obj * list (Obj * loc)) :=
  foldl (fun d source => od_del source d) d to_remove.
End FilterDescriptions.

Section QueryDescriptions.
Context {F : Type} `{Float F}.

(** Whether [filter_targets] and [filter_links] visit [source]: every
    source when [sources] is omitted, the listed ones otherwise. *)
Definition listed (sources : option (list Obj)) (source : Obj) : bool :=
  match sources with
  | None => true
  | Some l => bool_decide (source ∈ l)
  end.

(** [method in link.methods], for the link at [link] in the store [h]. *)
Definition link_has_method (h : gmap loc (@ObjectLink F)) (method : Method) (link : loc)
    : bool :=
  match h !! link with
  | Some o => bool_decide (method ∈ link_methods o)
  | None => false
  end.
End QueryDescriptions.

Section StrainDescriptions.
Context {F : Type} `{Float F}.

(** [len(link.shared_strains) > 0], for the link at [link] in the store [h]
    with the strain lists [ls]. *)
Definition link_shares_strains (h : gmap loc (@ObjectLink F)) (ls : gmap loc (list Strain))
    (link : loc) : bool :=
  match h !! link with
  | Some o => match ls !! shared_strains o with
              | Some l => bool_decide (0 < length l)
              | None => false
              end
  | None => false
  end.
End StrainDescriptions.

(** ** Scores that may be NaN

    Python floats include NaN, with which every comparison is false.
    [None] stands for NaN. *)

#[export] Instance QNaN_Float : Float (option Q) :=
  {| fsub := fun a b => match a, b with
                        | Some x, Some y => Some (Qminus x y)
                        | _, _ => None
                        end;
     fdiv := fun a b => match a, b with
                        | Some x, Some y => Some (Qdiv x y)
                        | _, _ => None
                        end;
     flt := fun a b => match a, b with
                       | Some x, Some y => Qlt_bool x y
                       | _, _ => false
                       end;
     fge := fun a b => match a, b with
                       | Some x, Some y => Qle_bool y x
                       | _, _ => false
                       end |}.

(** ** The results of [RosettaScoring.get_links], described without the loops *)

Section RosettaDescriptions.
Context {F : Type} `{Float F}.





(** The hits filed under the pair [(src, tgt)], in order. *)
Definition hits_for (es : list (Obj * Obj * @RosettaHit F)) (src tgt : Obj)
    : list (@RosettaHit F) :=
  (List.filter (fun e => bool_decide (e.1 = (src, tgt))) es).*2.

End RosettaDescriptions.

(** ** Concrete objects for runs of the model *)

Module Examples.
Definition gcfA : Obj := mkObj GCF 0.
Definition gcfB : Obj := mkObj GCF 1.
Definition spec1 : Obj := mkObj Spectrum 0.
Definition spec2 : Obj := mkObj Spectrum 1.
Definition spec3 : Obj := mkObj Spectrum 2.
Definition bgc1 : Obj := mkObj BGC 0.

(** Two scoring-method instances. *)
Definition m1 : Method := 1.
Definition m2 : Method := 2.

(** A state holding one link, of [gcfA] and [spec1], with a payload of [m1] only. *)
Definition one_link_state : @State Q :=
  mkState {[ 0 := mkObjectLink gcfA spec1 default_shared_strains {[ m1 := DFloat (1 # 2) ]} ]}
          1 {[ default_shared_strains := [] ]} (LinkCollection_init true).

(** Two links built without a [shared_strains] argument; a strain is then
    appended to the list of the first, and the list of the second is read. *)
Definition two_links_append_read : @M Q (list Strain) :=
  let* l1 := ObjectLink_init gcfA spec1 m1 (DFloat (1 # 2)) None in
  let* l2 := ObjectLink_init gcfB spec2 m1 (DFloat (1 # 3)) None in
  let* _ := shared_strains_append l1 7 in
  read_shared_strains l2.

(** An analysis context without objects. *)
Definition empty_npl : NPLinker :=
  mkNPLinker [] [] [] [] [] [] [] [] (fun _ => []) (fun o => o) (fun _ => []).

(** Rosetta with [bgc_score_cutoff = 0.5], and one hit, of [bgc1] and
    [spec1], whose genomic score is 0.4. *)
Definition rosetta_half : @RosettaScoring Q := mkRosettaScoring m2 true 0%Q (1 # 2)%Q.
Definition hit_04 : @RosettaHit Q := mkHit spec1 bgc1 (9 # 10) (2 # 5).

(** A universe of one GCF, two spectra and one strain, and a setup state
    whose cache was written for a universe with three spectra. *)
Definition small_npl : NPLinker :=
  mkNPLinker [] [gcfA] [spec1; spec2] [] [5] [spec1; spec2] [gcfA] []
             (fun _ => [5]) (fun o => o) (fun _ => []).
Definition stale_cache_state : @SetupState nat nat :=
  mkSetupState None None (Pickled [0; 1; 3; 0; 1] 10 20) [].

(** Metcalf with cutoff 1.0, and lookup tables in which the entry for one
    strain on each side is 1 (expected) and 2 (square root of the variance). *)
Definition metcalf_one : @MetcalfScoring Q := mkMetcalfScoring m1 (Some 1%Q) true.
Definition tables : @LinkFinder Q :=
  mkLinkFinder [[0%Q; 0%Q]; [0%Q; 1%Q]] [[1%Q; 1%Q]; [1%Q; 2%Q]] (fun _ _ => []).

(** The scenario of the intersection law: [A = {gcfA: {spec1, spec2}}] from
    method [m1], [B = {gcfA: {spec2, spec3}}] from method [m2], with their
    four links in the store. *)
Definition four_links : gmap loc (@ObjectLink Q) :=
  {[ 0 := mkObjectLink gcfA spec1 default_shared_strains {[ m1 := DFloat (1 # 2) ]};
     1 := mkObjectLink gcfA spec2 default_shared_strains {[ m1 := DFloat (1 # 3) ]};
     2 := mkObjectLink gcfA spec2 default_shared_strains {[ m2 := DFloat (1 # 4) ]};
     3 := mkObjectLink gcfA spec3 default_shared_strains {[ m2 := DFloat (1 # 5) ]} ]}.
Definition results_A : list (Obj * list (Obj * loc)) := [(gcfA, [(spec1, 0); (spec2, 1)])].
Definition results_B : list (Obj * list (Obj * loc)) := [(gcfA, [(spec2, 2); (spec3, 3)])].
Definition four_links_state (and_mode : bool) : @State Q :=
  mkState four_links 4 {[ default_shared_strains := [] ]} (LinkCollection_init and_mode).

(** A molecular family, and a universe in which [gcfA] holds [bgc1]. *)
Definition molfam1 : Obj := mkObj MolecularFamily 0.
Definition one_bgc_npl : NPLinker :=
  mkNPLinker [bgc1] [gcfA] [spec1] [] [] [spec1] [gcfA] []
             (fun _ => []) (fun _ => gcfA)
             (fun g => if bool_decide (g = gcfA) then [bgc1] else []).

(** A predicate on targets that accepts [spec2] only, and the states in
    which the collection holds the results of [m1] only: [results_A], or
    [results_A] and a second source. *)
Definition only_spec2 (x : Obj) : bool := bool_decide (x = spec2).
Definition results_A2 : list (Obj * list (Obj * loc)) :=
  [(gcfA, [(spec1, 0); (spec2, 1)]); (gcfB, [(spec3, 3)])].
Definition collection_state (d : list (Obj * list (Obj * loc))) : @State Q :=
  mkState four_links 4 {[ default_shared_strains := [] ]} (mkLinkCollection {[ m1 ]} d true).

(** A predicate on links that accepts the link at location 1 only. *)
Definition is_link_1 (l : loc) : @M Q bool := ret (bool_decide (l = 1)).

(** A link finder that reports both spectra linked to [gcfA], with the raw
    scores 5 and 7 (standardised: 2 and 3), and a test method built on
    [metcalf_one] whose random numbers are all 1/4. *)
Definition tables_with_links : @LinkFinder Q :=
  mkLinkFinder [[0%Q; 0%Q]; [0%Q; 1%Q]] [[1%Q; 1%Q]; [1%Q; 2%Q]]
               (fun _ _ => [[(0, 0, 5%Q); (1, 0, 7%Q)]]).
Definition m3 : Method := 3.
Definition test_half : @TestScoring Q := mkTestScoring m3 (1 # 2) metcalf_one.
Definition metcalf_run (and_mode : bool) : @result Q unit :=
  MetcalfScoring_get_links small_npl (Some tables_with_links) metcalf_one [spec1; spec2]
    (initial_state and_mode).
Definition test_run (and_mode : bool) : @result Q unit :=
  TestScoring_get_links small_npl (Some tables_with_links) (fun _ => (1 # 4)%Q) test_half
    [spec1; spec2] (initial_state and_mode).

(** A hit of [bgc1] and [spec1] that passes both cutoffs of [rosetta_half]. *)
Definition hit_06 : @RosettaHit Q := mkHit spec1 bgc1 (9 # 10) (3 # 5).

End Examples.

(** * Properties *)

(** ** ObjectLink *)

Section ObjectLinkFacts.
Context {F : Type} `{Float F}.
Local Abbreviation State := (@State F).
Local Abbreviation ObjectLink := (@ObjectLink F).

Lemma read_link_Some (s : State) (l : loc) (o : ObjectLink) :
  st_links s !! l = Some o -> read_link l s = Ok o s.
Proof. intros Hl. unfold read_link, bind, get_state, of_option. by rewrite Hl. Qed.

(** C8: for a method without an entry in the link's [_method_data],
    [data(method)] raises [KeyError], but the subscript [link[method]] does
    not: it falls through to [object.__getitem__], which does not exist, and
    raises [AttributeError].  Neither changes the state. *)
Theorem lookup_of_absent_method_fails (s : State) (l : loc) (o : ObjectLink) (m : Method) :
  st_links s !! l = Some o ->
  _method_data o !! m = None ->
  data l m s = Raise KeyError s /\ __getitem__ l m s = Raise AttributeError s.
Proof.
  intros Hl Hm. split.
  - unfold data, bind. rewrite (read_link_Some _ _ _ Hl). by rewrite Hm.
  - unfold __getitem__, bind. rewrite (read_link_Some _ _ _ Hl). by rewrite Hm.
Qed.
End ObjectLinkFacts.

Lemma lookup_of_absent_method_fails_witness :
  data 0 Examples.m2 Examples.one_link_state = Raise KeyError Examples.one_link_state
  /\ __getitem__ 0 Examples.m2 Examples.one_link_state
     = Raise AttributeError Examples.one_link_state.
Proof.
  apply (lookup_of_absent_method_fails Examples.one_link_state 0
           (mkObjectLink Examples.gcfA Examples.spec1 default_shared_strains
              {[ Examples.m1 := DFloat (1 # 2) ]}) Examples.m2).
  - reflexivity.
  - reflexivity.
Defined.

(** The failing input of C8: on a link that has a payload of [m1] only,
    [data(m2)] raises [KeyError] and the subscript with [m2] does not. *)
Lemma subscript_of_absent_method_not_KeyError :
  ~ (data 0 Examples.m2 Examples.one_link_state = Raise KeyError Examples.one_link_state
     /\ __getitem__ 0 Examples.m2 Examples.one_link_state
        = Raise KeyError Examples.one_link_state).
Proof. intros [_ Hg]. vm_compute in Hg. discriminate Hg. Qed.

(** C5 at the failing input: two links are built without a [shared_strains]
    argument; appending strain 7 to the list of the first makes the list of
    the second [[7]], not empty. *)
Theorem default_shared_strains_is_one_object :
  match Examples.two_links_append_read (initial_state true) with
  | Ok strains_of_second _ => strains_of_second = [7]
  | Raise _ _ => False
  end.
Proof. vm_compute. reflexivity. Qed.

(** ** Type homogeneity of the input sequence *)

Lemma uniformly_typed_mixed (objects : list Obj) (x y : Obj) :
  x ∈ objects -> y ∈ objects -> kind x ≠ kind y -> uniformly_typed objects = false.
Proof.
  intros Hx Hy Hxy. destruct objects as [|o0 rest]; [by apply elem_of_nil in Hx|].
  unfold uniformly_typed. apply not_true_is_false. intros Hall.
  rewrite forallb_forall in Hall.
  assert (Hk : forall z, z ∈ o0 :: rest -> kind z = kind o0).
  { intros z Hz. apply list_elem_of_In in Hz. specialize (Hall z Hz).
    unfold isinstance in Hall. by apply bool_decide_eq_true in Hall. }
  apply Hxy. by rewrite (Hk x Hx), (Hk y Hy).
Qed.

Section Homogeneity.
Context {F : Type} `{Float F}.
Local Abbreviation State := (@State F).

(** C6: on a sequence that holds objects of two different classes, both
    [MetcalfScoring.get_links] and [RosettaScoring.get_links] raise, and the
    state at the raise is the state of the call: store and collection (link
    data and method set) are untouched. *)
Theorem get_links_rejects_mixed_types (npl : NPLinker)
    (LINKFINDER : option (@LinkFinder F)) (rosetta_hits : option (list (@RosettaHit F)))
    (metcalf : @MetcalfScoring F) (rosetta : @RosettaScoring F)
    (objects : list Obj) (x y : Obj) (s : State) :
  x ∈ objects -> y ∈ objects -> kind x ≠ kind y ->
  (exists e, MetcalfScoring_get_links npl LINKFINDER metcalf objects s = Raise e s)
  /\ (exists e, RosettaScoring_get_links npl rosetta_hits rosetta objects s = Raise e s).
Proof.
  intros Hx Hy Hxy.
  pose proof (uniformly_typed_mixed objects x y Hx Hy Hxy) as Hu.
  split.
  - unfold MetcalfScoring_get_links. rewrite Hu. simpl. eexists. reflexivity.
  - unfold RosettaScoring_get_links. rewrite Hu. simpl. eexists. reflexivity.
Qed.
End Homogeneity.

Lemma get_links_rejects_mixed_types_witness :
  (exists e, MetcalfScoring_get_links (F:=Q)
               Examples.empty_npl
               None (mkMetcalfScoring Examples.m1 (Some 1%Q) true)
               [Examples.gcfA; Examples.spec1] (initial_state true)
             = Raise e (initial_state true))
  /\ (exists e, RosettaScoring_get_links (F:=Q)
               Examples.empty_npl
               None (mkRosettaScoring Examples.m2 true 0%Q 0%Q)
               [Examples.gcfA; Examples.spec1] (initial_state true)
             = Raise e (initial_state true)).
Proof.
  apply (get_links_rejects_mixed_types _ _ _ _ _ _ Examples.gcfA Examples.spec1).
  - apply list_elem_of_In. simpl. tauto.
  - apply list_elem_of_In. simpl. tauto.
  - discriminate.
Defined.

(** ** Loops that leave the state alone *)

Section LoopFacts.
Context {F : Type} `{Float F}.
Local Abbreviation State := (@State F).

Lemma bind_ret {A B} (a : A) (k : A -> @M F B) (s : State) :
  bind (ret a) k s = k a s.
Proof. reflexivity. Qed.

Lemma bind_Ok {A B} (m : @M F A) (k : A -> @M F B) (s s' : State) (a : A) :
  m s = Ok a s' -> bind m k s = k a s'.
Proof. intros Hm. unfold bind. by rewrite Hm. Qed.

Lemma bind_Raise {A B} (m : @M F A) (k : A -> @M F B) (s s' : State) (e : exn) :
  m s = Raise e s' -> bind m k s = Raise e s'.
Proof. intros Hm. unfold bind. by rewrite Hm. Qed.

Lemma mfold_unchanged {X A} (xs : list X) (acc : A) (body : A -> X -> @M F A) (s : State) :
  (forall x, x ∈ xs -> body acc x s = Ok acc s) ->
  mfold xs acc body s = Ok acc s.
Proof.
  induction xs as [|x xs IH]; intros Hb; [reflexivity|].
  simpl. unfold bind. rewrite (Hb x) by apply list_elem_of_here.
  apply IH. intros y Hy. apply Hb. by apply list_elem_of_further.
Qed.

Lemma mfor_nil_body {X} (xs : list X) (body : X -> @M F unit) (s : State) :
  (forall x, x ∈ xs -> body x s = Ok tt s) ->
  mfor xs body s = Ok tt s.
Proof.
  induction xs as [|x xs IH]; intros Hb; [reflexivity|].
  simpl. unfold bind. rewrite (Hb x) by apply list_elem_of_here.
  apply IH. intros y Hy. apply Hb. by apply list_elem_of_further.
Qed.
End LoopFacts.

(** ** RosettaScoring: the score cutoffs *)

Section RosettaCutoffs.
Context {F : Type} `{FloatOrder F}.
Local Abbreviation State := (@State F).

Lemma _include_hit_true (self : @RosettaScoring F) (hit : @RosettaHit F) :
  _include_hit self hit = true <->
  fge (spec_match_score hit) (spec_score_cutoff self) = true
  /\ fge (bgc_match_score hit) (bgc_score_cutoff self) = true.
Proof.
  unfold _include_hit. rewrite !fge_not_flt.
  destruct (flt (spec_match_score hit) (spec_score_cutoff self)),
           (flt (bgc_match_score hit) (bgc_score_cutoff self)); simpl; intuition congruence.
Qed.
End RosettaCutoffs.

(** ** MetcalfScoring.setup: the cache fingerprint *)

Section SetupFacts.
Context {DL LF : Type}.
Variable preprocess : NPLinker -> DL * LF.
Variable npl : NPLinker.

Lemma compare_counts_five (counts : list nat) :
  length counts = 5 ->
  compare_counts (seq 0 (length counts)) counts (dataset_counts_of npl)
  = Val (bool_decide (counts = dataset_counts_of npl)).
Proof.
  intros Hlen.
  destruct counts as [|c0 [|c1 [|c2 [|c3 [|c4 [|]]]]]]; simpl in Hlen; try discriminate.
  unfold dataset_counts_of. simpl.
  repeat (case_bool_decide; simpl; [by rewrite bool_decide_eq_false_2 by congruence|]).
  subst. by rewrite bool_decide_eq_true_2.
Qed.

(** C7: starting with [DATALINKS] unset, a cache holding five counts is
    reused exactly when the five counts equal those of the current
    universe; with different counts, without a cache file, or with a cache
    file that does not deserialize, the structures are recomputed and saved
    together with the current counts. *)
Theorem setup_reuses_cache_iff_counts_match (st : @SetupState DL LF) :
  DATALINKS st = None ->
  (forall counts datalinks linkfinder,
      cache_file st = Pickled counts datalinks linkfinder ->
      length counts = 5 ->
      (counts = dataset_counts_of npl ->
       MetcalfScoring_setup preprocess npl st
       = Val (mkSetupState (Some datalinks) (Some linkfinder) (cache_file st)
                           (events st ++ [EvLoad])))
      /\ (counts ≠ dataset_counts_of npl ->
          MetcalfScoring_setup preprocess npl st
          = Val (mkSetupState (Some (preprocess npl).1) (Some (preprocess npl).2)
                   (Pickled (dataset_counts_of npl) (preprocess npl).1 (preprocess npl).2)
                   (events st ++ [EvLoad; EvInvalidate; EvPreprocess; EvSave]))))
  /\ (cache_file st = NoFile ->
      MetcalfScoring_setup preprocess npl st
      = Val (mkSetupState (Some (preprocess npl).1) (Some (preprocess npl).2)
               (Pickled (dataset_counts_of npl) (preprocess npl).1 (preprocess npl).2)
               (events st ++ [EvPreprocess; EvSave])))
  /\ (cache_file st = Unreadable ->
      MetcalfScoring_setup preprocess npl st
      = Val (mkSetupState (Some (preprocess npl).1) (Some (preprocess npl).2)
               (Pickled (dataset_counts_of npl) (preprocess npl).1 (preprocess npl).2)
               (events st ++ [EvLoad; EvPreprocess; EvSave]))).
Proof.
  intros Hnone. split; [|split].
  - intros counts datalinks linkfinder Hfile Hlen. split.
    + intros Heq. unfold MetcalfScoring_setup. rewrite Hfile. simpl.
      rewrite (compare_counts_five _ Hlen). simpl.
      by rewrite bool_decide_eq_true_2.
    + intros Hne. unfold MetcalfScoring_setup. rewrite Hfile. simpl.
      rewrite (compare_counts_five _ Hlen). simpl.
      rewrite bool_decide_eq_false_2 by done. simpl. rewrite Hnone.
      destruct (preprocess npl) as [dl lf]. simpl. by rewrite <- !app_assoc.
  - intros Hf. unfold MetcalfScoring_setup. rewrite Hf. simpl. rewrite Hnone.
    by destruct (preprocess npl) as [dl lf].
  - intros Hf. unfold MetcalfScoring_setup. rewrite Hf. simpl.
    destruct (preprocess npl) as [dl lf]. simpl. by rewrite <- !app_assoc.
Qed.
End SetupFacts.

Lemma setup_reuses_cache_iff_counts_match_witness :
  MetcalfScoring_setup (fun _ => (11, 21)) Examples.small_npl Examples.stale_cache_state
  = Val (mkSetupState (Some 11) (Some 21) (Pickled [0; 1; 2; 0; 1] 11 21)
                      [EvLoad; EvInvalidate; EvPreprocess; EvSave]).
Proof.
  refine (proj2 (proj1 (setup_reuses_cache_iff_counts_match (fun _ => (11, 21))
            Examples.small_npl Examples.stale_cache_state _) [0; 1; 3; 0; 1] 10 20 _ _) _).
  - reflexivity.
  - reflexivity.
  - reflexivity.
  - discriminate.
Defined.

(** ** MetcalfScoring: standardised scores and the cutoff *)

Section Standardisation.
Context {F : Type} `{Float F}.
Variable npl : NPLinker.
Variable self : @MetcalfScoring F.
Variable linkfinder : @LinkFinder F.

Lemma passes_cutoff_retained (z : F) : passes_cutoff self z = true <-> retained self z.
Proof.
  unfold passes_cutoff, retained. destruct (cutoff self) as [c|].
  - split; [intros Hc; right; eauto|]. intros [Hn|(c' & Hc' & Hge)]; congruence.
  - split; [by left | done].
Qed.

Lemma index_Val {A} (l : list A) (i : nat) (a : A) : l !! i = Some a -> index l i = Val a.
Proof. intros Hl. unfold index. by rewrite Hl. Qed.

Lemma index_Val_inv {A} (l : list A) (i : nat) (a : A) : index l i = Val a -> l !! i = Some a.
Proof. unfold index. destruct (l !! i); congruence. Qed.

Lemma standardise_as (met_objs : list Obj) (met_id gcf_id : nat) (s z : F)
    (met_obj gcf : Obj) :
  met_objs !! met_id = Some met_obj ->
  gcfs npl !! gcf_id = Some gcf ->
  standardise linkfinder (length (obj_strains npl met_obj))
              (length (obj_strains npl gcf)) s = Val z
  <-> standardised_as npl linkfinder met_objs met_id gcf_id s z.
Proof.
  intros Hm Hg. unfold standardise, standardised_as, exc_bind. split.
  - destruct (index2 (metcalf_expected linkfinder) _ _) as [e|] eqn:He; [|discriminate].
    destruct (index2 (metcalf_variance_sqrt linkfinder) _ _) as [v|] eqn:Hv; [|discriminate].
    intros [= <-]. exists met_obj, gcf, e, v. by rewrite He, Hv.
  - intros (mo & g & e & v & Hm' & Hg' & He & Hv & ->).
    rewrite Hm in Hm'. rewrite Hg in Hg'. simplify_eq. by rewrite He, Hv.
Qed.

Lemma postprocess_met_loop_spec (met_objs : list Obj) (rows acc : @Triples F) :
  (forall src dst s, (src, dst, s) ∈ rows -> exists z, standardised_as npl linkfinder met_objs src dst s z) ->
  exists out,
    postprocess_met_loop npl self linkfinder met_objs rows acc = Val (acc ++ out)
    /\ forall src dst z,
         (src, dst, z) ∈ out <->
         exists s, (src, dst, s) ∈ rows /\ standardised_as npl linkfinder met_objs src dst s z /\ retained self z.
Proof.
  revert acc. induction rows as [|[[src0 dst0] s0] rows IH]; intros acc Hdef.
  - exists []. split; [by rewrite app_nil_r|].
    intros src dst z. split; [by intros ?%elem_of_nil|].
    by intros (s & ?%elem_of_nil & _).
  - destruct (Hdef src0 dst0 s0) as (z0 & Hz0); [apply list_elem_of_here|].
    pose proof Hz0 as (mo & g & e & v & Hm & Hg & He & Hv & Hz).
    assert (Hst : standardise linkfinder (length (obj_strains npl mo))
                    (length (obj_strains npl g)) s0 = Val z0)
      by (by apply (standardise_as met_objs src0 dst0)).
    assert (Hdef' : forall src dst s, (src, dst, s) ∈ rows ->
                      exists z, standardised_as npl linkfinder met_objs src dst s z)
      by (intros; apply Hdef; by apply list_elem_of_further).
    simpl. rewrite (index_Val _ _ _ Hm). simpl. rewrite (index_Val _ _ _ Hg). simpl.
    rewrite Hst. simpl.
    destruct (passes_cutoff self z0) eqn:Hpass.
    + destruct (IH (acc ++ [(src0, dst0, z0)]) Hdef') as (out & Hout & Hchar).
      exists ((src0, dst0, z0) :: out). split.
      { rewrite Hout. by rewrite <- app_assoc. }
      intros src dst z. rewrite elem_of_cons, Hchar. split.
      * intros [[= -> -> ->]|(s & Hin & Hs & Hr)].
        -- exists s0. split; [apply list_elem_of_here|]. split; [done|].
           by apply passes_cutoff_retained.
        -- exists s. split; [by apply list_elem_of_further|done].
      * intros (s & Hin & Hs & Hr). apply elem_of_cons in Hin as [[= -> -> ->]|Hin].
        -- left. f_equal.
           apply (standardise_as met_objs src0 dst0 s0 z mo g Hm Hg) in Hs. congruence.
        -- right. eauto.
    + destruct (IH acc Hdef') as (out & Hout & Hchar).
      exists out. split; [done|].
      intros src dst z. rewrite Hchar. split.
      * intros (s & Hin & Hs & Hr). exists s. split; [by apply list_elem_of_further|done].
      * intros (s & Hin & Hs & Hr). apply elem_of_cons in Hin as [[= -> -> ->]|Hin].
        -- apply (standardise_as met_objs src0 dst0 s0 z mo g Hm Hg) in Hs.
           apply passes_cutoff_retained in Hr. congruence.
        -- eauto.
Qed.
Lemma postprocess_gen_loop_spec (met_objs : list Obj) (rows acc : @Triples F) :
  (forall src dst s, (src, dst, s) ∈ rows -> exists z, standardised_as npl linkfinder met_objs dst src s z) ->
  exists out,
    postprocess_gen_loop npl self linkfinder met_objs rows acc = Val (acc ++ out)
    /\ forall src dst z,
         (src, dst, z) ∈ out <->
         exists s, (src, dst, s) ∈ rows /\ standardised_as npl linkfinder met_objs dst src s z /\ retained self z.
Proof.
  revert acc. induction rows as [|[[src0 dst0] s0] rows IH]; intros acc Hdef.
  - exists []. split; [by rewrite app_nil_r|].
    intros src dst z. split; [by intros ?%elem_of_nil|].
    by intros (s & ?%elem_of_nil & _).
  - destruct (Hdef src0 dst0 s0) as (z0 & Hz0); [apply list_elem_of_here|].
    pose proof Hz0 as (mo & g & e & v & Hm & Hg & He & Hv & Hz).
    assert (Hst : standardise linkfinder (length (obj_strains npl mo))
                    (length (obj_strains npl g)) s0 = Val z0)
      by (by apply (standardise_as met_objs dst0 src0)).
    assert (Hdef' : forall src dst s, (src, dst, s) ∈ rows ->
                      exists z, standardised_as npl linkfinder met_objs dst src s z)
      by (intros; apply Hdef; by apply list_elem_of_further).
    simpl. rewrite (index_Val _ _ _ Hg). simpl. rewrite (index_Val _ _ _ Hm). simpl.
    rewrite Hst. simpl.
    destruct (passes_cutoff self z0) eqn:Hpass.
    + destruct (IH (acc ++ [(src0, dst0, z0)]) Hdef') as (out & Hout & Hchar).
      exists ((src0, dst0, z0) :: out). split.
      { rewrite Hout. by rewrite <- app_assoc. }
      intros src dst z. rewrite elem_of_cons, Hchar. split.
      * intros [[= -> -> ->]|(s & Hin & Hs & Hr)].
        -- exists s0. split; [apply list_elem_of_here|]. split; [done|].
           by apply passes_cutoff_retained.
        -- exists s. split; [by apply list_elem_of_further|done].
      * intros (s & Hin & Hs & Hr). apply elem_of_cons in Hin as [[= -> -> ->]|Hin].
        -- left. f_equal.
           apply (standardise_as met_objs dst0 src0 s0 z mo g Hm Hg) in Hs. congruence.
        -- right. eauto.
    + destruct (IH acc Hdef') as (out & Hout & Hchar).
      exists out. split; [done|].
      intros src dst z. rewrite Hchar. split.
      * intros (s & Hin & Hs & Hr). exists s. split; [by apply list_elem_of_further|done].
      * intros (s & Hin & Hs & Hr). apply elem_of_cons in Hin as [[= -> -> ->]|Hin].
        -- apply (standardise_as met_objs dst0 src0 s0 z mo g Hm Hg) in Hs.
           apply passes_cutoff_retained in Hr. congruence.
        -- eauto.
Qed.

(** C4: with [standardised] set, both postprocessing paths give every raw
    score [s] the standardised score
    [z = (s - expected[m][g]) / variance_sqrt[m][g]], where [m] and [g] are
    the strain counts of the metabolomic and of the genomic object, and the
    output holds a pair exactly when [cutoff is None or z >= cutoff]. *)
Theorem metcalf_standardised_scores_and_cutoff (input_type : Kind)
    (rows_met rows_spec rows_fam : @Triples F) (more more' : list (@Triples F)) :
  let met_objs := if bool_decide (input_type = Spectrum) then spectra npl else molfams npl in
  (forall src dst s, (src, dst, s) ∈ rows_met ->
     exists z, standardised_as npl linkfinder met_objs src dst s z) ->
  (forall src dst s, (src, dst, s) ∈ rows_spec ->
     exists z, standardised_as npl linkfinder (spectra npl) dst src s z) ->
  (forall src dst s, (src, dst, s) ∈ rows_fam ->
     exists z, standardised_as npl linkfinder (molfams npl) dst src s z) ->
  (exists out,
     _metcalf_postprocess_met npl self linkfinder (rows_met :: more) input_type = Val [out]
     /\ forall src dst z,
          (src, dst, z) ∈ out <->
          exists s, (src, dst, s) ∈ rows_met
                    /\ standardised_as npl linkfinder met_objs src dst s z
                    /\ retained self z)
  /\ (exists out_spec out_fam,
       _metcalf_postprocess_gen npl self linkfinder (rows_spec :: rows_fam :: more') GCF
       = Val [out_spec; out_fam]
       /\ (forall src dst z,
            (src, dst, z) ∈ out_spec <->
            exists s, (src, dst, s) ∈ rows_spec
                      /\ standardised_as npl linkfinder (spectra npl) dst src s z
                      /\ retained self z)
       /\ (forall src dst z,
            (src, dst, z) ∈ out_fam <->
            exists s, (src, dst, s) ∈ rows_fam
                      /\ standardised_as npl linkfinder (molfams npl) dst src s z
                      /\ retained self z)).
Proof.
  intros met_objs Hmet Hspec Hfam. split.
  - destruct (postprocess_met_loop_spec met_objs rows_met [] Hmet) as (out & Hout & Hchar).
    exists out. split; [|exact Hchar].
    unfold _metcalf_postprocess_met. fold met_objs. simpl. by rewrite Hout.
  - destruct (postprocess_gen_loop_spec (spectra npl) rows_spec [] Hspec)
      as (out_spec & Hos & Hcs).
    destruct (postprocess_gen_loop_spec (molfams npl) rows_fam [] Hfam)
      as (out_fam & Hof & Hcf).
    exists out_spec, out_fam. split; [|by split].
    unfold _metcalf_postprocess_gen. simpl. rewrite Hos. simpl. by rewrite Hof.
Qed.
End Standardisation.

Lemma metcalf_standardised_scores_and_cutoff_witness :
  (exists out,
     _metcalf_postprocess_met Examples.small_npl Examples.metcalf_one Examples.tables
       [[(0, 0, 3%Q)]] Spectrum = Val [out]
     /\ forall src dst z,
          (src, dst, z) ∈ out <->
          exists s, (src, dst, s) ∈ [(0, 0, 3%Q)]
                    /\ standardised_as Examples.small_npl Examples.tables
                         (spectra Examples.small_npl) src dst s z
                    /\ retained Examples.metcalf_one z)
  /\ (exists out_spec out_fam,
       _metcalf_postprocess_gen Examples.small_npl Examples.metcalf_one Examples.tables
         [[(0, 1, 3%Q)]; []] GCF = Val [out_spec; out_fam]
       /\ (forall src dst z,
            (src, dst, z) ∈ out_spec <->
            exists s, (src, dst, s) ∈ [(0, 1, 3%Q)]
                      /\ standardised_as Examples.small_npl Examples.tables
                           (spectra Examples.small_npl) dst src s z
                      /\ retained Examples.metcalf_one z)
       /\ (forall src dst z,
            (src, dst, z) ∈ out_fam <->
            exists s, (src, dst, s) ∈ []
                      /\ standardised_as Examples.small_npl Examples.tables
                           (molfams Examples.small_npl) dst src s z
                      /\ retained Examples.metcalf_one z)).
Proof.
  apply (metcalf_standardised_scores_and_cutoff Examples.small_npl Examples.metcalf_one
           Examples.tables Spectrum [(0, 0, 3%Q)] [(0, 1, 3%Q)] [] [] []).
  - intros src dst s Hin. apply list_elem_of_In in Hin. simpl in Hin.
    destruct Hin as [[= <- <- <-]|[]].
    eexists. exists Examples.spec1, Examples.gcfA. do 2 eexists.
    repeat split; reflexivity.
  - intros src dst s Hin. apply list_elem_of_In in Hin. simpl in Hin.
    destruct Hin as [[= <- <- <-]|[]].
    eexists. exists Examples.spec2, Examples.gcfA. do 2 eexists.
    repeat split; reflexivity.
  - intros src dst s Hin. apply list_elem_of_In in Hin. simpl in Hin. destruct Hin.
Defined.

(** The boundary of the cutoff is inclusive: the raw score 3 standardises
    to [(3 - 1) / 2], which equals the cutoff 1 and is kept. *)
Example metcalf_boundary_score_is_kept :
  _metcalf_postprocess_met Examples.small_npl Examples.metcalf_one Examples.tables
    [[(0, 0, 3%Q)]] Spectrum = Val [[(0, 0, Qdiv (Qminus 3 1) 2)]].
Proof. reflexivity. Qed.

(** ** Facts about insertion-ordered dictionaries *)

Section odict_facts.
Context {K V : Type} `{EqDecision K}.
Implicit Types (d : list (K * V)) (k : K) (v : V).

Lemma od_get_None d k : od_get k d = None <-> k ∉ od_keys d.
Proof.
  unfold od_keys. induction d as [|[k' v'] d IH]; simpl.
  - split; [intros _; apply not_elem_of_nil | done].
  - rewrite not_elem_of_cons. destruct (decide (k = k')) as [->|Hne].
    + split; [discriminate | intros [? _]; done].
    + rewrite IH. tauto.
Qed.

Lemma od_get_is_Some d k : is_Some (od_get k d) <-> k ∈ od_keys d.
Proof.
  rewrite <- not_eq_None_Some, od_get_None.
  split; [apply dec_stable | tauto].
Qed.

Lemma od_mem_true d k : od_mem k d = true <-> k ∈ od_keys d.
Proof.
  rewrite <- od_get_is_Some. unfold od_mem. destruct (od_get k d).
  - split; eauto.
  - split; [discriminate | intros [? ?]; discriminate].
Qed.

Lemma od_mem_false d k : od_mem k d = false <-> k ∉ od_keys d.
Proof. rewrite <- od_mem_true. destruct (od_mem k d); split; congruence. Qed.

Lemma od_get_elem_of d k v : od_get k d = Some v -> (k, v) ∈ d.
Proof.
  induction d as [|[k' v'] d IH]; simpl; [discriminate|].
  destruct (decide (k = k')) as [->|Hne].
  - intros [= ->]. apply list_elem_of_here.
  - intros Hg. apply list_elem_of_further. auto.
Qed.

Lemma od_get_of_elem d k v : od_wf d -> (k, v) ∈ d -> od_get k d = Some v.
Proof.
  unfold od_wf, od_keys. induction d as [|[k' v'] d IH]; simpl.
  - intros _ Hin. by apply elem_of_nil in Hin.
  - intros Hnd Hin. apply NoDup_cons in Hnd as [Hnotin Hnd].
    apply elem_of_cons in Hin as [[= -> ->]|Hin].
    + by rewrite decide_True.
    + rewrite decide_False; [auto|].
      intros ->. apply Hnotin. apply list_elem_of_fmap. by exists (k', v).
Qed.

Lemma od_get_app_notin pre d k : k ∉ od_keys pre -> od_get k (pre ++ d) = od_get k d.
Proof.
  unfold od_keys. induction pre as [|[k' v'] pre IH]; simpl; [done|].
  rewrite not_elem_of_cons. intros [Hne Hnotin]. by rewrite decide_False; auto.
Qed.

Lemma od_set_app_notin pre post k v v0 :
  k ∉ od_keys pre -> od_set k v (pre ++ (k, v0) :: post) = pre ++ (k, v) :: post.
Proof.
  unfold od_keys. induction pre as [|[k' v'] pre IH]; simpl.
  - intros _. by rewrite decide_True.
  - rewrite not_elem_of_cons. intros [Hne Hnotin]. rewrite decide_False by done.
    by rewrite IH.
Qed.

Lemma od_del_app_notin pre post k v0 :
  k ∉ od_keys pre -> od_del k (pre ++ (k, v0) :: post) = pre ++ post.
Proof.
  unfold od_keys. induction pre as [|[k' v'] pre IH]; simpl.
  - intros _. by rewrite decide_True.
  - rewrite not_elem_of_cons. intros [Hne Hnotin]. rewrite decide_False by done.
    by rewrite IH.
Qed.

Lemma od_set_notin d k v : k ∉ od_keys d -> od_set k v d = d ++ [(k, v)].
Proof.
  unfold od_keys. induction d as [|[k' v'] d IH]; simpl; [done|].
  rewrite not_elem_of_cons. intros [Hne Hnotin]. rewrite decide_False by done.
  by rewrite IH.
Qed.

Lemma od_get_set d k k' v :
  od_get k' (od_set k v d) = if decide (k' = k) then Some v else od_get k' d.
Proof.
  induction d as [|[k0 v0] d IH]; simpl.
  - destruct (decide (k' = k)); [done|]. done.
  - destruct (decide (k = k0)) as [->|Hne]; simpl.
    + destruct (decide (k' = k0)); done.
    + destruct (decide (k' = k0)) as [->|Hne'].
      * by rewrite decide_False.
      * apply IH.
Qed.

Lemma od_keys_set d k v :
  od_keys (od_set k v d) = if bool_decide (k ∈ od_keys d) then od_keys d else od_keys d ++ [k].
Proof.
  unfold od_keys. induction d as [|[k0 v0] d IH]; cbn [od_set fmap list_fmap fst].
  - by rewrite bool_decide_eq_false_2 by apply not_elem_of_nil.
  - destruct (decide (k = k0)) as [->|Hne]; cbn [fmap list_fmap fst].
    + by rewrite bool_decide_eq_true_2 by apply list_elem_of_here.
    + rewrite IH. case_bool_decide as Hk.
      * by rewrite bool_decide_eq_true_2 by (by apply list_elem_of_further).
      * rewrite bool_decide_eq_false_2; [done|].
        rewrite not_elem_of_cons. done.
Qed.

Lemma od_get_filter_keys d k (p : K -> bool) :
  od_get k (od_filter_keys p d) = if p k then od_get k d else None.
Proof.
  unfold od_filter_keys. induction d as [|[k0 v0] d IH]; simpl.
  - by destruct (p k).
  - destruct (p k0) eqn:Hp0; simpl.
    + destruct (decide (k = k0)) as [->|Hne]; [by rewrite Hp0 | done].
    + rewrite IH. destruct (decide (k = k0)) as [->|Hne]; [by rewrite Hp0 | done].
Qed.

Lemma od_get_update d e k :
  od_wf e ->
  od_get k (od_update d e) = match od_get k e with Some v => Some v | None => od_get k d end.
Proof.
  unfold od_update, od_wf, od_keys. revert d.
  induction e as [|[k0 v0] e IH]; intros d Hnd; simpl; [done|].
  apply NoDup_cons in Hnd as [Hnotin Hnd]. rewrite IH by done.
  destruct (decide (k = k0)) as [->|Hne].
  - assert (Hn : od_get k0 e = None) by (by apply od_get_None).
    rewrite Hn. rewrite od_get_set. by rewrite decide_True.
  - destruct (od_get k e); [done|]. rewrite od_get_set. by rewrite decide_False.
Qed.
End odict_facts.

(** ** The store under merges *)

Section StoreFacts.
Context {F : Type} `{Float F}.
Local Abbreviation State := (@State F).
Local Abbreviation ObjectLink := (@ObjectLink F).
Implicit Types (h : gmap loc ObjectLink) (c : LinkCollection).

Lemma apply_merge_is_Some h pr l : is_Some (h !! l) -> is_Some (apply_merge h pr !! l).
Proof.
  intros Hl. unfold apply_merge.
  destruct (h !! pr.1) as [o|]; [|done]. destruct (h !! pr.2) as [p|]; [|done].
  rewrite lookup_insert. by case_decide.
Qed.

Lemma apply_merges_is_Some prs h l : is_Some (h !! l) -> is_Some (apply_merges prs h !! l).
Proof.
  unfold apply_merges. revert h. induction prs as [|pr prs IH]; intros h Hl; simpl; [done|].
  apply IH. by apply apply_merge_is_Some.
Qed.

Lemma apply_merges_app prs prs' h :
  apply_merges (prs ++ prs') h = apply_merges prs' (apply_merges prs h).
Proof. unfold apply_merges. by rewrite foldl_app. Qed.

Lemma _merge_run h n ls c (l lb : loc) :
  is_Some (h !! l) -> is_Some (h !! lb) ->
  _merge l lb (mkState h n ls c) = Ok l (mkState (apply_merge h (l, lb)) n ls c).
Proof.
  intros [o Ho] [p Hp]. unfold _merge.
  rewrite (bind_Ok _ _ _ _ o (read_link_Some (mkState h n ls c) l o Ho)).
  rewrite (bind_Ok _ _ _ _ p (read_link_Some (mkState h n ls c) lb p Hp)).
  unfold apply_merge. simpl. by rewrite Ho, Hp.
Qed.

Lemma get_item_run h n ls c (src : Obj) (cur : list (Obj * loc)) :
  od_get src (_link_data c) = Some cur ->
  get_item src (mkState h n ls c) = Ok cur (mkState h n ls c).
Proof. intros Hg. unfold get_item, bind, get_coll, get_state, ret. simpl. by rewrite Hg. Qed.

Lemma elem_of_values_of_get (cur : list (Obj * loc)) (tgt : Obj) (l : loc) :
  od_get tgt cur = Some l -> l ∈ cur.*2.
Proof.
  intros Hg. apply od_get_elem_of in Hg. apply list_elem_of_fmap. by exists (tgt, l).
Qed.

Lemma and_merge_targets_run (src : Obj) (cur ltm : list (Obj * loc)) h n ls c :
  od_get src (_link_data c) = Some cur ->
  (forall l, l ∈ cur.*2 -> is_Some (h !! l)) ->
  (forall l, l ∈ ltm.*2 -> is_Some (h !! l)) ->
  and_merge_targets src ltm (mkState h n ls c)
  = Ok tt (mkState (apply_merges (pairs_with cur ltm) h) n ls c).
Proof.
  intros Hsrc. unfold and_merge_targets. revert h.
  induction ltm as [|[tgt lb] ltm IH]; intros h Hcur Hltm; [reflexivity|].
  cbn [mfor].
  rewrite (bind_Ok _ _ _ (mkState (apply_merges (pairs_with cur [(tgt, lb)]) h) n ls c) tt).
  - rewrite IH.
    + unfold pairs_with. change ((tgt, lb) :: ltm) with ([(tgt, lb)] ++ ltm).
      by rewrite omap_app, apply_merges_app.
    + intros l Hl. apply apply_merges_is_Some. auto.
    + intros l Hl. apply apply_merges_is_Some. apply Hltm.
      cbn [fmap list_fmap]. by apply list_elem_of_further.
  - rewrite (bind_Ok _ _ _ _ cur (get_item_run h n ls c src cur Hsrc)).
    cbn [fst snd]. destruct (od_get tgt cur) as [l|] eqn:Hg.
    + rewrite (bind_Ok _ _ _ _ l (_merge_run h n ls c l lb
                 (Hcur l (elem_of_values_of_get _ _ _ Hg))
                 (Hltm lb ltac:(cbn [fmap list_fmap]; apply list_elem_of_here)))).
      unfold pairs_with, apply_merges. simpl. rewrite Hg. reflexivity.
    + unfold pairs_with, apply_merges. simpl. rewrite Hg. reflexivity.
Qed.
End StoreFacts.

(** ** The AND merge computes its description *)

Section AndMerge.
Context {F : Type} `{Float F}.
Local Abbreviation State := (@State F).
Local Abbreviation ObjectLink := (@ObjectLink F).
Implicit Types (h : gmap loc ObjectLink) (A B : list (Obj * list (Obj * loc))).

Lemma and_entry_fst B e : (and_entry B e).1 = e.1.
Proof. unfold and_entry. by destruct (od_get e.1 B). Qed.

Lemma od_keys_map_and_entry B A : od_keys (map (and_entry B) A) = od_keys A.
Proof.
  unfold od_keys. induction A as [|e A IH]; [done|].
  cbn [map fmap list_fmap]. rewrite and_entry_fst. f_equal. exact IH.
Qed.

Lemma elem_of_keys_inter {V W} (a : list (Obj * V)) (b : list (Obj * W)) (k : Obj) :
  k ∈ keys_inter a b <-> k ∈ od_keys a /\ k ∈ od_keys b.
Proof.
  unfold keys_inter. rewrite list_elem_of_In, filter_In, <- list_elem_of_In.
  by rewrite od_mem_true.
Qed.

Lemma and_targets_values (ex ltm : list (Obj * loc)) (l : loc) :
  l ∈ (and_targets ex ltm).*2 -> l ∈ ex.*2.
Proof.
  unfold and_targets, od_filter_keys. rewrite !list_elem_of_fmap.
  intros (x & -> & Hx). exists x. split; [done|].
  apply list_elem_of_In in Hx. apply filter_In in Hx as [Hx _]. by apply list_elem_of_In.
Qed.

Lemma link_locs_of_entry A (src : Obj) (ex : list (Obj * loc)) (l : loc) :
  (src, ex) ∈ A -> l ∈ ex.*2 -> l ∈ link_locs A.
Proof.
  intros He Hl. unfold link_locs. apply list_elem_of_In, in_concat.
  exists (ex.*2). split; [|by apply list_elem_of_In]. apply in_map_iff.
  exists (src, ex). split; [done|]. by apply list_elem_of_In.
Qed.

Lemma set_add_notin (x : Obj) (s : list Obj) : x ∉ s -> set_add x s = s ++ [x].
Proof. intros Hx. unfold set_add. by rewrite bool_decide_eq_false_2. Qed.

Lemma and_visit_run A B (pre post : list (Obj * list (Obj * loc))) (src : Obj)
    (ex : list (Obj * loc)) (to_remove : list Obj) h n ls ms am :
  A = pre ++ (src, ex) :: post ->
  od_wf A ->
  src ∉ to_remove ->
  (forall l, l ∈ link_locs A ++ link_locs B -> is_Some (h !! l)) ->
  and_visit (keys_inter A B) B to_remove (src, ex)
    (mkState h n ls (mkLinkCollection ms (map (and_entry B) pre ++ (src, ex) :: post) am))
  = Ok (if and_removed B (src, ex) then to_remove ++ [src] else to_remove)
       (mkState (apply_merges (and_pairs_of B (src, ex)) h) n ls
          (mkLinkCollection ms (map (and_entry B) (pre ++ [(src, ex)]) ++ post) am)).
Proof.
  intros HA Hwf Hrem Halloc.
  assert (Hpre : src ∉ od_keys (map (and_entry B) pre)).
  { rewrite od_keys_map_and_entry. unfold od_wf, od_keys in *. subst A.
    rewrite fmap_app in Hwf. apply NoDup_app in Hwf as (_ & Hdisj & _).
    intros Hin. apply (Hdisj src Hin). cbn [fmap list_fmap fst]. apply list_elem_of_here. }
  assert (HinA : src ∈ od_keys A).
  { subst A. unfold od_keys. rewrite fmap_app. apply elem_of_app. right.
    cbn [fmap list_fmap fst]. apply list_elem_of_here. }
  unfold and_visit, and_removed, and_pairs_of. cbn [fst snd].
  rewrite map_app. cbn [map].
  destruct (od_get src B) as [ltm|] eqn:HB.
  - assert (He : and_entry B (src, ex) = (src, and_targets ex ltm))
      by (unfold and_entry; cbn [fst snd]; by rewrite HB).
    rewrite He. clear He.
    rewrite bool_decide_eq_true_2.
    2:{ apply elem_of_keys_inter. split; [done|]. apply od_get_is_Some. by rewrite HB. }
    cbn [negb of_option]. rewrite bind_ret.
    fold (and_targets ex ltm).
    set (v := and_targets ex ltm).
    set (d' := map (and_entry B) pre ++ (src, v) :: post).
    assert (Hget : od_get src d' = Some v).
    { unfold d'. rewrite od_get_app_notin by done. cbn [od_get]. by rewrite decide_True. }
    rewrite (bind_Ok _ _ _ (mkState h n ls (mkLinkCollection ms d' am)) tt).
    2:{ unfold set_item, set_link_data, bind, get_coll, put_coll, get_state, put_state, ret.
        cbn. unfold d'. by rewrite od_set_app_notin. }
    rewrite (bind_Ok _ _ _ (mkState (apply_merges (pairs_with v ltm) h) n ls
                              (mkLinkCollection ms d' am)) tt).
    2:{ apply and_merge_targets_run; [exact Hget| |].
        - intros l Hl. apply Halloc, elem_of_app. left.
          apply (link_locs_of_entry A src ex); [|by apply (and_targets_values ex ltm)].
          subst A. apply elem_of_app. right. apply list_elem_of_here.
        - intros l Hl. apply Halloc, elem_of_app. right.
          apply (link_locs_of_entry B src ltm); [by apply od_get_elem_of | done]. }
    rewrite (bind_Ok _ _ _ _ v (get_item_run _ n ls (mkLinkCollection ms d' am) src v Hget)).
    unfold d'. rewrite <- app_assoc. cbn [app].
    destruct (bool_decide (length v = 0)); [|done].
    by rewrite set_add_notin.
  - assert (He : and_entry B (src, ex) = (src, ex))
      by (unfold and_entry; cbn [fst snd]; by rewrite HB).
    rewrite He. clear He.
    rewrite bool_decide_eq_false_2.
    2:{ rewrite elem_of_keys_inter. intros [_ Hb]. apply od_get_is_Some in Hb.
        rewrite HB in Hb. by destruct Hb. }
    cbn [negb]. rewrite set_add_notin by done. unfold ret, apply_merges. cbn [foldl].
    by rewrite <- app_assoc.
Qed.
End AndMerge.

Section AndMergeRun.
Context {F : Type} `{Float F}.
Local Abbreviation State := (@State F).
Local Abbreviation ObjectLink := (@ObjectLink F).
Implicit Types (h : gmap loc ObjectLink) (A B : list (Obj * list (Obj * loc))).

Lemma and_loop_run A B n ls ms am (post : list (Obj * list (Obj * loc))) :
  forall (pre : list (Obj * list (Obj * loc))) h (to_remove : list Obj),
  A = pre ++ post ->
  od_wf A ->
  (forall x, x ∈ to_remove -> x ∈ od_keys pre) ->
  (forall l, l ∈ link_locs A ++ link_locs B -> is_Some (h !! l)) ->
  mfold post to_remove (and_visit (keys_inter A B) B)
    (mkState h n ls (mkLinkCollection ms (map (and_entry B) pre ++ post) am))
  = Ok (to_remove ++ (List.filter (and_removed B) post).*1)
       (mkState (apply_merges (concat (map (and_pairs_of B) post)) h) n ls
          (mkLinkCollection ms (map (and_entry B) (pre ++ post)) am)).
Proof.
  induction post as [|[src ex] post IH]; intros pre h to_remove HA Hwf Hrem Halloc.
  - cbn. by rewrite !app_nil_r.
  - assert (Hsrc : src ∉ od_keys pre).
    { unfold od_wf, od_keys in *. subst A. rewrite fmap_app in Hwf.
      apply NoDup_app in Hwf as (_ & Hdisj & _). intros Hin. apply (Hdisj src Hin).
      cbn [fmap list_fmap fst]. apply list_elem_of_here. }
    cbn [mfold].
    rewrite (bind_Ok _ _ _ _ _
               (and_visit_run A B pre post src ex to_remove h n ls ms am HA Hwf
                  (fun Hin => Hsrc (Hrem src Hin)) Halloc)).
    assert (HA' : A = (pre ++ [(src, ex)]) ++ post) by (by rewrite <- app_assoc).
    rewrite IH; [| exact HA' | exact Hwf | |].
    + cbn [List.filter map concat]. rewrite apply_merges_app.
      rewrite <- app_assoc. cbn [app].
      destruct (and_removed B (src, ex)); [|done].
      cbn [fmap list_fmap fst]. by rewrite <- app_assoc.
    + intros x Hx. unfold od_keys. rewrite fmap_app. apply elem_of_app.
      destruct (and_removed B (src, ex)); [|left; by apply Hrem].
      apply elem_of_app in Hx as [Hx|Hx]; [left; by apply Hrem|].
      right. apply list_elem_of_singleton in Hx as ->. cbn. apply list_elem_of_here.
    + intros l Hl. apply apply_merges_is_Some. by apply Halloc.
Qed.

Lemma del_items_run B n ls ms am h A :
  forall pre' : list (Obj * list (Obj * loc)),
  NoDup (od_keys pre' ++ od_keys A) ->
  mfor (List.filter (and_removed B) A).*1 del_item
    (mkState h n ls (mkLinkCollection ms (pre' ++ map (and_entry B) A) am))
  = Ok tt (mkState h n ls
             (mkLinkCollection ms
                (pre' ++ map (and_entry B)
                           (List.filter (fun e => negb (and_removed B e)) A)) am)).
Proof.
  induction A as [|e A IH]; intros pre' Hnd; [reflexivity|].
  cbn [List.filter map]. unfold od_keys in Hnd. cbn [fmap list_fmap] in Hnd.
  destruct (and_removed B e) eqn:HR; cbn [negb fmap list_fmap mfor].
  - assert (Hnotin : e.1 ∉ od_keys pre').
    { apply NoDup_app in Hnd as (_ & Hdisj & _). intros Hin.
      apply (Hdisj _ Hin). apply list_elem_of_here. }
    rewrite (bind_Ok _ _ _ (mkState h n ls
               (mkLinkCollection ms (pre' ++ map (and_entry B) A) am)) tt).
    + apply IH. apply NoDup_app in Hnd as (Hp & Hdisj & Ha). apply NoDup_app.
      split; [done|]. split; [|by apply NoDup_cons in Ha as [_ Ha]].
      intros x Hx Hx'. apply (Hdisj x Hx). by apply list_elem_of_further.
    + unfold del_item, set_link_data, bind, get_coll, put_coll, get_state, put_state, ret.
      cbn. destruct (and_entry B e) as [k v0] eqn:He.
      assert (k = e.1) as -> by (by rewrite <- (and_entry_fst B e), He).
      assert (Hmem : od_mem e.1 (pre' ++ (e.1, v0) :: map (and_entry B) A) = true).
      { apply od_mem_true. unfold od_keys. rewrite fmap_app. apply elem_of_app. right.
        apply list_elem_of_here. }
      rewrite Hmem. by rewrite od_del_app_notin.
  - cbn [map]. rewrite !(cons_middle (and_entry B e) pre').
    rewrite !app_assoc. apply IH.
    unfold od_keys. rewrite fmap_app. cbn [fmap list_fmap]. rewrite and_entry_fst.
    rewrite <- app_assoc. exact Hnd.
Qed.

(** [_merge_and_mode] returns, and its effect on the link data and on the
    store is the described one. *)
Lemma _merge_and_mode_run A B h n ls ms am :
  od_wf A ->
  (forall l, l ∈ link_locs A ++ link_locs B -> is_Some (h !! l)) ->
  _merge_and_mode B (mkState h n ls (mkLinkCollection ms A am))
  = Ok tt (mkState (apply_merges (and_pairs A B) h) n ls
             (mkLinkCollection ms (and_link_data A B) am)).
Proof.
  intros Hwf Halloc. unfold _merge_and_mode.
  rewrite (bind_Ok get_coll _ (mkState h n ls (mkLinkCollection ms A am)) _
             (mkLinkCollection ms A am) eq_refl). cbn [_link_data].
  pose proof (and_loop_run A B n ls ms am A [] h [] eq_refl Hwf
                ltac:(by intros x ?%elem_of_nil) Halloc) as Hloop.
  cbn [map app] in Hloop. rewrite (bind_Ok _ _ _ _ _ Hloop).
  apply (del_items_run B n ls ms am _ A []). exact Hwf.
Qed.
End AndMergeRun.

(** ** What the AND description says *)

Section AndDescription.
Implicit Types (A B : list (Obj * list (Obj * loc))) (ex ltm : list (Obj * loc)).

Lemma od_get_and_targets ex ltm (tgt : Obj) (l : loc) :
  od_get tgt (and_targets ex ltm) = Some l
  <-> od_get tgt ex = Some l /\ is_Some (od_get tgt ltm).
Proof.
  unfold and_targets. rewrite od_get_filter_keys. case_bool_decide as Hin.
  - apply elem_of_keys_inter in Hin as [_ Hb]. apply od_get_is_Some in Hb. tauto.
  - split; [discriminate|]. intros [Hg Hb]. exfalso. apply Hin.
    apply elem_of_keys_inter. split; apply od_get_is_Some; [by rewrite Hg | done].
Qed.

Lemma od_get_and_link_data A B (src : Obj) :
  od_wf A ->
  od_get src (and_link_data A B)
  = match od_get src A, od_get src B with
    | Some ex, Some ltm =>
        if bool_decide (length (and_targets ex ltm) = 0) then None
        else Some (and_targets ex ltm)
    | _, _ => None
    end.
Proof.
  unfold and_link_data, od_wf, od_keys. induction A as [|[k ex] A IH]; intros Hwf; [done|].
  cbn [fmap list_fmap fst] in Hwf. apply NoDup_cons in Hwf as [Hk Hwf].
  cbn [List.filter od_get]. destruct (decide (src = k)) as [->|Hne].
  - assert (Hnone : od_get k A = None) by (by apply od_get_None).
    destruct (od_get k B) as [ltm|] eqn:HB.
    + assert (HR : and_removed B (k, ex) = bool_decide (length (and_targets ex ltm) = 0))
        by (unfold and_removed; cbn [fst snd]; by rewrite HB).
      assert (HE : and_entry B (k, ex) = (k, and_targets ex ltm))
        by (unfold and_entry; cbn [fst snd]; by rewrite HB).
      rewrite HR. destruct (bool_decide (length (and_targets ex ltm) = 0)); cbn [negb map].
      * rewrite IH by done. by rewrite Hnone.
      * rewrite HE. cbn [od_get]. by rewrite decide_True.
    + assert (HR : and_removed B (k, ex) = true)
        by (unfold and_removed; cbn [fst snd]; by rewrite HB).
      rewrite HR. cbn [negb]. rewrite IH by done. by rewrite Hnone.
  - destruct (negb (and_removed B (k, ex))); cbn [map]; [|by apply IH].
    pose proof (and_entry_fst B (k, ex)) as Hfst.
    destruct (and_entry B (k, ex)) as [k' v]. cbn in Hfst. subst k'.
    cbn [od_get]. rewrite decide_False by done. by apply IH.
Qed.

(** The surviving pairs: those of [A] whose source and target are in [B]. *)
Lemma link_at_and_link_data A B (src tgt : Obj) (l : loc) :
  od_wf A ->
  link_at (and_link_data A B) src tgt = Some l
  <-> link_at A src tgt = Some l /\ is_Some (link_at B src tgt).
Proof.
  intros Hwf. unfold link_at. rewrite od_get_and_link_data by done.
  destruct (od_get src A) as [ex|]; [|by split; [|intros [? _]]].
  destruct (od_get src B) as [ltm|].
  2:{ split; [done|]. intros [_ [? ?]]. discriminate. }
  case_bool_decide as Hlen.
  - split; [done|]. intros Hg. apply od_get_and_targets in Hg.
    destruct (and_targets ex ltm); [discriminate | discriminate Hlen].
  - apply od_get_and_targets.
Qed.

(** No source is left with an empty target dictionary. *)
Lemma and_link_data_nonempty A B (src : Obj) (ts : list (Obj * loc)) :
  od_wf A -> od_get src (and_link_data A B) = Some ts -> ts ≠ [].
Proof.
  intros Hwf. rewrite od_get_and_link_data by done.
  destruct (od_get src A) as [ex|]; [|done]. destruct (od_get src B) as [ltm|]; [|done].
  case_bool_decide as Hlen; [done|]. intros [= <-] Hnil. apply Hlen. by rewrite Hnil.
Qed.

(** The sources that survive: those with a target in both mappings. *)
Lemma sources_and_link_data A B (src : Obj) :
  od_wf A ->
  src ∈ od_keys (and_link_data A B)
  <-> exists tgt, is_Some (link_at A src tgt) /\ is_Some (link_at B src tgt).
Proof.
  intros Hwf. rewrite <- od_get_is_Some. split.
  - intros [ts Hts]. pose proof (and_link_data_nonempty A B src ts Hwf Hts) as Hne.
    destruct ts as [|[tgt l] ts]; [done|]. exists tgt.
    assert (Hl : link_at (and_link_data A B) src tgt = Some l).
    { unfold link_at. rewrite Hts. cbn [od_get]. by rewrite decide_True. }
    apply link_at_and_link_data in Hl as [Ha Hb]; [|done]. split; [by rewrite Ha | done].
  - intros (tgt & [l Ha] & Hb).
    assert (Hl : link_at (and_link_data A B) src tgt = Some l)
      by (by apply link_at_and_link_data).
    unfold link_at in Hl. destruct (od_get src (and_link_data A B)); [eauto | discriminate].
Qed.
End AndDescription.

(** ** Merges of links that are not aliased *)

Section MergesNoAlias.
Context {F : Type} `{Float F}.
Local Abbreviation ObjectLink := (@ObjectLink F).
Implicit Types (h : gmap loc ObjectLink) (prs : list (loc * loc)).
Implicit Types (A B : list (Obj * list (Obj * loc))) (cur ltm : list (Obj * loc)).

Lemma apply_merge_lookup_ne h (pr : loc * loc) (l : loc) :
  l ≠ pr.1 -> apply_merge h pr !! l = h !! l.
Proof.
  intros Hne. unfold apply_merge.
  destruct (h !! pr.1); [|done]. destruct (h !! pr.2); [|done].
  by rewrite lookup_insert_ne.
Qed.

Lemma apply_merges_lookup_notin prs h (l : loc) :
  l ∉ prs.*1 -> apply_merges prs h !! l = h !! l.
Proof.
  unfold apply_merges. revert h. induction prs as [|pr prs IH]; intros h Hl; [done|].
  cbn [fmap list_fmap] in Hl. apply not_elem_of_cons in Hl as [Hne Hl].
  cbn [foldl]. rewrite IH by done. by apply apply_merge_lookup_ne.
Qed.

Lemma apply_merges_lookup_in prs h (l lb : loc) (o p : ObjectLink) :
  NoDup prs.*1 ->
  (forall x, x ∈ prs.*2 -> x ∉ prs.*1) ->
  (l, lb) ∈ prs ->
  h !! l = Some o -> h !! lb = Some p ->
  apply_merges prs h !! l = Some (merged o p).
Proof.
  revert h. induction prs as [|[a b] prs IH]; intros h Hnd Hsep Hin Ho Hp.
  - by apply elem_of_nil in Hin.
  - cbn [fmap list_fmap fst snd] in Hnd, Hsep. apply NoDup_cons in Hnd as [Ha Hnd].
    unfold apply_merges. cbn [foldl]. fold (apply_merges prs (apply_merge h (a, b))).
    apply elem_of_cons in Hin as [[= -> ->]|Hin].
    + rewrite apply_merges_lookup_notin by done.
      unfold apply_merge. cbn [fst snd]. rewrite Ho, Hp. apply lookup_insert_eq.
    + assert (Hl : l ∈ prs.*1) by (apply list_elem_of_fmap; by exists (l, lb)).
      assert (Hlb : lb ∈ prs.*2) by (apply list_elem_of_fmap; by exists (l, lb)).
      apply IH; [done| |done| |].
      * intros x Hx Hx'. apply (Hsep x); [by apply list_elem_of_further|].
        by apply list_elem_of_further.
      * rewrite apply_merge_lookup_ne; [done|]. cbn [fst]. by intros ->.
      * rewrite apply_merge_lookup_ne; [done|]. cbn [fst]. intros ->.
        apply (Hsep a); [by apply list_elem_of_further | apply list_elem_of_here].
Qed.

Lemma elem_of_pairs_with cur ltm (l lb : loc) :
  (l, lb) ∈ pairs_with cur ltm <-> exists tgt, (tgt, lb) ∈ ltm /\ od_get tgt cur = Some l.
Proof.
  unfold pairs_with. rewrite list_elem_of_omap. split.
  - intros ([tgt lb'] & Hin & Hf). cbn [fst snd] in Hf.
    destruct (od_get tgt cur) as [l'|] eqn:Hg; [|discriminate].
    cbn in Hf. injection Hf as <- <-. eauto.
  - intros (tgt & Hin & Hg). exists (tgt, lb). split; [done|]. cbn [fst snd]. by rewrite Hg.
Qed.

Lemma od_get_inj_values cur (k k' : Obj) (l : loc) :
  NoDup cur.*2 -> od_get k cur = Some l -> od_get k' cur = Some l -> k = k'.
Proof.
  induction cur as [|[k0 l0] cur IH]; cbn [od_get fmap list_fmap snd]; [discriminate|].
  intros Hnd Hk Hk'. apply NoDup_cons in Hnd as [Hl0 Hnd].
  destruct (decide (k = k0)) as [->|Hne], (decide (k' = k0)) as [->|Hne']; [done| | |by apply IH].
  - injection Hk as <-. exfalso. apply Hl0. by apply (elem_of_values_of_get cur k').
  - injection Hk' as <-. exfalso. apply Hl0. by apply (elem_of_values_of_get cur k).
Qed.

Lemma NoDup_pairs_with cur ltm :
  od_wf ltm -> NoDup cur.*2 -> NoDup (pairs_with cur ltm).*1.
Proof.
  unfold od_wf, od_keys. intros Hwf Hcur.
  induction ltm as [|[tgt lb] ltm IH]; [constructor|].
  cbn [fmap list_fmap fst] in Hwf. apply NoDup_cons in Hwf as [Htgt Hwf].
  unfold pairs_with. cbn [omap list_omap fst snd].
  destruct (od_get tgt cur) as [l|] eqn:Hg; cbn [fmap option_fmap option_map]; [|by apply IH].
  cbn [fmap list_fmap fst]. apply NoDup_cons. split; [|by apply IH].
  intros Hin. apply list_elem_of_fmap in Hin as ([l' lb'] & Heq & Hin). cbn in Heq. subst l'.
  apply elem_of_pairs_with in Hin as (tgt' & Hin' & Hg').
  assert (tgt = tgt') by (by apply (od_get_inj_values cur tgt tgt' l)). subst tgt'.
  apply Htgt. apply list_elem_of_fmap. by exists (tgt, lb').
Qed.

Lemma NoDup_filter_values (p : Obj * loc -> bool) cur :
  NoDup cur.*2 -> NoDup (List.filter p cur).*2.
Proof.
  induction cur as [|[k l] cur IH]; [constructor|].
  cbn [fmap list_fmap snd]. intros [Hl Hnd]%NoDup_cons.
  cbn [List.filter]. destruct (p (k, l)); [|by apply IH].
  cbn [fmap list_fmap snd]. apply NoDup_cons. split; [|by apply IH].
  intros Hin. apply Hl. apply list_elem_of_fmap in Hin as (x & -> & Hx).
  apply list_elem_of_fmap. exists x. split; [done|].
  apply list_elem_of_In in Hx. apply filter_In in Hx as [Hx _]. by apply list_elem_of_In.
Qed.

Lemma and_pairs_of_locs B (e : Obj * list (Obj * loc)) (pr : loc * loc) :
  pr ∈ and_pairs_of B e -> pr.1 ∈ e.2.*2 /\ pr.2 ∈ link_locs B.
Proof.
  unfold and_pairs_of. destruct (od_get e.1 B) as [ltm|] eqn:HB; [|by intros ?%elem_of_nil].
  destruct pr as [l lb]. intros (tgt & Hin & Hg)%elem_of_pairs_with. cbn [fst snd]. split.
  - apply od_get_and_targets in Hg as [Hg _]. by apply (elem_of_values_of_get _ tgt).
  - apply (link_locs_of_entry B e.1 ltm); [by apply od_get_elem_of|].
    apply list_elem_of_fmap. by exists (tgt, lb).
Qed.

Lemma and_pairs_locs A B (pr : loc * loc) :
  pr ∈ and_pairs A B -> pr.1 ∈ link_locs A /\ pr.2 ∈ link_locs B.
Proof.
  unfold and_pairs. intros Hin. apply list_elem_of_In, in_concat in Hin as (prs & Hprs & Hin).
  apply in_map_iff in Hprs as ([src ex] & <- & He).
  apply list_elem_of_In, and_pairs_of_locs in Hin as [H1 H2]. split; [|done].
  apply (link_locs_of_entry A src ex); [by apply list_elem_of_In | done].
Qed.

Lemma NoDup_and_pairs A B :
  (forall src ltm, (src, ltm) ∈ B -> od_wf ltm) ->
  NoDup (link_locs A) -> NoDup (and_pairs A B).*1.
Proof.
  intros HwfB. unfold and_pairs, link_locs.
  induction A as [|[src ex] A IH]; intros Hnd; [constructor|].
  cbn [map concat fst snd] in *. rewrite fmap_app.
  apply NoDup_app in Hnd as (Hex & Hdisj & HA). apply NoDup_app. split; [|split].
  - unfold and_pairs_of. cbn [fst snd]. destruct (od_get src B) as [ltm|] eqn:HB; [|constructor].
    apply NoDup_pairs_with; [by apply (HwfB src), od_get_elem_of|].
    unfold and_targets, od_filter_keys. by apply NoDup_filter_values.
  - intros x Hx Hx'. apply list_elem_of_fmap in Hx as (pr & -> & Hpr).
    apply (and_pairs_of_locs B (src, ex)) in Hpr as [Hpr _]. apply (Hdisj _ Hpr).
    apply list_elem_of_fmap in Hx' as (pr' & Heq & Hpr').
    apply (and_pairs_locs A B) in Hpr' as [Hpr' _]. by rewrite Heq.
  - by apply IH.
Qed.

Lemma elem_of_and_pairs A B (src tgt : Obj) (l lb : loc) :
  (forall src ltm, (src, ltm) ∈ B -> od_wf ltm) ->
  link_at A src tgt = Some l -> link_at B src tgt = Some lb -> (l, lb) ∈ and_pairs A B.
Proof.
  intros HwfB. unfold link_at, and_pairs.
  destruct (od_get src A) as [ex|] eqn:HA; [|discriminate].
  destruct (od_get src B) as [ltm|] eqn:HB; [|discriminate].
  intros Hl Hlb. apply list_elem_of_In, in_concat. exists (and_pairs_of B (src, ex)). split.
  - apply in_map_iff. exists (src, ex). split; [done|]. by apply list_elem_of_In, od_get_elem_of.
  - apply list_elem_of_In. unfold and_pairs_of. cbn [fst snd]. rewrite HB.
    apply elem_of_pairs_with. exists tgt. split; [by apply od_get_elem_of|].
    apply od_get_and_targets. split; [done|]. by rewrite Hlb.
Qed.
End MergesNoAlias.

(** ** add_from_method *)

Section AddFromMethod.
Context {F : Type} `{Float F}.
Local Abbreviation State := (@State F).
Local Abbreviation ObjectLink := (@ObjectLink F).
Implicit Types (h : gmap loc ObjectLink) (A B : list (Obj * list (Obj * loc))).

(** The first contribution is stored as it is. *)
Lemma add_first_run (m : Method) A h n ls (d : list (Obj * list (Obj * loc))) am :
  _add_links_from_method m A (mkState h n ls (mkLinkCollection ∅ d am))
  = Ok tt (mkState h n ls (mkLinkCollection ({[m]} ∪ ∅) A am)).
Proof.
  unfold _add_links_from_method, bind, get_coll, get_state, ret. cbn.
  rewrite bool_decide_eq_false_2 by apply not_elem_of_empty.
  by rewrite bool_decide_eq_true_2 by apply size_empty.
Qed.

(** A later contribution to an AND-mode collection. *)
Lemma add_and_run (m : Method) A B h n ls (ms : gset Method) :
  m ∉ ms -> ms ≠ ∅ ->
  od_wf A ->
  (forall l, l ∈ link_locs A ++ link_locs B -> is_Some (h !! l)) ->
  _add_links_from_method m B (mkState h n ls (mkLinkCollection ms A true))
  = Ok tt (mkState (apply_merges (and_pairs A B) h) n ls
             (mkLinkCollection ({[m]} ∪ ms) (and_link_data A B) true)).
Proof.
  intros Hm Hms Hwf Halloc. unfold _add_links_from_method.
  rewrite (bind_Ok get_coll _ (mkState h n ls (mkLinkCollection ms A true)) _
             (mkLinkCollection ms A true) eq_refl).
  cbn [_methods _and_mode negb]. rewrite bool_decide_eq_false_2 by done.
  rewrite bool_decide_eq_false_2
    by (intros Hsz; apply size_empty_inv in Hsz; apply Hms; by apply leibniz_equiv).
  by rewrite (bind_Ok _ _ _ _ tt (_merge_and_mode_run A B h n ls ms true Hwf Halloc)).
Qed.

(** C1: in AND mode, after [A] has been stored and [B] added, the link data
    holds exactly the sources with a target in both mappings, and for each
    such source exactly the targets present in both; no source is left with
    an empty target dictionary; and the link stored for a surviving pair is
    the link of [A], merged with the link of [B]. *)
Theorem and_mode_keeps_common_pairs A B (mA mB : Method) h n ls :
  mA ≠ mB ->
  od_wf A ->
  (forall src ltm, (src, ltm) ∈ B -> od_wf ltm) ->
  NoDup (link_locs A ++ link_locs B) ->
  (forall l, l ∈ link_locs A ++ link_locs B -> is_Some (h !! l)) ->
  exists s',
    (let* _ := _add_links_from_method mA A in _add_links_from_method mB B)
      (mkState h n ls (LinkCollection_init true)) = Ok tt s'
    /\ methods (st_coll s') = {[mA; mB]}
    /\ (forall src, src ∈ sources (st_coll s') <->
                    exists tgt, is_Some (link_at A src tgt) /\ is_Some (link_at B src tgt))
    /\ (forall src tgt l, link_at (links (st_coll s')) src tgt = Some l <->
                          link_at A src tgt = Some l /\ is_Some (link_at B src tgt))
    /\ (forall src ts, od_get src (links (st_coll s')) = Some ts -> ts ≠ [])
    /\ (forall src tgt l lb o p,
          link_at A src tgt = Some l -> link_at B src tgt = Some lb ->
          h !! l = Some o -> h !! lb = Some p ->
          st_links s' !! l = Some (merged o p)).
Proof.
  intros Hne HwfA HwfB Hnd Halloc. eexists. split.
  { unfold LinkCollection_init. rewrite (bind_Ok _ _ _ _ tt (add_first_run mA A h n ls [] true)).
    apply add_and_run; [set_solver | set_solver | done | done]. }
  cbn [st_coll st_links]. unfold methods, sources, links. cbn [_methods _link_data].
  split; [set_solver|]. split; [intros src; by apply sources_and_link_data|].
  split; [intros src tgt l; by apply link_at_and_link_data|].
  split; [intros src ts; by apply and_link_data_nonempty|].
  intros src tgt l lb o p Hl Hlb Ho Hp.
  apply NoDup_app in Hnd as (HndA & Hdisj & _).
  apply (apply_merges_lookup_in _ h l lb o p); [by apply NoDup_and_pairs | | | done | done].
  - intros x Hx Hx'. apply list_elem_of_fmap in Hx as (pr & -> & Hpr).
    apply list_elem_of_fmap in Hx' as (pr' & Heq & Hpr').
    apply and_pairs_locs in Hpr as [_ Hpr]. apply and_pairs_locs in Hpr' as [Hpr' _].
    apply (Hdisj pr'.1 Hpr'). by rewrite <- Heq.
  - by apply (elem_of_and_pairs A B src tgt).
Qed.
End AddFromMethod.

Lemma four_links_allocated (l : loc) :
  l ∈ link_locs Examples.results_A ++ link_locs Examples.results_B ->
  is_Some (Examples.four_links !! l).
Proof.
  intros Hl. apply list_elem_of_In in Hl. cbn in Hl.
  destruct Hl as [<-|[<-|[<-|[<-|[]]]]]; vm_compute; eauto.
Qed.

Lemma and_mode_keeps_common_pairs_witness :
  exists s',
    (let* _ := _add_links_from_method Examples.m1 Examples.results_A in
     _add_links_from_method Examples.m2 Examples.results_B)
      (Examples.four_links_state true) = Ok tt s'
    /\ methods (st_coll s') = {[Examples.m1; Examples.m2]}
    /\ (forall src, src ∈ sources (st_coll s') <->
                    exists tgt, is_Some (link_at Examples.results_A src tgt)
                                /\ is_Some (link_at Examples.results_B src tgt))
    /\ (forall src tgt l, link_at (links (st_coll s')) src tgt = Some l <->
                          link_at Examples.results_A src tgt = Some l
                          /\ is_Some (link_at Examples.results_B src tgt))
    /\ (forall src ts, od_get src (links (st_coll s')) = Some ts -> ts ≠ [])
    /\ (forall src tgt l lb o p,
          link_at Examples.results_A src tgt = Some l ->
          link_at Examples.results_B src tgt = Some lb ->
          Examples.four_links !! l = Some o -> Examples.four_links !! lb = Some p ->
          st_links s' !! l = Some (merged o p)).
Proof.
  apply (and_mode_keeps_common_pairs Examples.results_A Examples.results_B
           Examples.m1 Examples.m2 Examples.four_links 4 {[ default_shared_strains := [] ]}).
  - discriminate.
  - unfold od_wf, od_keys. apply (bool_decide_unpack _). vm_compute. exact I.
  - intros src ltm Hin. apply list_elem_of_In in Hin. cbn in Hin.
    destruct Hin as [[= <- <-]|[]]. unfold od_wf, od_keys. apply (bool_decide_unpack _). vm_compute. exact I.
  - unfold od_wf, od_keys. apply (bool_decide_unpack _). vm_compute. exact I.
  - exact four_links_allocated.
Defined.

(** The scenario itself: [A = {gcfA: {spec1, spec2}}] and
    [B = {gcfA: {spec2, spec3}}] give [{gcfA: {spec2}}], whose link is the one
    of [A] and holds the payloads of both methods. *)
Example and_mode_scenario :
  match (let* _ := _add_links_from_method Examples.m1 Examples.results_A in
         _add_links_from_method Examples.m2 Examples.results_B)
          (Examples.four_links_state true) with
  | Ok _ s' =>
      links (st_coll s') = [(Examples.gcfA, [(Examples.spec2, 1)])]
      /\ (_method_data <$> st_links s' !! 1)
         = Some {[ Examples.m1 := DFloat (1 # 3); Examples.m2 := DFloat (1 # 4) ]}
  | Raise _ _ => False
  end.
Proof. vm_compute. split; reflexivity. Qed.

(** ** Merges only add payload keys *)

Section MergesGrow.
Context {F : Type} `{Float F}.
Local Abbreviation ObjectLink := (@ObjectLink F).
Implicit Types (h : gmap loc ObjectLink) (prs : list (loc * loc)).
Implicit Types (A B : list (Obj * list (Obj * loc))).

Lemma apply_merge_grows h (pr : loc * loc) (l : loc) (o : ObjectLink) :
  h !! l = Some o ->
  exists o', apply_merge h pr !! l = Some o'
             /\ dom (_method_data o) ⊆ dom (_method_data o').
Proof.
  intros Ho. unfold apply_merge.
  destruct (h !! pr.1) as [a|] eqn:Ha; [|by exists o].
  destruct (h !! pr.2) as [b|] eqn:Hb; [|by exists o].
  destruct (decide (pr.1 = l)) as [Heq|Hne].
  - rewrite Heq in *. rewrite lookup_insert_eq. eexists. split; [done|].
    assert (a = o) by congruence. subst a. unfold merged. cbn [_method_data].
    rewrite dom_union_L. set_solver.
  - rewrite lookup_insert_ne by done. by exists o.
Qed.

Lemma apply_merges_grows prs h (l : loc) (o : ObjectLink) :
  h !! l = Some o ->
  exists o', apply_merges prs h !! l = Some o'
             /\ dom (_method_data o) ⊆ dom (_method_data o').
Proof.
  unfold apply_merges. revert h o.
  induction prs as [|pr prs IH]; intros h o Ho; [by exists o|].
  cbn [foldl]. destruct (apply_merge_grows h pr l o Ho) as (o1 & Ho1 & Hsub).
  destruct (IH _ _ Ho1) as (o' & Ho' & Hsub'). exists o'. split; [done|]. set_solver.
Qed.

Lemma apply_merges_joins prs h (l lb : loc) (o p : ObjectLink) :
  (l, lb) ∈ prs ->
  h !! l = Some o -> h !! lb = Some p ->
  exists o', apply_merges prs h !! l = Some o'
             /\ dom (_method_data o) ∪ dom (_method_data p) ⊆ dom (_method_data o').
Proof.
  revert h o p. induction prs as [|[a b] prs IH]; intros h o p Hin Ho Hp.
  - by apply elem_of_nil in Hin.
  - unfold apply_merges. cbn [foldl]. fold (apply_merges prs (apply_merge h (a, b))).
    apply elem_of_cons in Hin as [[= -> ->]|Hin].
    + assert (Hm : apply_merge h (a, b) !! a = Some (merged o p)).
      { unfold apply_merge. cbn [fst snd]. rewrite Ho, Hp. apply lookup_insert_eq. }
      destruct (apply_merges_grows prs _ a _ Hm) as (o' & Ho' & Hsub).
      exists o'. split; [done|]. unfold merged in Hsub. cbn [_method_data] in Hsub.
      rewrite dom_union_L in Hsub. set_solver.
    + destruct (apply_merge_grows h (a, b) l o Ho) as (o1 & Ho1 & Hsub1).
      destruct (apply_merge_grows h (a, b) lb p Hp) as (p1 & Hp1 & Hsub2).
      destruct (IH _ _ _ Hin Ho1 Hp1) as (o' & Ho' & Hsub).
      exists o'. split; [done|]. set_solver.
Qed.

Lemma link_locs_of_link_at A (src tgt : Obj) (l : loc) :
  link_at A src tgt = Some l -> l ∈ link_locs A.
Proof.
  unfold link_at. destruct (od_get src A) as [ts|] eqn:Hs; [|discriminate].
  intros Hl. apply (link_locs_of_entry A src ts); [by apply od_get_elem_of|].
  by apply (elem_of_values_of_get ts tgt).
Qed.

Lemma link_at_of_link_locs A (l : loc) :
  results_wf A -> l ∈ link_locs A -> exists src tgt, link_at A src tgt = Some l.
Proof.
  intros [Hwf Hinner] Hl. unfold link_locs in Hl.
  apply list_elem_of_In, in_concat in Hl as (ls & Hls & Hl).
  apply in_map_iff in Hls as ([src ts] & <- & He). apply list_elem_of_In in He, Hl.
  cbn [snd] in Hl. apply list_elem_of_fmap in Hl as ([tgt l'] & -> & Hin).
  exists src, tgt. unfold link_at. rewrite (od_get_of_elem A src ts Hwf He).
  apply od_get_of_elem; [by apply (Hinner src)|done].
Qed.

Lemma od_wf_filter_keys (p : Obj -> bool) (ts : list (Obj * loc)) :
  od_wf ts -> od_wf (od_filter_keys p ts).
Proof.
  unfold od_wf, od_keys, od_filter_keys. induction ts as [|[k l] ts IH]; [done|].
  cbn [fmap list_fmap fst]. intros [Hk Hnd]%NoDup_cons. cbn [List.filter fst].
  destruct (p k); [|by apply IH]. cbn [fmap list_fmap fst]. apply NoDup_cons.
  split; [|by apply IH]. intros Hin. apply Hk.
  apply list_elem_of_fmap in Hin as (x & -> & Hx). apply list_elem_of_fmap.
  exists x. split; [done|]. apply list_elem_of_In in Hx. apply filter_In in Hx as [Hx _].
  by apply list_elem_of_In.
Qed.

Lemma results_wf_and_link_data A B : results_wf A -> results_wf (and_link_data A B).
Proof.
  intros [Hwf Hinner]. split.
  - unfold od_wf. unfold and_link_data. rewrite od_keys_map_and_entry.
    unfold od_wf, od_keys in *. clear Hinner.
    induction A as [|[k ex] A IH]; [done|]. cbn [fmap list_fmap fst] in Hwf.
    apply NoDup_cons in Hwf as [Hk Hnd]. cbn [List.filter].
    destruct (negb _); [|by apply IH]. cbn [fmap list_fmap fst]. apply NoDup_cons.
    split; [|by apply IH]. intros Hin. apply Hk.
    apply list_elem_of_fmap in Hin as (x & -> & Hx). apply list_elem_of_fmap.
    exists x. split; [done|]. apply list_elem_of_In in Hx. apply filter_In in Hx as [Hx _].
    by apply list_elem_of_In.
  - intros src ts Hin. unfold and_link_data in Hin.
    apply list_elem_of_In, in_map_iff in Hin as ([k ex] & He & Hin).
    apply filter_In in Hin as [Hin _]. apply list_elem_of_In in Hin.
    unfold and_entry in He. cbn [fst snd] in He.
    destruct (od_get k B) as [ltm|]; injection He as <- <-.
    + unfold and_targets. apply od_wf_filter_keys. by apply (Hinner k).
    + by apply (Hinner k).
Qed.
End MergesGrow.

(** ** AND mode: every surviving link holds data of every method *)

Section AndInvariant.
Context {F : Type} `{Float F}.
Local Abbreviation ObjectLink := (@ObjectLink F).
Implicit Types (h : gmap loc ObjectLink) (A B : list (Obj * list (Obj * loc))).
Implicit Types (ms : gset Method).

Lemma add_all_and_invariant n ls
    (rest : list (Method * list (Obj * list (Obj * loc)))) :
  forall ms A h,
  results_wf A ->
  links_hold h A ms ->
  NoDup rest.*1 ->
  (forall c, c ∈ rest -> (c.1) ∉ ms /\ results_wf (c.2) /\ links_hold h (c.2) {[ c.1 ]}) ->
  exists s',
    add_all rest (mkState h n ls (mkLinkCollection ms A true)) = Ok tt s'
    /\ _methods (st_coll s') = list_to_set (rest.*1) ∪ ms
    /\ links_hold (st_links s') (_link_data (st_coll s')) (list_to_set (rest.*1) ∪ ms).
Proof.
  induction rest as [|[m B] rest IH]; intros ms A h HwfA HA Hnd Hrest.
  - exists (mkState h n ls (mkLinkCollection ms A true)). split; [done|].
    cbn [st_coll st_links _methods _link_data fmap list_fmap list_to_set].
    split; [set_solver|]. intros l Hl. destruct (HA l Hl) as (o & Ho & Hsub).
    exists o. split; [done|]. set_solver.
  - cbn [fmap list_fmap fst] in Hnd. apply NoDup_cons in Hnd as [Hm Hnd].
    destruct (Hrest (m, B)) as (Hmms & HwfB & HB); [apply list_elem_of_here|].
    cbn [fst snd] in Hmms, HwfB, HB.
    assert (Hrest' : forall c, c ∈ rest -> (c.1) ≠ m /\ (c.1) ∉ ms /\ results_wf (c.2)
                                       /\ links_hold h (c.2) {[ c.1 ]}).
    { intros c Hc. destruct (Hrest c) as (? & ? & ?); [by apply list_elem_of_further|].
      split; [|done]. intros Heq. apply Hm. apply list_elem_of_fmap. by exists c. }
    unfold add_all. cbn [mfor fst snd]. fold (add_all (F:=F) rest).
    destruct (decide (ms = ∅)) as [->|Hne].
    + rewrite (bind_Ok _ _ _ _ tt (add_first_run m B h n ls A true)).
      destruct (IH ({[m]} ∪ ∅) B h HwfB) as (s' & Hrun & Hms & Hhold); [|done| |].
      * intros l Hl. destruct (HB l Hl) as (o & Ho & Hsub). exists o. split; [done|].
        set_solver.
      * intros c Hc. destruct (Hrest' c Hc) as (? & ? & ? & ?). split; [set_solver|done].
      * exists s'. split; [done|]. cbn [fmap list_fmap fst list_to_set].
        split; [set_solver|]. intros l Hl. destruct (Hhold l Hl) as (o & Ho & Hsub).
        exists o. split; [done|]. set_solver.
    + assert (Halloc : forall l, l ∈ link_locs A ++ link_locs B -> is_Some (h !! l)).
      { intros l [Hl|Hl]%elem_of_app.
        - destruct (HA l Hl) as (o & Ho & _). eauto.
        - destruct (HB l Hl) as (o & Ho & _). eauto. }
      rewrite (bind_Ok _ _ _ _ tt
                 (add_and_run m A B h n ls ms Hmms Hne (proj1 HwfA) Halloc)).
      destruct (IH ({[m]} ∪ ms) (and_link_data A B) (apply_merges (and_pairs A B) h))
        as (s' & Hrun & Hms & Hhold); [by apply results_wf_and_link_data| |done| |].
      * intros l Hl.
        apply (link_at_of_link_locs _ l (results_wf_and_link_data A B HwfA)) in Hl
          as (src & tgt & Hl).
        apply link_at_and_link_data in Hl as [Hl [lb Hlb]]; [|exact (proj1 HwfA)].
        destruct (HA l (link_locs_of_link_at A src tgt l Hl)) as (o & Ho & Hsub).
        destruct (HB lb (link_locs_of_link_at B src tgt lb Hlb)) as (p & Hp & Hsubp).
        destruct (apply_merges_joins (and_pairs A B) h l lb o p) as (o' & Ho' & Hsub');
          [by apply (elem_of_and_pairs A B src tgt l lb (proj2 HwfB))|done|done|].
        exists o'. split; [done|]. set_solver.
      * intros c Hc. destruct (Hrest' c Hc) as (? & ? & ? & Hc2).
        split; [set_solver|]. split; [done|]. intros l Hl.
        destruct (Hc2 l Hl) as (o & Ho & Hsub).
        destruct (apply_merges_grows (and_pairs A B) h l o Ho) as (o' & Ho' & Hsub').
        exists o'. split; [done|]. set_solver.
      * exists s'. split; [done|]. cbn [fmap list_fmap fst list_to_set].
        split; [set_solver|]. intros l Hl. destruct (Hhold l Hl) as (o & Ho & Hsub).
        exists o. split; [done|]. set_solver.
Qed.

(** C3 (amended): contributions of distinct methods are added to a fresh
    AND-mode collection one after the other, nothing else touching the
    links in between: each link of a contribution carries a payload of the
    contributing method in the store the additions start from.  Then all
    the additions return, the collection counts as many methods as there
    were contributions, and every pair it still holds has a link with a
    payload of every one of these methods. *)
Theorem and_mode_links_hold_all_methods
    (contributions : list (Method * list (Obj * list (Obj * loc)))) h n ls :
  NoDup contributions.*1 ->
  (forall m R, (m, R) ∈ contributions ->
     results_wf R
     /\ forall l, l ∈ link_locs R ->
                  exists o, h !! l = Some o /\ m ∈ link_methods o) ->
  exists s',
    add_all contributions (mkState h n ls (LinkCollection_init true)) = Ok tt s'
    /\ methods (st_coll s') = list_to_set (contributions.*1)
    /\ method_count (st_coll s') = length contributions
    /\ forall src tgt l,
         link_at (links (st_coll s')) src tgt = Some l ->
         exists o, st_links s' !! l = Some o
                   /\ forall m, m ∈ contributions.*1 -> m ∈ link_methods o.
Proof.
  intros Hnd Hpre.
  destruct (add_all_and_invariant n ls contributions ∅ [] h) as (s' & Hrun & Hms & Hhold).
  - split; [constructor|]. by intros src ts ?%elem_of_nil.
  - by intros l ?%elem_of_nil.
  - done.
  - intros [m R] Hc. cbn [fst snd]. destruct (Hpre m R Hc) as [HwfR HR].
    split; [apply not_elem_of_empty|]. split; [done|]. intros l Hl.
    destruct (HR l Hl) as (o & Ho & Hm). exists o. split; [done|].
    unfold link_methods in Hm. set_solver.
  - exists s'. split; [done|]. unfold methods, method_count, links.
    rewrite Hms, (right_id_L ∅ (∪)). split; [done|]. split.
    { rewrite size_list_to_set by done. by rewrite length_fmap. }
    intros src tgt l Hl. destruct (Hhold l (link_locs_of_link_at _ src tgt l Hl))
      as (o & Ho & Hsub).
    exists o. split; [done|]. intros m Hm. unfold link_methods.
    apply Hsub. apply elem_of_union. left. by apply elem_of_list_to_set.
Qed.
End AndInvariant.

Lemma and_mode_links_hold_all_methods_witness :
  exists s',
    add_all [(Examples.m1, Examples.results_A); (Examples.m2, Examples.results_B)]
      (Examples.four_links_state true) = Ok tt s'
    /\ methods (st_coll s') = list_to_set [Examples.m1; Examples.m2]
    /\ method_count (st_coll s') = 2
    /\ forall src tgt l,
         link_at (links (st_coll s')) src tgt = Some l ->
         exists o, st_links s' !! l = Some o
                   /\ forall m, m ∈ [Examples.m1; Examples.m2] -> m ∈ link_methods o.
Proof.
  apply (and_mode_links_hold_all_methods
           [(Examples.m1, Examples.results_A); (Examples.m2, Examples.results_B)]
           Examples.four_links 4 {[ default_shared_strains := [] ]}).
  - apply (bool_decide_unpack _). vm_compute. exact I.
  - intros m R Hin. apply list_elem_of_In in Hin. cbn in Hin.
    destruct Hin as [[= <- <-]|[[= <- <-]|[]]].
    + split.
      * split; [unfold od_wf, od_keys; apply (bool_decide_unpack _); vm_compute; exact I|].
        intros src ts Hts. apply list_elem_of_In in Hts. cbn in Hts.
        destruct Hts as [[= <- <-]|[]].
        unfold od_wf, od_keys. apply (bool_decide_unpack _). vm_compute. exact I.
      * intros l Hl. apply list_elem_of_In in Hl. cbn in Hl.
        destruct Hl as [<-|[<-|[]]]; eexists; (split; [reflexivity|]);
          unfold link_methods; cbn [_method_data]; rewrite dom_singleton_L;
          by apply elem_of_singleton.
    + split.
      * split; [unfold od_wf, od_keys; apply (bool_decide_unpack _); vm_compute; exact I|].
        intros src ts Hts. apply list_elem_of_In in Hts. cbn in Hts.
        destruct Hts as [[= <- <-]|[]].
        unfold od_wf, od_keys. apply (bool_decide_unpack _). vm_compute. exact I.
      * intros l Hl. apply list_elem_of_In in Hl. cbn in Hl.
        destruct Hl as [<-|[<-|[]]]; eexists; (split; [reflexivity|]);
          unfold link_methods; cbn [_method_data]; rewrite dom_singleton_L;
          by apply elem_of_singleton.
Defined.

(** ** The OR merge computes its description *)

Section odict_update_facts.
Context {K V : Type} `{EqDecision K}.
Implicit Types (d e : list (K * V)) (k : K) (v : V).

Lemma od_keys_update d e k :
  k ∈ od_keys (od_update d e) <-> k ∈ od_keys d \/ k ∈ od_keys e.
Proof.
  unfold od_update. revert d. induction e as [|[k0 v0] e IH]; intros d; cbn [foldl].
  - assert (Hnil : k ∈ od_keys (@nil (K * V)) <-> False)
      by (unfold od_keys; cbn; apply elem_of_nil).
    rewrite Hnil. tauto.
  - assert (Hcons : k ∈ od_keys ((k0, v0) :: e) <-> k = k0 \/ k ∈ od_keys e)
      by (unfold od_keys; cbn [fmap list_fmap fst]; apply elem_of_cons).
    rewrite IH, Hcons. cbn [fst snd]. rewrite od_keys_set.
    case_bool_decide as Hin.
    + split; [tauto|]. intros [?|[->|?]]; tauto.
    + rewrite elem_of_app, list_elem_of_singleton. tauto.
Qed.

Lemma od_values_set d k v (x : V) :
  x ∈ (od_set k v d).*2 -> x = v \/ x ∈ d.*2.
Proof.
  induction d as [|[k0 v0] d IH]; cbn [od_set].
  - cbn. rewrite list_elem_of_singleton. tauto.
  - destruct (decide (k = k0)); cbn [fmap list_fmap snd]; rewrite !elem_of_cons; [tauto|].
    intros [->|Hx]; [tauto|]. destruct (IH Hx); tauto.
Qed.

Lemma od_values_update d e (x : V) :
  x ∈ (od_update d e).*2 -> x ∈ d.*2 \/ x ∈ e.*2.
Proof.
  unfold od_update. revert d. induction e as [|[k0 v0] e IH]; intros d; cbn [foldl]; [tauto|].
  intros Hx. apply IH in Hx as [Hx|Hx].
  - apply od_values_set in Hx as [->|Hx]; [|tauto]. right. cbn. apply list_elem_of_here.
  - right. cbn [fmap list_fmap]. by apply list_elem_of_further.
Qed.
End odict_update_facts.

Section OrMergeRun.
Context {F : Type} `{Float F}.
Local Abbreviation State := (@State F).
Local Abbreviation ObjectLink := (@ObjectLink F).
Implicit Types (h : gmap loc ObjectLink) (A B d : list (Obj * list (Obj * loc))).

Lemma or_targets_has_target d (src : Obj) (links : list (Obj * loc)) (tgt : Obj) :
  tgt ∈ od_keys links -> is_Some (od_get tgt (or_targets d src links)).
Proof.
  intros Hin. apply od_get_is_Some. unfold or_targets.
  destruct (od_get src d) as [cur|]; [|done].
  apply od_keys_update. destruct (od_mem tgt cur) eqn:Hm.
  - left. by apply od_mem_true.
  - right. apply od_get_is_Some. rewrite od_get_filter_keys, Hm. cbn [negb].
    by apply od_get_is_Some.
Qed.

Lemma or_targets_values d (src : Obj) (links : list (Obj * loc)) (l : loc) :
  l ∈ (or_targets d src links).*2 -> l ∈ link_locs d \/ l ∈ links.*2.
Proof.
  unfold or_targets. destruct (od_get src d) as [cur|] eqn:Hd; [|tauto].
  intros [Hl|Hl]%od_values_update.
  - left. apply (link_locs_of_entry d src cur); [by apply od_get_elem_of|done].
  - right. apply list_elem_of_fmap in Hl as (x & -> & Hx). apply list_elem_of_fmap.
    exists x. split; [done|]. unfold od_filter_keys in Hx. apply list_elem_of_In in Hx.
    apply filter_In in Hx as [Hx _]. by apply list_elem_of_In.
Qed.

Lemma link_locs_od_set d (src : Obj) (v : list (Obj * loc)) (l : loc) :
  l ∈ link_locs (od_set src v d) -> l ∈ v.*2 \/ l ∈ link_locs d.
Proof.
  unfold link_locs. induction d as [|[k ts] d IH]; cbn [od_set].
  - cbn. rewrite app_nil_r. tauto.
  - destruct (decide (src = k)); cbn [map concat snd]; rewrite !elem_of_app; [tauto|].
    intros [?|Hl]; [tauto|]. destruct (IH Hl); tauto.
Qed.

Lemma or_merge_targets_run (src : Obj) (v links : list (Obj * loc)) h n ls c :
  od_get src (_link_data c) = Some v ->
  (forall tl, tl ∈ links -> is_Some (od_get tl.1 v)) ->
  (forall l, l ∈ v.*2 -> is_Some (h !! l)) ->
  (forall l, l ∈ links.*2 -> is_Some (h !! l)) ->
  or_merge_targets src links (mkState h n ls c)
  = Ok tt (mkState (apply_merges (pairs_with v links) h) n ls c).
Proof.
  intros Hsrc. unfold or_merge_targets. revert h.
  induction links as [|[tgt lb] links IH]; intros h Hhas Hv Hlinks; [reflexivity|].
  cbn [mfor].
  rewrite (bind_Ok _ _ _ (mkState (apply_merges (pairs_with v [(tgt, lb)]) h) n ls c) tt).
  - rewrite IH.
    + unfold pairs_with. change ((tgt, lb) :: links) with ([(tgt, lb)] ++ links).
      by rewrite omap_app, apply_merges_app.
    + intros tl Htl. apply Hhas. by apply list_elem_of_further.
    + intros l Hl. apply apply_merges_is_Some. auto.
    + intros l Hl. apply apply_merges_is_Some. apply Hlinks.
      cbn [fmap list_fmap]. by apply list_elem_of_further.
  - rewrite (bind_Ok _ _ _ _ v (get_item_run h n ls c src v Hsrc)).
    cbn [fst snd]. destruct (Hhas (tgt, lb)) as [l Hg]; [apply list_elem_of_here|].
    cbn [fst] in Hg. rewrite Hg. cbn [of_option]. rewrite bind_ret.
    rewrite (bind_Ok _ _ _ _ l (_merge_run h n ls c l lb
               (Hv l (elem_of_values_of_get _ _ _ Hg))
               (Hlinks lb ltac:(cbn [fmap list_fmap]; apply list_elem_of_here)))).
    unfold pairs_with, apply_merges. simpl. rewrite Hg. reflexivity.
Qed.

Lemma or_visit_run d (src : Obj) (links : list (Obj * loc)) h n ls ms am :
  (forall l, l ∈ link_locs d ++ links.*2 -> is_Some (h !! l)) ->
  or_visit (src, links) (mkState h n ls (mkLinkCollection ms d am))
  = Ok tt (mkState (apply_merges (pairs_with (or_targets d src links) links) h) n ls
             (mkLinkCollection ms (od_set src (or_targets d src links) d) am)).
Proof.
  intros Halloc. unfold or_visit. cbn [fst snd].
  rewrite (bind_Ok get_coll _ (mkState h n ls (mkLinkCollection ms d am)) _
             (mkLinkCollection ms d am) eq_refl).
  cbn [_link_data].
  rewrite (bind_Ok _ _ _ (mkState h n ls
             (mkLinkCollection ms (od_set src (or_targets d src links) d) am)) tt).
  2:{ unfold or_targets. by destruct (od_get src d). }
  apply or_merge_targets_run.
  - cbn [_link_data]. rewrite od_get_set. by rewrite decide_True.
  - intros [tgt lb] Htl. apply or_targets_has_target. apply list_elem_of_fmap.
    by exists (tgt, lb).
  - intros l Hl. apply Halloc, elem_of_app. by apply or_targets_values in Hl.
  - intros l Hl. apply Halloc, elem_of_app. by right.
Qed.

(** [_merge_or_mode] returns, and its effect on the link data and on the
    store is the described one. *)
Lemma _merge_or_mode_run B n ls ms am :
  forall d h,
  (forall l, l ∈ link_locs d ++ link_locs B -> is_Some (h !! l)) ->
  _merge_or_mode B (mkState h n ls (mkLinkCollection ms d am))
  = Ok tt (mkState (apply_merges (or_pairs d B) h) n ls
             (mkLinkCollection ms (or_link_data d B) am)).
Proof.
  unfold _merge_or_mode. induction B as [|[src links] B IH]; intros d h Halloc; [reflexivity|].
  cbn [mfor]. rewrite (bind_Ok _ _ _ _ tt (or_visit_run d src links h n ls ms am
    ltac:(intros l [Hl|Hl]%elem_of_app; apply Halloc, elem_of_app;
          [by left | right; unfold link_locs; cbn [map concat snd];
                     apply elem_of_app; by left]))).
  rewrite IH.
  - cbn [or_pairs or_link_data foldl fst snd]. by rewrite apply_merges_app.
  - intros l Hl. apply apply_merges_is_Some. apply Halloc.
    apply elem_of_app in Hl as [Hl|Hl].
    + apply link_locs_od_set in Hl as [Hl|Hl].
      * apply or_targets_values in Hl as [Hl|Hl]; apply elem_of_app; [by left|].
        right. unfold link_locs. cbn [map concat snd]. apply elem_of_app. by left.
      * apply elem_of_app. by left.
    + apply elem_of_app. right. unfold link_locs. cbn [map concat snd].
      apply elem_of_app. by right.
Qed.
End OrMergeRun.

(** ** What the OR description says *)

Section OrDescription.
Context {F : Type} `{Float F}.
Local Abbreviation ObjectLink := (@ObjectLink F).
Implicit Types (h : gmap loc ObjectLink) (prs : list (loc * loc)).
Implicit Types (A B d : list (Obj * list (Obj * loc))) (links : list (Obj * loc)).

Lemma od_get_or_targets d (src tgt : Obj) links :
  od_wf links ->
  od_get tgt (or_targets d src links)
  = match link_at d src tgt with
    | Some l => Some l
    | None => od_get tgt links
    end.
Proof.
  intros Hwf. unfold or_targets, link_at. destruct (od_get src d) as [cur|]; [|done].
  rewrite od_get_update by (by apply od_wf_filter_keys).
  rewrite od_get_filter_keys. unfold od_mem.
  destruct (od_get tgt cur) as [l|]; cbn [negb]; [done|].
  by destruct (od_get tgt links).
Qed.

Lemma od_keys_or_link_data B d (src : Obj) :
  src ∈ od_keys (or_link_data d B) <-> src ∈ od_keys d \/ src ∈ od_keys B.
Proof.
  unfold or_link_data. revert d. induction B as [|[k links] B IH]; intros d; cbn [foldl].
  - assert (Hnil : src ∈ od_keys (@nil (Obj * list (Obj * loc))) <-> False)
      by (unfold od_keys; cbn; apply elem_of_nil).
    rewrite Hnil. tauto.
  - assert (Hcons : src ∈ od_keys ((k, links) :: B) <-> src = k \/ src ∈ od_keys B)
      by (unfold od_keys; cbn [fmap list_fmap fst]; apply elem_of_cons).
    rewrite IH, Hcons. cbn [fst snd]. rewrite od_keys_set.
    case_bool_decide as Hin.
    + split; [tauto|]. intros [?|[->|?]]; tauto.
    + rewrite elem_of_app, list_elem_of_singleton. tauto.
Qed.

Lemma or_targets_od_set_ne d (k src : Obj) (v links : list (Obj * loc)) :
  src ≠ k -> or_targets (od_set k v d) src links = or_targets d src links.
Proof. intros Hne. unfold or_targets. rewrite od_get_set. by rewrite decide_False. Qed.

Lemma od_get_or_link_data B d (src : Obj) :
  od_wf B ->
  od_get src (or_link_data d B)
  = match od_get src B with
    | Some links => Some (or_targets d src links)
    | None => od_get src d
    end.
Proof.
  unfold or_link_data, od_wf, od_keys. revert d.
  induction B as [|[k links] B IH]; intros d Hwf; [done|].
  cbn [fmap list_fmap fst] in Hwf. apply NoDup_cons in Hwf as [Hk Hwf].
  cbn [foldl fst snd od_get]. rewrite IH by done.
  destruct (decide (src = k)) as [->|Hne].
  - assert (Hnone : od_get k B = None) by (by apply od_get_None).
    rewrite Hnone, od_get_set. by rewrite decide_True.
  - destruct (od_get src B) as [links'|].
    + by rewrite or_targets_od_set_ne.
    + rewrite od_get_set. by rewrite decide_False.
Qed.

Lemma elem_of_or_pairs B d (x y : loc) :
  od_wf B ->
  (x, y) ∈ or_pairs d B
  <-> exists src links tgt,
        (src, links) ∈ B /\ (tgt, y) ∈ links
        /\ od_get tgt (or_targets d src links) = Some x.
Proof.
  unfold od_wf, od_keys. revert d.
  induction B as [|[k links0] B IH]; intros d Hwf.
  - cbn [or_pairs]. split; [by intros ?%elem_of_nil|].
    by intros (src & links & tgt & ?%elem_of_nil & _).
  - cbn [fmap list_fmap fst] in Hwf. apply NoDup_cons in Hwf as [Hk Hwf].
    cbn [or_pairs fst snd]. rewrite elem_of_app, elem_of_pairs_with, IH by done. split.
    + intros [(tgt & Hin & Hg)|(src & links & tgt & HB & Hin & Hg)].
      * exists k, links0, tgt. split; [apply list_elem_of_here|done].
      * exists src, links, tgt. split; [by apply list_elem_of_further|]. split; [done|].
        rewrite or_targets_od_set_ne in Hg; [done|]. intros ->. apply Hk.
        apply list_elem_of_fmap. by exists (k, links).
    + intros (src & links & tgt & HB & Hin & Hg).
      apply elem_of_cons in HB as [[= -> ->]|HB]; [left; eauto|].
      right. exists src, links, tgt. split; [done|]. split; [done|].
      rewrite or_targets_od_set_ne; [done|]. intros ->. apply Hk.
      apply list_elem_of_fmap. by exists (k, links).
Qed.

(** *** The store after merges that write a link once *)

Lemma merged_self (p : ObjectLink) : merged p p = p.
Proof. destruct p as [s t ss md]. unfold merged. cbn. by rewrite (idemp_L (∪)). Qed.

Lemma merged_again (o p : ObjectLink) : merged (merged o p) p = merged o p.
Proof.
  unfold merged. cbn. by rewrite (assoc_L (∪)), (idemp_L (∪)).
Qed.

Lemma apply_merges_keeps_merged prs h (l lb : loc) (o p : ObjectLink) :
  l ≠ lb ->
  (forall pr, pr ∈ prs -> pr.1 = l -> pr = (l, lb)) ->
  (forall pr, pr ∈ prs -> pr.1 = lb -> pr.2 = lb) ->
  h !! lb = Some p -> h !! l = Some (merged o p) ->
  apply_merges prs h !! l = Some (merged o p).
Proof.
  intros Hne. unfold apply_merges. revert h.
  induction prs as [|[a b] prs IH]; intros h Hl Hlb Hp Ho; [done|].
  cbn [foldl]. apply IH.
  - intros pr Hpr. apply Hl. by apply list_elem_of_further.
  - intros pr Hpr. apply Hlb. by apply list_elem_of_further.
  - destruct (decide (a = lb)) as [->|Ha].
    + assert (b = lb) as -> by (apply (Hlb (lb, b)); [apply list_elem_of_here|done]).
      unfold apply_merge. cbn [fst snd]. rewrite Hp, merged_self. by rewrite insert_id.
    + by rewrite apply_merge_lookup_ne.
  - destruct (decide (a = l)) as [->|Ha].
    + assert ((l, b) = (l, lb)) as [= ->] by (apply Hl; [apply list_elem_of_here|done]).
      unfold apply_merge. cbn [fst snd]. rewrite Ho, Hp, merged_again.
      apply lookup_insert_eq.
    + by rewrite apply_merge_lookup_ne.
Qed.

Lemma apply_merges_exact prs h (l lb : loc) (o p : ObjectLink) :
  l ≠ lb ->
  (forall pr, pr ∈ prs -> pr.1 = l -> pr = (l, lb)) ->
  (forall pr, pr ∈ prs -> pr.1 = lb -> pr.2 = lb) ->
  (l, lb) ∈ prs ->
  h !! l = Some o -> h !! lb = Some p ->
  apply_merges prs h !! l = Some (merged o p).
Proof.
  intros Hne. revert h.
  induction prs as [|[a b] prs IH]; intros h Hl Hlb Hin Ho Hp.
  - by apply elem_of_nil in Hin.
  - assert (Hl' : forall pr, pr ∈ prs -> pr.1 = l -> pr = (l, lb))
      by (intros pr Hpr; apply Hl; by apply list_elem_of_further).
    assert (Hlb' : forall pr, pr ∈ prs -> pr.1 = lb -> pr.2 = lb)
      by (intros pr Hpr; apply Hlb; by apply list_elem_of_further).
    unfold apply_merges. cbn [foldl]. fold (apply_merges prs (apply_merge h (a, b))).
    destruct (decide (a = l)) as [->|Ha].
    + assert ((l, b) = (l, lb)) as [= ->] by (apply Hl; [apply list_elem_of_here|done]).
      apply (apply_merges_keeps_merged prs _ l lb o p); [done|done|done| |].
      * by rewrite apply_merge_lookup_ne.
      * unfold apply_merge. cbn [fst snd]. rewrite Ho, Hp. apply lookup_insert_eq.
    + apply elem_of_cons in Hin as [[= <- <-]|Hin]; [done|].
      apply IH; [done|done|done| |].
      * by rewrite apply_merge_lookup_ne.
      * destruct (decide (a = lb)) as [->|Hab]; [|by rewrite apply_merge_lookup_ne].
        assert (b = lb) as -> by (apply (Hlb (lb, b)); [apply list_elem_of_here|done]).
        unfold apply_merge. cbn [fst snd]. rewrite Hp, merged_self. by rewrite insert_id.
Qed.

(** *** Links that are not aliased name one pair *)

Lemma link_locs_entry_unique A (e e' : Obj * list (Obj * loc)) (l : loc) :
  NoDup (link_locs A) -> e ∈ A -> e' ∈ A -> l ∈ e.2.*2 -> l ∈ e'.2.*2 -> e = e'.
Proof.
  unfold link_locs. induction A as [|a A IH]; intros Hnd He He' Hl Hl'.
  - by apply elem_of_nil in He.
  - cbn [map concat] in Hnd. apply NoDup_app in Hnd as (_ & Hdisj & HndA).
    apply elem_of_cons in He as [->|He], He' as [->|He']; [done| | |by apply IH].
    + exfalso. apply (Hdisj l Hl). destruct e' as [s ts].
      by apply (link_locs_of_entry A s ts).
    + exfalso. apply (Hdisj l Hl'). destruct e as [s ts].
      by apply (link_locs_of_entry A s ts).
Qed.

Lemma NoDup_entry_values A (src : Obj) (ts : list (Obj * loc)) :
  NoDup (link_locs A) -> (src, ts) ∈ A -> NoDup ts.*2.
Proof.
  unfold link_locs. induction A as [|a A IH]; intros Hnd He.
  - by apply elem_of_nil in He.
  - cbn [map concat] in Hnd. apply NoDup_app in Hnd as (Ha & _ & HndA).
    apply elem_of_cons in He as [<-|He]; [done | by apply IH].
Qed.

Lemma link_at_inj A (src src' tgt tgt' : Obj) (l : loc) :
  NoDup (link_locs A) ->
  link_at A src tgt = Some l -> link_at A src' tgt' = Some l -> src = src' /\ tgt = tgt'.
Proof.
  intros Hnd. unfold link_at.
  destruct (od_get src A) as [ts|] eqn:Hs; [|discriminate].
  destruct (od_get src' A) as [ts'|] eqn:Hs'; [|discriminate].
  intros Hl Hl'. apply od_get_elem_of in Hs, Hs'.
  assert (Heq : (src, ts) = (src', ts')).
  { apply (link_locs_entry_unique A _ _ l); [done|done|done| |].
    - by apply (elem_of_values_of_get ts tgt).
    - by apply (elem_of_values_of_get ts' tgt'). }
  injection Heq as <- <-. split; [done|].
  apply (od_get_inj_values ts tgt tgt' l); [|done|done].
  by apply (NoDup_entry_values A src).
Qed.
End OrDescription.

(** ** The OR merge keeps every pair *)

Section OrMode.
Context {F : Type} `{Float F}.
Local Abbreviation State := (@State F).
Local Abbreviation ObjectLink := (@ObjectLink F).
Implicit Types (h : gmap loc ObjectLink) (prs : list (loc * loc)).
Implicit Types (A B : list (Obj * list (Obj * loc))).

(** A later contribution to an OR-mode collection. *)
Lemma add_or_run (m : Method) A B h n ls (ms : gset Method) :
  m ∉ ms -> ms ≠ ∅ ->
  (forall l, l ∈ link_locs A ++ link_locs B -> is_Some (h !! l)) ->
  _add_links_from_method m B (mkState h n ls (mkLinkCollection ms A false))
  = Ok tt (mkState (apply_merges (or_pairs A B) h) n ls
             (mkLinkCollection ({[m]} ∪ ms) (or_link_data A B) false)).
Proof.
  intros Hm Hms Halloc. unfold _add_links_from_method.
  rewrite (bind_Ok get_coll _ (mkState h n ls (mkLinkCollection ms A false)) _
             (mkLinkCollection ms A false) eq_refl).
  cbn [_methods _and_mode negb]. rewrite bool_decide_eq_false_2 by done.
  rewrite bool_decide_eq_false_2
    by (intros Hsz; apply size_empty_inv in Hsz; apply Hms; by apply leibniz_equiv).
  by rewrite (bind_Ok _ _ _ _ tt (_merge_or_mode_run B n ls ms false A h Halloc)).
Qed.

Lemma link_at_or_link_data A B (src tgt : Obj) :
  results_wf B ->
  link_at (or_link_data A B) src tgt
  = match link_at A src tgt with
    | Some l => Some l
    | None => link_at B src tgt
    end.
Proof.
  intros [Hwf Hinner]. unfold link_at at 1. rewrite od_get_or_link_data by done.
  destruct (od_get src B) as [links|] eqn:HB.
  - rewrite od_get_or_targets by (apply (Hinner src); by apply od_get_elem_of).
    assert (HlB : link_at B src tgt = od_get tgt links) by (unfold link_at; by rewrite HB).
    by rewrite HlB.
  - assert (HlB : link_at B src tgt = None) by (unfold link_at; by rewrite HB).
    rewrite HlB. unfold link_at. destruct (od_get src A) as [ts|]; [|done].
    by destruct (od_get tgt ts).
Qed.

Lemma elem_of_or_pairs_link_at A B (x y : loc) :
  results_wf B ->
  (x, y) ∈ or_pairs A B
  <-> exists src tgt, link_at B src tgt = Some y
                      /\ link_at (or_link_data A B) src tgt = Some x.
Proof.
  intros HwfB. pose proof HwfB as [Hwf Hinner]. rewrite elem_of_or_pairs by done. split.
  - intros (src & links & tgt & HB & Hin & Hx). exists src, tgt.
    assert (Hs : od_get src B = Some links) by (by apply od_get_of_elem).
    unfold link_at. rewrite od_get_or_link_data, Hs by done. split; [|done].
    apply od_get_of_elem; [by apply (Hinner src)|done].
  - intros (src & tgt & Hy & Hx). unfold link_at in Hy, Hx.
    rewrite od_get_or_link_data in Hx by done.
    destruct (od_get src B) as [links|] eqn:HB; [|discriminate].
    exists src, links, tgt. split; [by apply od_get_elem_of|].
    split; [by apply od_get_elem_of|done].
Qed.

(** Merging a link into itself, any number of times, leaves it as it is. *)
Lemma apply_merges_self prs h (l : loc) :
  (forall pr, pr ∈ prs -> pr.1 = l -> pr.2 = l) ->
  apply_merges prs h !! l = h !! l.
Proof.
  unfold apply_merges. revert h. induction prs as [|[a b] prs IH]; intros h Hl; [done|].
  cbn [foldl]. rewrite IH by (intros pr Hpr; apply Hl; by apply list_elem_of_further).
  destruct (decide (a = l)) as [->|Ha]; [|by rewrite apply_merge_lookup_ne].
  assert (b = l) as -> by (apply (Hl (l, b)); [apply list_elem_of_here|done]).
  unfold apply_merge. cbn [fst snd]. destruct (h !! l) as [p|] eqn:Hp; [|done].
  by rewrite merged_self, lookup_insert_eq.
Qed.

(** C2: in OR mode, after [A] has been stored and [B] added, the link data
    holds every source of [A] or of [B] and, for each, every target either
    mapping has for it; a pair of both keeps the link of [A], merged with
    the link of [B]; the link of a pair of only one mapping is left as it
    was. *)
Theorem or_mode_keeps_all_pairs A B (mA mB : Method) h n ls :
  mA ≠ mB ->
  results_wf B ->
  NoDup (link_locs A ++ link_locs B) ->
  (forall l, l ∈ link_locs A ++ link_locs B -> is_Some (h !! l)) ->
  exists s',
    (let* _ := _add_links_from_method mA A in _add_links_from_method mB B)
      (mkState h n ls (LinkCollection_init false)) = Ok tt s'
    /\ methods (st_coll s') = {[mA; mB]}
    /\ (forall src, src ∈ sources (st_coll s') <-> src ∈ od_keys A \/ src ∈ od_keys B)
    /\ (forall src tgt,
          link_at (links (st_coll s')) src tgt
          = match link_at A src tgt with
            | Some l => Some l
            | None => link_at B src tgt
            end)
    /\ (forall src tgt l lb o p,
          link_at A src tgt = Some l -> link_at B src tgt = Some lb ->
          h !! l = Some o -> h !! lb = Some p ->
          st_links s' !! l = Some (merged o p))
    /\ (forall src tgt l,
          link_at A src tgt = Some l -> link_at B src tgt = None ->
          st_links s' !! l = h !! l)
    /\ (forall src tgt lb,
          link_at A src tgt = None -> link_at B src tgt = Some lb ->
          st_links s' !! lb = h !! lb).
Proof.
  intros Hne HwfB Hnd Halloc. eexists. split.
  { unfold LinkCollection_init. rewrite (bind_Ok _ _ _ _ tt (add_first_run mA A h n ls [] false)).
    apply add_or_run; [set_solver | set_solver | done]. }
  cbn [st_coll st_links]. unfold methods, sources, links. cbn [_methods _link_data].
  apply NoDup_app in Hnd as (HndA & Hdisj & HndB).
  assert (Hsep : forall s t s' t' x,
            link_at A s t = Some x -> link_at B s' t' = Some x -> False).
  { intros s t s' t' x Ha Hb. apply (Hdisj x); by eapply link_locs_of_link_at. }
  assert (Hfst : forall x y l src tgt,
            (x, y) ∈ or_pairs A B -> x = l -> link_at A src tgt = Some l ->
            link_at B src tgt = Some y).
  { intros x y l src tgt Hin -> Hl.
    apply elem_of_or_pairs_link_at in Hin as (s' & t' & Hy & Hx); [|done].
    rewrite link_at_or_link_data in Hx by done.
    destruct (link_at A s' t') as [l'|] eqn:Hl'.
    - injection Hx as ->. by destruct (link_at_inj A src s' tgt t' l HndA Hl Hl') as [-> ->].
    - exfalso. by apply (Hsep src tgt s' t' l). }
  assert (Hsnd : forall x y lb src tgt,
            (x, y) ∈ or_pairs A B -> x = lb -> link_at B src tgt = Some lb -> y = lb).
  { intros x y lb src tgt Hin -> Hlb.
    apply elem_of_or_pairs_link_at in Hin as (s' & t' & Hy & Hx); [|done].
    rewrite link_at_or_link_data in Hx by done.
    destruct (link_at A s' t') as [l'|] eqn:Hl'.
    - injection Hx as ->. exfalso. by apply (Hsep s' t' src tgt lb).
    - congruence. }
  split; [set_solver|]. split; [intros src; apply od_keys_or_link_data|].
  split; [intros src tgt; by apply link_at_or_link_data|].
  split; [|split].
  - intros src tgt l lb o p Hl Hlb Ho Hp.
    apply apply_merges_exact with (lb := lb); [| | | |done|done].
    + intros ->. by apply (Hsep src tgt src tgt lb).
    + intros [x y] Hin Hx. cbn [fst] in Hx.
      pose proof (Hfst x y l src tgt Hin Hx Hl) as Hy. congruence.
    + intros [x y] Hin Hx. cbn [fst snd] in *. by apply (Hsnd x y lb src tgt).
    + apply elem_of_or_pairs_link_at; [done|]. exists src, tgt. split; [done|].
      rewrite link_at_or_link_data by done. by rewrite Hl.
  - intros src tgt l Hl Hnone. apply apply_merges_lookup_notin.
    intros ([x y] & -> & Hin)%list_elem_of_fmap. cbn [fst] in Hl.
    pose proof (Hfst x y x src tgt Hin eq_refl Hl) as Hy. congruence.
  - intros src tgt lb Hnone Hlb. apply apply_merges_self.
    intros [x y] Hin Hx. cbn [fst snd] in *. by apply (Hsnd x y lb src tgt).
Qed.
End OrMode.

Lemma or_mode_keeps_all_pairs_witness :
  exists s',
    (let* _ := _add_links_from_method Examples.m1 Examples.results_A in
     _add_links_from_method Examples.m2 Examples.results_B)
      (Examples.four_links_state false) = Ok tt s'
    /\ methods (st_coll s') = {[Examples.m1; Examples.m2]}
    /\ (forall src, src ∈ sources (st_coll s')
                    <-> src ∈ od_keys Examples.results_A \/ src ∈ od_keys Examples.results_B)
    /\ (forall src tgt,
          link_at (links (st_coll s')) src tgt
          = match link_at Examples.results_A src tgt with
            | Some l => Some l
            | None => link_at Examples.results_B src tgt
            end)
    /\ (forall src tgt l lb o p,
          link_at Examples.results_A src tgt = Some l ->
          link_at Examples.results_B src tgt = Some lb ->
          Examples.four_links !! l = Some o -> Examples.four_links !! lb = Some p ->
          st_links s' !! l = Some (merged o p))
    /\ (forall src tgt l,
          link_at Examples.results_A src tgt = Some l ->
          link_at Examples.results_B src tgt = None ->
          st_links s' !! l = Examples.four_links !! l)
    /\ (forall src tgt lb,
          link_at Examples.results_A src tgt = None ->
          link_at Examples.results_B src tgt = Some lb ->
          st_links s' !! lb = Examples.four_links !! lb).
Proof.
  apply (or_mode_keeps_all_pairs Examples.results_A Examples.results_B
           Examples.m1 Examples.m2 Examples.four_links 4 {[ default_shared_strains := [] ]}).
  - discriminate.
  - split.
    + unfold od_wf, od_keys. apply (bool_decide_unpack _). vm_compute. exact I.
    + intros src ltm Hin. apply list_elem_of_In in Hin. cbn in Hin.
      destruct Hin as [[= <- <-]|[]].
      unfold od_wf, od_keys. apply (bool_decide_unpack _). vm_compute. exact I.
  - apply (bool_decide_unpack _). vm_compute. exact I.
  - exact four_links_allocated.
Defined.

(** The scenario of the union: [A = {gcfA: {spec1, spec2}}] and
    [B = {gcfA: {spec2, spec3}}] give [{gcfA: {spec1, spec2, spec3}}]; the
    link of [spec2] is the one of [A] and holds both payloads. *)
Example or_mode_scenario :
  match (let* _ := _add_links_from_method Examples.m1 Examples.results_A in
         _add_links_from_method Examples.m2 Examples.results_B)
          (Examples.four_links_state false) with
  | Ok _ s' =>
      links (st_coll s')
      = [(Examples.gcfA, [(Examples.spec1, 0); (Examples.spec2, 1); (Examples.spec3, 3)])]
      /\ (_method_data <$> st_links s' !! 1)
         = Some {[ Examples.m1 := DFloat (1 # 3); Examples.m2 := DFloat (1 # 4) ]}
  | Raise _ _ => False
  end.
Proof. vm_compute. split; reflexivity. Qed.

(** ** ObjectLink: construction, merging, payload updates *)

Section ObjectLinkOps.
Context {F : Type} `{Float F}.
Local Abbreviation State := (@State F).
Local Abbreviation ObjectLink := (@ObjectLink F).
Local Abbreviation Data := (@Data F).

(** [ObjectLink(source, target, method, data)] makes a new object: in a
    store whose next location is free, the call adds exactly one link, at
    that location; the link holds one payload, the one of [method], and
    refers to the given strain list or to the default one.  Every link that
    existed is still there, unchanged, and so are the strain lists and the
    collection. *)
Theorem new_link_holds_one_payload (src tgt : Obj) (m : Method) (d : Data)
    (ss : option loc) (s : State) :
  st_links s !! st_next s = None ->
  exists s' o,
    ObjectLink_init src tgt m d ss s = Ok (st_next s) s'
    /\ st_links s' !! st_next s = Some o
    /\ source o = src /\ target o = tgt
    /\ shared_strains o = default default_shared_strains ss
    /\ link_methods o = {[m]} /\ link_method_count o = 1
    /\ data (st_next s) m s' = Ok d s'
    /\ dom (st_links s') = {[st_next s]} ∪ dom (st_links s)
    /\ st_next s ∉ dom (st_links s)
    /\ (forall l o', st_links s !! l = Some o' -> st_links s' !! l = Some o')
    /\ st_lists s' = st_lists s /\ st_coll s' = st_coll s.
Proof.
  intros Hfresh. eexists _, _. split; [reflexivity|]. cbn [st_links st_lists st_coll].
  split; [apply lookup_insert_eq|]. cbn [source target shared_strains].
  split; [done|]. split; [done|]. split; [by destruct ss|].
  split; [unfold link_methods; cbn; apply dom_singleton_L|].
  split; [unfold link_method_count; cbn; apply map_size_singleton|].
  split.
  { unfold data, read_link, bind, get_state, of_option, ret. cbn [st_links].
    rewrite lookup_insert_eq. cbn. by rewrite lookup_singleton_eq. }
  split; [apply dom_insert_L|]. split; [by apply not_elem_of_dom|].
  split; [|done]. intros l o' Hl. rewrite lookup_insert_ne; [done|].
  intros <-. congruence.
Qed.

(** [self._merge(other)] is a dictionary update: a method of [other] takes
    the payload of [other], any other method keeps the payload [self] had;
    source, target and strain list of [self] stay, and so does every other
    link. *)
Theorem merge_takes_payloads_of_other (s : State) (self other : loc) (o p : ObjectLink) :
  st_links s !! self = Some o -> st_links s !! other = Some p ->
  exists s' o',
    _merge self other s = Ok self s'
    /\ st_links s' !! self = Some o'
    /\ source o' = source o /\ target o' = target o
    /\ shared_strains o' = shared_strains o
    /\ (forall m, _method_data o' !! m
                  = match _method_data p !! m with
                    | Some d => Some d
                    | None => _method_data o !! m
                    end)
    /\ (forall l, l ≠ self -> st_links s' !! l = st_links s !! l)
    /\ st_coll s' = st_coll s.
Proof.
  intros Ho Hp. destruct s as [h n ls c]. cbn [st_links] in Ho, Hp.
  exists (mkState (apply_merge h (self, other)) n ls c), (merged o p).
  split; [apply _merge_run; eauto|]. cbn [st_links st_coll].
  assert (Hm : apply_merge h (self, other) = <[self := merged o p]> h)
    by (unfold apply_merge; cbn [fst snd]; by rewrite Ho, Hp).
  rewrite Hm. split; [apply lookup_insert_eq|].
  split; [done|]. split; [done|]. split; [done|].
  split; [|split; [|done]].
  - intros m. unfold merged. cbn [_method_data]. rewrite lookup_union.
    destruct (_method_data p !! m), (_method_data o !! m); done.
  - intros l Hl. by rewrite lookup_insert_ne.
Qed.

(** Merging a link into itself changes nothing at all. *)
Theorem merge_with_itself_changes_nothing (s : State) (l : loc) (o : ObjectLink) :
  st_links s !! l = Some o -> _merge l l s = Ok l s.
Proof.
  intros Ho. destruct s as [h n ls c]. cbn [st_links] in Ho.
  rewrite _merge_run by eauto. unfold apply_merge. cbn [fst snd].
  by rewrite Ho, merged_self, insert_id.
Qed.

(** [set_data] followed by [data] gives the payload back, and the payloads
    of the other methods are the ones the link had. *)
Theorem set_data_then_data (s : State) (l : loc) (o : ObjectLink) (m : Method) (d : Data) :
  st_links s !! l = Some o ->
  exists s',
    set_data l m d s = Ok tt s'
    /\ data l m s' = Ok d s'
    /\ (forall m', m' ≠ m ->
          data l m' s' = match _method_data o !! m' with
                         | Some d' => Ok d' s'
                         | None => Raise KeyError s'
                         end).
Proof.
  intros Ho. destruct s as [h n ls c]. cbn [st_links] in Ho.
  eexists. split.
  { unfold set_data. rewrite (bind_Ok _ _ _ _ o (read_link_Some (mkState h n ls c) l o Ho)).
    reflexivity. }
  cbn [st_links st_next st_lists st_coll]. split.
  - unfold data, read_link, bind, get_state, of_option, ret. cbn [st_links].
    rewrite lookup_insert_eq. cbn. by rewrite lookup_insert_eq.
  - intros m' Hm'. unfold data, read_link, bind, get_state, of_option, ret. cbn [st_links].
    rewrite lookup_insert_eq. cbn. rewrite lookup_insert_ne by done.
    by destruct (_method_data o !! m').
Qed.
End ObjectLinkOps.

Lemma new_link_holds_one_payload_witness :
  exists s' o,
    ObjectLink_init Examples.gcfA Examples.spec1 Examples.m1 (DFloat (1 # 2)) None
      (initial_state true) = Ok 0 s'
    /\ st_links s' !! 0 = Some o
    /\ source o = Examples.gcfA /\ target o = Examples.spec1
    /\ shared_strains o = default_shared_strains
    /\ link_methods o = {[ Examples.m1 ]} /\ link_method_count o = 1
    /\ data 0 Examples.m1 s' = Ok (DFloat (1 # 2)) s'
    /\ dom (st_links s') = {[ 0 ]} ∪ dom (∅ : gmap loc (@ObjectLink Q))
    /\ 0 ∉ dom (∅ : gmap loc (@ObjectLink Q))
    /\ (forall l o', (∅ : gmap loc (@ObjectLink Q)) !! l = Some o'
                     -> st_links s' !! l = Some o')
    /\ st_lists s' = {[ default_shared_strains := [] ]}
    /\ st_coll s' = LinkCollection_init true.
Proof.
  exact (new_link_holds_one_payload Examples.gcfA Examples.spec1 Examples.m1
           (DFloat (1 # 2)) None (initial_state true) eq_refl).
Defined.

Lemma merge_takes_payloads_of_other_witness :
  exists s' o',
    _merge 1 2 (Examples.four_links_state false) = Ok 1 s'
    /\ st_links s' !! 1 = Some o'
    /\ source o' = Examples.gcfA /\ target o' = Examples.spec2
    /\ shared_strains o' = default_shared_strains
    /\ (forall m, _method_data o' !! m
                  = match ({[ Examples.m2 := DFloat (1 # 4) ]} : gmap Method (@Data Q)) !! m with
                    | Some d => Some d
                    | None => ({[ Examples.m1 := DFloat (1 # 3) ]} : gmap Method (@Data Q)) !! m
                    end)
    /\ (forall l, l ≠ 1 -> st_links s' !! l = Examples.four_links !! l)
    /\ st_coll s' = LinkCollection_init false.
Proof.
  exact (merge_takes_payloads_of_other (Examples.four_links_state false) 1 2
           (mkObjectLink Examples.gcfA Examples.spec2 default_shared_strains
              {[ Examples.m1 := DFloat (1 # 3) ]})
           (mkObjectLink Examples.gcfA Examples.spec2 default_shared_strains
              {[ Examples.m2 := DFloat (1 # 4) ]}) eq_refl eq_refl).
Defined.

Lemma merge_with_itself_changes_nothing_witness :
  _merge 0 0 Examples.one_link_state = Ok 0 Examples.one_link_state.
Proof.
  exact (merge_with_itself_changes_nothing Examples.one_link_state 0
           (mkObjectLink Examples.gcfA Examples.spec1 default_shared_strains
              {[ Examples.m1 := DFloat (1 # 2) ]}) eq_refl).
Defined.

Lemma set_data_then_data_witness :
  exists s',
    set_data 0 Examples.m2 (DFloat (3 # 4)) Examples.one_link_state = Ok tt s'
    /\ data 0 Examples.m2 s' = Ok (DFloat (3 # 4)) s'
    /\ (forall m', m' ≠ Examples.m2 ->
          data 0 m' s'
          = match ({[ Examples.m1 := DFloat (1 # 2) ]} : gmap Method (@Data Q)) !! m' with
            | Some d' => Ok d' s'
            | None => Raise KeyError s'
            end).
Proof.
  exact (set_data_then_data Examples.one_link_state 0
           (mkObjectLink Examples.gcfA Examples.spec1 default_shared_strains
              {[ Examples.m1 := DFloat (1 # 2) ]}) Examples.m2 (DFloat (3 # 4)) eq_refl).
Defined.

(** ** Contributions that are refused, first, or empty *)

Section AddEdgeCases.
Context {F : Type} `{Float F}.
Local Abbreviation State := (@State F).
Local Abbreviation ObjectLink := (@ObjectLink F).
Implicit Types (h : gmap loc ObjectLink) (A B R : list (Obj * list (Obj * loc))).

(** A method that has contributed already is refused with an [Exception],
    whatever its message, before anything is changed. *)
Theorem add_links_rejects_duplicate_method (m : Method) R (s : State) :
  m ∈ methods (st_coll s) ->
  exists msg, _add_links_from_method m R s = Raise (Exception msg) s.
Proof.
  intros Hm. eexists. unfold _add_links_from_method.
  rewrite (bind_Ok get_coll _ s s (st_coll s) eq_refl).
  by rewrite bool_decide_eq_true_2.
Qed.

(** The results of the first method are stored as they are, in either mode,
    and replace whatever link data the collection held; no link is touched. *)
Theorem first_contribution_is_stored_as_is (m : Method) R (s : State) :
  methods (st_coll s) = ∅ ->
  exists s',
    _add_links_from_method m R s = Ok tt s'
    /\ links (st_coll s') = R
    /\ methods (st_coll s') = {[m]}
    /\ _and_mode (st_coll s') = _and_mode (st_coll s)
    /\ st_links s' = st_links s /\ st_lists s' = st_lists s.
Proof.
  destruct s as [h n ls [ms d am]]. unfold methods. cbn [st_coll _methods]. intros ->.
  eexists. split; [apply add_first_run|].
  cbn [st_coll st_links st_lists]. unfold links, methods. cbn [_link_data _methods _and_mode].
  split; [done|]. split; [set_solver|]. done.
Qed.

Lemma keys_inter_nil_r {V W} (a : list (Obj * V)) : keys_inter a (@nil (Obj * W)) = [].
Proof. unfold keys_inter. induction (od_keys a) as [|k ks IH]; [done|]. by cbn. Qed.

(** The first loop of [_merge_and_mode] when the new results are empty:
    every source goes to [to_remove]. *)
Lemma and_loop_nil_run (post : list (Obj * list (Obj * loc))) (to_remove : list Obj)
    (s : State) :
  NoDup (to_remove ++ od_keys post) ->
  mfold post to_remove (and_visit [] []) s = Ok (to_remove ++ od_keys post) s.
Proof.
  revert to_remove. induction post as [|[src ex] post IH]; intros to_remove Hnd.
  - cbn. by rewrite app_nil_r.
  - cbn [mfold]. unfold od_keys in *. cbn [fmap list_fmap fst] in *.
    assert (Hsrc : src ∉ to_remove).
    { apply NoDup_app in Hnd as (_ & Hdisj & _). intros Hin. apply (Hdisj src Hin).
      apply list_elem_of_here. }
    rewrite (bind_Ok _ _ s s (to_remove ++ [src])).
    + rewrite IH; [by rewrite <- app_assoc|]. by rewrite <- app_assoc.
    + unfold and_visit. cbn [fst snd]. rewrite bool_decide_eq_false_2 by apply not_elem_of_nil.
      cbn [negb]. by rewrite set_add_notin.
Qed.

(** Deleting every key of a dictionary, one after the other. *)
Lemma del_all_run A h n ls ms am :
  od_wf A ->
  mfor (od_keys A) del_item (mkState h n ls (mkLinkCollection ms A am))
  = Ok tt (mkState h n ls (mkLinkCollection ms [] am)).
Proof.
  unfold od_wf, od_keys. induction A as [|[src ex] A IH]; intros Hwf; [reflexivity|].
  cbn [fmap list_fmap fst] in *. apply NoDup_cons in Hwf as [_ Hwf]. cbn [mfor].
  rewrite (bind_Ok _ _ _ (mkState h n ls (mkLinkCollection ms A am)) tt); [by apply IH|].
  unfold del_item, set_link_data, bind, get_coll, put_coll, get_state, put_state, ret.
  cbn. unfold od_mem. cbn. by rewrite !decide_True.
Qed.

(** A method that found no link: in AND mode the collection loses every
    source, in OR mode it keeps its link data; in both the method is
    recorded and no link is touched. *)
Theorem empty_results_clear_an_and_mode_collection (m : Method) A h n ls
    (ms : gset Method) (am : bool) :
  m ∉ ms -> ms ≠ ∅ -> od_wf A ->
  _add_links_from_method m [] (mkState h n ls (mkLinkCollection ms A am))
  = Ok tt (mkState h n ls (mkLinkCollection ({[m]} ∪ ms) (if am then [] else A) am)).
Proof.
  intros Hm Hms Hwf. unfold _add_links_from_method.
  rewrite (bind_Ok get_coll _ (mkState h n ls (mkLinkCollection ms A am)) _
             (mkLinkCollection ms A am) eq_refl).
  cbn [_methods _and_mode]. rewrite bool_decide_eq_false_2 by done.
  rewrite bool_decide_eq_false_2
    by (intros Hsz; apply size_empty_inv in Hsz; apply Hms; by apply leibniz_equiv).
  destruct am; cbn [negb]; [|reflexivity].
  rewrite (bind_Ok _ _ _ (mkState h n ls (mkLinkCollection ms [] true)) tt); [reflexivity|].
  unfold _merge_and_mode.
  rewrite (bind_Ok get_coll _ (mkState h n ls (mkLinkCollection ms A true)) _
             (mkLinkCollection ms A true) eq_refl).
  cbn [_link_data]. rewrite keys_inter_nil_r.
  rewrite (bind_Ok _ _ _ _ _ (and_loop_nil_run A [] _ Hwf)). cbn [app].
  by apply del_all_run.
Qed.

(** An AND-mode collection that has lost all its sources stays empty,
    whatever a later method contributes, and no link is touched. *)
Theorem empty_and_mode_collection_stays_empty (m : Method) B h n ls (ms : gset Method) :
  m ∉ ms -> ms ≠ ∅ ->
  _add_links_from_method m B (mkState h n ls (mkLinkCollection ms [] true))
  = Ok tt (mkState h n ls (mkLinkCollection ({[m]} ∪ ms) [] true)).
Proof.
  intros Hm Hms. unfold _add_links_from_method.
  rewrite (bind_Ok get_coll _ (mkState h n ls (mkLinkCollection ms [] true)) _
             (mkLinkCollection ms [] true) eq_refl).
  cbn [_methods _and_mode]. rewrite bool_decide_eq_false_2 by done.
  rewrite bool_decide_eq_false_2
    by (intros Hsz; apply size_empty_inv in Hsz; apply Hms; by apply leibniz_equiv).
  reflexivity.
Qed.
End AddEdgeCases.

Lemma add_links_rejects_duplicate_method_witness :
  exists msg,
    _add_links_from_method Examples.m1 Examples.results_B
      (mkState Examples.four_links 4 {[ default_shared_strains := [] ]}
         (mkLinkCollection {[ Examples.m1 ]} Examples.results_A true))
    = Raise (Exception msg)
        (mkState Examples.four_links 4 {[ default_shared_strains := [] ]}
           (mkLinkCollection {[ Examples.m1 ]} Examples.results_A true)).
Proof.
  apply (add_links_rejects_duplicate_method (F := Q)). unfold methods. cbn. set_solver.
Defined.

Lemma first_contribution_is_stored_as_is_witness :
  exists s',
    _add_links_from_method Examples.m1 Examples.results_A (Examples.four_links_state false)
    = Ok tt s'
    /\ links (st_coll s') = Examples.results_A
    /\ methods (st_coll s') = {[ Examples.m1 ]}
    /\ _and_mode (st_coll s') = false
    /\ st_links s' = Examples.four_links
    /\ st_lists s' = {[ default_shared_strains := [] ]}.
Proof.
  exact (first_contribution_is_stored_as_is Examples.m1 Examples.results_A
           (Examples.four_links_state false) eq_refl).
Defined.

Lemma empty_results_clear_an_and_mode_collection_witness :
  _add_links_from_method Examples.m2 []
    (mkState Examples.four_links 4 {[ default_shared_strains := [] ]}
       (mkLinkCollection {[ Examples.m1 ]} Examples.results_A true))
  = Ok tt (mkState Examples.four_links 4 {[ default_shared_strains := [] ]}
             (mkLinkCollection ({[ Examples.m2 ]} ∪ {[ Examples.m1 ]}) [] true)).
Proof.
  apply (empty_results_clear_an_and_mode_collection (F := Q) Examples.m2 Examples.results_A
           Examples.four_links 4 {[ default_shared_strains := [] ]} {[ Examples.m1 ]} true).
  - apply not_elem_of_singleton. discriminate.
  - apply (non_empty_singleton_L Examples.m1).
  - unfold od_wf, od_keys. apply (bool_decide_unpack _). vm_compute. exact I.
Defined.

Lemma empty_and_mode_collection_stays_empty_witness :
  _add_links_from_method Examples.m2 Examples.results_B
    (mkState Examples.four_links 4 {[ default_shared_strains := [] ]}
       (mkLinkCollection {[ Examples.m1 ]} [] true))
  = Ok tt (mkState Examples.four_links 4 {[ default_shared_strains := [] ]}
             (mkLinkCollection ({[ Examples.m2 ]} ∪ {[ Examples.m1 ]}) [] true)).
Proof.
  apply (empty_and_mode_collection_stays_empty (F := Q)).
  - apply not_elem_of_singleton. discriminate.
  - apply (non_empty_singleton_L Examples.m1).
Defined.

(** ** Inputs that [get_links] refuses *)

Lemma uniformly_typed_all (objects : list Obj) (k : Kind) :
  (forall x, x ∈ objects -> kind x = k) -> uniformly_typed objects = true.
Proof.
  intros Hk. destruct objects as [|o0 objects]; [done|]. unfold uniformly_typed.
  apply forallb_forall. intros x Hx%list_elem_of_In. unfold isinstance.
  apply bool_decide_eq_true_2. rewrite (Hk x Hx). symmetry. apply Hk, list_elem_of_here.
Qed.

Section Refusals.
Context {F : Type} `{Float F}.
Local Abbreviation State := (@State F).

(** On an empty sequence of objects both [get_links] fail on [objects[0]],
    with IndexError, and change nothing: the uniform-type test passes on an
    empty sequence. *)
Theorem get_links_of_no_objects (npl : NPLinker)
    (LINKFINDER : option (@LinkFinder F)) (mc_self : @MetcalfScoring F)
    (rosetta_hits : option (list (@RosettaHit F))) (ro_self : @RosettaScoring F)
    (s : State) :
  MetcalfScoring_get_links npl LINKFINDER mc_self [] s = Raise IndexError s
  /\ RosettaScoring_get_links npl rosetta_hits ro_self [] s = Raise IndexError s.
Proof. split; reflexivity. Qed.

(** [MetcalfScoring.get_links] refuses BGCs, before anything is changed. *)
Theorem metcalf_get_links_rejects_bgcs (npl : NPLinker)
    (LINKFINDER : option (@LinkFinder F)) (self : @MetcalfScoring F)
    (objects : list Obj) (s : State) :
  objects ≠ [] -> (forall x, x ∈ objects -> kind x = BGC) ->
  MetcalfScoring_get_links npl LINKFINDER self objects s
  = Raise (Exception
             "MetcalfScoring requires input type GCF/Spectrum/MolecularFamily, not BGC") s.
Proof.
  intros Hne Hk. unfold MetcalfScoring_get_links.
  rewrite (uniformly_typed_all objects BGC Hk). cbn [negb].
  destruct objects as [|o0 objects]; [done|]. cbn [index lookup list_lookup lift].
  rewrite bind_ret. unfold isinstance.
  by rewrite bool_decide_eq_true_2 by apply Hk, list_elem_of_here.
Qed.

(** [RosettaScoring.get_links] refuses molecular families, before anything
    is changed. *)
Theorem rosetta_get_links_rejects_molfams (npl : NPLinker)
    (rosetta_hits : option (list (@RosettaHit F))) (self : @RosettaScoring F)
    (objects : list Obj) (s : State) :
  objects ≠ [] -> (forall x, x ∈ objects -> kind x = MolecularFamily) ->
  RosettaScoring_get_links npl rosetta_hits self objects s
  = Raise (Exception
             "RosettaScoring requires input type Spectrum (found MolecularFamily)") s.
Proof.
  intros Hne Hk. unfold RosettaScoring_get_links.
  rewrite (uniformly_typed_all objects MolecularFamily Hk). cbn [negb].
  destruct objects as [|o0 objects]; [done|]. cbn [index lookup list_lookup lift].
  rewrite bind_ret. unfold isinstance.
  by rewrite bool_decide_eq_true_2 by apply Hk, list_elem_of_here.
Qed.

(** Before [setup] has run, the class attributes [LINKFINDER] and
    [ROSETTA_OBJ] are [None]: on an input they accept, both [get_links] fail
    with AttributeError and change nothing. *)
Theorem get_links_before_setup (npl : NPLinker) (mc_self : @MetcalfScoring F)
    (ro_self : @RosettaScoring F) (objects : list Obj) (k : Kind) (s : State) :
  objects ≠ [] -> (forall x, x ∈ objects -> kind x = k) ->
  (k ≠ BGC -> MetcalfScoring_get_links npl None mc_self objects s = Raise AttributeError s)
  /\ (k ≠ MolecularFamily ->
      RosettaScoring_get_links npl None ro_self objects s = Raise AttributeError s).
Proof.
  intros Hne Hk. destruct objects as [|o0 objects]; [done|].
  assert (Hk0 : kind o0 = k) by apply Hk, list_elem_of_here. split; intros Hkind.
  - unfold MetcalfScoring_get_links. rewrite (uniformly_typed_all _ k Hk). cbn [negb].
    cbn [index lookup list_lookup lift]. rewrite bind_ret. unfold isinstance.
    rewrite bool_decide_eq_false_2 by congruence. reflexivity.
  - unfold RosettaScoring_get_links. rewrite (uniformly_typed_all _ k Hk). cbn [negb].
    cbn [index lookup list_lookup lift]. rewrite bind_ret. unfold isinstance.
    rewrite bool_decide_eq_false_2 by congruence. reflexivity.
Qed.

(** GCFs none of which has a BGC: after [setup], [RosettaScoring.get_links]
    replaces the input by the empty list of their BGCs and fails on
    [objects[0]], with IndexError. *)
Theorem rosetta_get_links_of_gcfs_without_bgcs (npl : NPLinker)
    (all_hits : list (@RosettaHit F)) (self : @RosettaScoring F)
    (objects : list Obj) (s : State) :
  objects ≠ [] -> (forall x, x ∈ objects -> kind x = GCF) ->
  (forall x, x ∈ objects -> gcf_bgcs npl x = []) ->
  RosettaScoring_get_links npl (Some all_hits) self objects s = Raise IndexError s.
Proof.
  intros Hne Hk Hb. unfold RosettaScoring_get_links.
  rewrite (uniformly_typed_all objects GCF Hk). cbn [negb].
  assert (Hnil : concat (map (gcf_bgcs npl) objects) = []).
  { clear Hne Hk. induction objects as [|x objects IH]; [done|]. cbn [map concat].
    rewrite (Hb x) by apply list_elem_of_here. cbn [app]. apply IH.
    intros y Hy. by apply Hb, list_elem_of_further. }
  destruct objects as [|o0 objects]; [done|]. cbn [index lookup list_lookup lift].
  rewrite bind_ret. unfold isinstance.
  rewrite bool_decide_eq_false_2 by (rewrite (Hk o0) by apply list_elem_of_here; done).
  rewrite bool_decide_eq_true_2 by apply Hk, list_elem_of_here.
  rewrite Hnil. reflexivity.
Qed.

(** GCFs that hold one BGC between them: the call behaves exactly as a
    call on that BGC.  (With several BGCs the order in which
    [list(set(...))] lists them is not specified.) *)
Theorem rosetta_get_links_of_gcfs_with_one_bgc (npl : NPLinker)
    (rosetta_hits : option (list (@RosettaHit F))) (self : @RosettaScoring F)
    (objects : list Obj) (b : Obj) (s : State) :
  objects ≠ [] -> (forall x, x ∈ objects -> kind x = GCF) ->
  (forall y, (exists x, x ∈ objects /\ y ∈ gcf_bgcs npl x) <-> y = b) ->
  kind b = BGC ->
  RosettaScoring_get_links npl rosetta_hits self objects s
  = RosettaScoring_get_links npl rosetta_hits self [b] s.
Proof.
  intros Hne Hk Hb Hkb.
  assert (Hbgcs : remove_dups (concat (map (gcf_bgcs npl) objects)) = [b]).
  { assert (Hel : forall y, y ∈ remove_dups (concat (map (gcf_bgcs npl) objects))
                            <-> y = b).
    { intros y. rewrite elem_of_remove_dups, <- Hb, list_elem_of_In, in_concat. split.
      - intros (l & Hl & Hy). apply in_map_iff in Hl as (x & <- & Hx).
        exists x. by rewrite !list_elem_of_In.
      - intros (x & Hx & Hy). exists (gcf_bgcs npl x). rewrite <- !list_elem_of_In.
        split; [|done]. apply list_elem_of_In, in_map, list_elem_of_In, Hx. }
    pose proof (NoDup_remove_dups (concat (map (gcf_bgcs npl) objects))) as Hnd.
    destruct (remove_dups (concat (map (gcf_bgcs npl) objects))) as [|y0 [|y1 ys]].
    - exfalso. apply (not_elem_of_nil b). by apply Hel.
    - f_equal. apply Hel, list_elem_of_here.
    - exfalso. apply NoDup_cons in Hnd as [Hy0 _]. apply Hy0.
      assert (y0 = b) as -> by apply Hel, list_elem_of_here.
      assert (y1 = b) as -> by (apply Hel, list_elem_of_further, list_elem_of_here).
      apply list_elem_of_here. }
  destruct objects as [|o0 objects']; [done|].
  assert (HbM : bool_decide (kind b = MolecularFamily) = false)
    by (apply bool_decide_eq_false_2; by rewrite Hkb).
  assert (HbG : bool_decide (kind b = GCF) = false)
    by (apply bool_decide_eq_false_2; by rewrite Hkb).
  assert (Ho0M : bool_decide (kind o0 = MolecularFamily) = false)
    by (apply bool_decide_eq_false_2; rewrite (Hk o0) by apply list_elem_of_here; done).
  assert (Ho0G : bool_decide (kind o0 = GCF) = true)
    by (apply bool_decide_eq_true_2; apply Hk, list_elem_of_here).
  unfold RosettaScoring_get_links.
  rewrite (uniformly_typed_all [b] BGC)
    by (intros x ->%list_elem_of_singleton; done).
  rewrite (uniformly_typed_all (o0 :: objects') GCF Hk).
  cbn [negb index lookup list_lookup lift]. rewrite !bind_ret.
  unfold isinstance. rewrite !HbM, !HbG, !Ho0M, !Ho0G.
  rewrite Hbgcs. reflexivity.
Qed.
End Refusals.

Lemma metcalf_get_links_rejects_bgcs_witness :
  MetcalfScoring_get_links Examples.empty_npl None Examples.metcalf_one [Examples.bgc1]
    (initial_state true)
  = Raise (Exception
             "MetcalfScoring requires input type GCF/Spectrum/MolecularFamily, not BGC")
      (initial_state true).
Proof.
  apply (metcalf_get_links_rejects_bgcs (F := Q)); [discriminate|].
  intros x ->%list_elem_of_singleton. reflexivity.
Defined.

Lemma rosetta_get_links_rejects_molfams_witness :
  RosettaScoring_get_links Examples.empty_npl (Some [Examples.hit_04]) Examples.rosetta_half
    [Examples.molfam1] (initial_state true)
  = Raise (Exception
             "RosettaScoring requires input type Spectrum (found MolecularFamily)")
      (initial_state true).
Proof.
  apply (rosetta_get_links_rejects_molfams (F := Q)); [discriminate|].
  intros x ->%list_elem_of_singleton. reflexivity.
Defined.

Lemma get_links_before_setup_witness :
  (Spectrum ≠ BGC ->
   MetcalfScoring_get_links Examples.small_npl None Examples.metcalf_one
     [Examples.spec1; Examples.spec2] (initial_state true)
   = Raise AttributeError (initial_state true))
  /\ (Spectrum ≠ MolecularFamily ->
      RosettaScoring_get_links Examples.small_npl None Examples.rosetta_half
        [Examples.spec1; Examples.spec2] (initial_state true)
      = Raise AttributeError (initial_state true)).
Proof.
  apply (get_links_before_setup (F := Q)); [discriminate|].
  intros x Hx. apply list_elem_of_In in Hx. cbn in Hx.
  destruct Hx as [<-|[<-|[]]]; reflexivity.
Defined.

Lemma rosetta_get_links_of_gcfs_without_bgcs_witness :
  RosettaScoring_get_links Examples.small_npl (Some [Examples.hit_04]) Examples.rosetta_half
    [Examples.gcfA; Examples.gcfB] (initial_state true)
  = Raise IndexError (initial_state true).
Proof.
  apply (rosetta_get_links_of_gcfs_without_bgcs (F := Q)); [discriminate| |done].
  intros x Hx. apply list_elem_of_In in Hx. cbn in Hx.
  destruct Hx as [<-|[<-|[]]]; reflexivity.
Defined.

Lemma rosetta_get_links_of_gcfs_with_one_bgc_witness :
  RosettaScoring_get_links Examples.one_bgc_npl (Some [Examples.hit_04])
    Examples.rosetta_half [Examples.gcfA] (initial_state true)
  = RosettaScoring_get_links Examples.one_bgc_npl (Some [Examples.hit_04])
      Examples.rosetta_half [Examples.bgc1] (initial_state true).
Proof.
  apply (rosetta_get_links_of_gcfs_with_one_bgc (F := Q)).
  - discriminate.
  - intros x ->%list_elem_of_singleton. reflexivity.
  - intros y. split.
    + intros (x & ->%list_elem_of_singleton & Hy). cbn in Hy.
      by apply list_elem_of_singleton in Hy.
    + intros ->. exists Examples.gcfA. split; [apply list_elem_of_here|].
      cbn. apply list_elem_of_here.
  - reflexivity.
Defined.

(** ** More facts on insertion-ordered dictionaries *)

Section odict_del_facts.
Context {K V : Type} `{EqDecision K}.
Implicit Types (d : list (K * V)) (k : K) (v : V).

Lemma od_wf_set d k v : od_wf d -> od_wf (od_set k v d).
Proof.
  unfold od_wf. rewrite od_keys_set. case_bool_decide as Hk; [done|].
  intros Hnd. apply NoDup_app. split; [done|]. split; [|apply NoDup_singleton].
  intros x Hx ->%list_elem_of_singleton. done.
Qed.

Lemma od_keys_set_elem d k v k' : k' ∈ od_keys (od_set k v d) <-> k' = k \/ k' ∈ od_keys d.
Proof.
  rewrite od_keys_set. case_bool_decide as Hk.
  - split; [tauto|]. intros [->|?]; done.
  - rewrite elem_of_app, list_elem_of_singleton. tauto.
Qed.

Lemma od_get_del d k k' :
  od_wf d -> od_get k' (od_del k d) = if decide (k' = k) then None else od_get k' d.
Proof.
  unfold od_wf, od_keys. induction d as [|[k0 v0] d IH]; intros Hwf; cbn [od_del od_get].
  - by destruct (decide (k' = k)).
  - cbn [fmap list_fmap fst] in Hwf. apply NoDup_cons in Hwf as [Hk0 Hwf].
    destruct (decide (k = k0)) as [->|Hne].
    + destruct (decide (k' = k0)) as [->|Hne']; [|done]. by apply od_get_None.
    + cbn [od_get]. destruct (decide (k' = k0)) as [->|Hne'].
      * by rewrite decide_False by done.
      * by apply IH.
Qed.

Lemma od_keys_del d k k' : k' ∈ od_keys (od_del k d) -> k' ∈ od_keys d.
Proof.
  unfold od_keys. induction d as [|[k0 v0] d IH]; cbn [od_del]; [done|].
  destruct (decide (k = k0)) as [->|Hne]; cbn [fmap list_fmap fst].
  - intros ?. by apply list_elem_of_further.
  - intros [->|Hin]%elem_of_cons; [apply list_elem_of_here|].
    apply list_elem_of_further. by apply IH.
Qed.

Lemma od_wf_del d k : od_wf d -> od_wf (od_del k d).
Proof.
  unfold od_wf, od_keys. induction d as [|[k0 v0] d IH]; cbn [od_del]; [done|].
  cbn [fmap list_fmap fst]. intros [Hk0 Hwf]%NoDup_cons.
  destruct (decide (k = k0)) as [->|Hne]; [done|]. cbn [fmap list_fmap fst].
  apply NoDup_cons. split; [|by apply IH]. intros Hin. apply Hk0.
  by apply (od_keys_del d k).
Qed.
End odict_del_facts.

(** ** The filters compute their descriptions *)

Section FilterRun.
Context {F : Type} `{Float F}.
Local Abbreviation State := (@State F).
Local Abbreviation ObjectLink := (@ObjectLink F).
Implicit Types (d : list (Obj * list (Obj * loc))) (srcs tr : list Obj).

Variable h : gmap loc ObjectLink.
Variable n : loc.
Variable ls : gmap loc (list Strain).
Variable ms : gset Method.
Variable am : bool.

Local Notation St d := (mkState h n ls (mkLinkCollection ms d am)).

Lemma set_item_run d (src : Obj) (v : list (Obj * loc)) :
  set_item src v (St d) = Ok tt (St (od_set src v d)).
Proof. reflexivity. Qed.

Lemma get_item_None d (src : Obj) :
  od_get src d = None -> get_item src (St d) = Raise KeyError (St d).
Proof.
  intros Hg. unfold get_item, bind, get_coll, get_state, ret. cbn. by rewrite Hg.
Qed.

Lemma od_get_filter_step g d (src k : Obj) :
  od_get k (filter_step g d src)
  = if decide (k = src) then g <$> od_get src d else od_get k d.
Proof.
  unfold filter_step. destruct (od_get src d) as [cur|] eqn:Hs.
  - rewrite od_get_set. by destruct (decide (k = src)).
  - destruct (decide (k = src)) as [->|]; [by rewrite Hs|done].
Qed.

Lemma od_get_filter_loop_data g srcs d (k : Obj) :
  NoDup srcs ->
  od_get k (filter_loop_data g d srcs)
  = if bool_decide (k ∈ srcs) then g <$> od_get k d else od_get k d.
Proof.
  unfold filter_loop_data. revert d. induction srcs as [|src srcs IH]; intros d Hnd.
  - cbn [foldl]. by rewrite bool_decide_eq_false_2 by apply not_elem_of_nil.
  - apply NoDup_cons in Hnd as [Hsrc Hnd]. cbn [foldl]. rewrite IH by done.
    rewrite !od_get_filter_step. destruct (decide (k = src)) as [->|Hne].
    + rewrite bool_decide_eq_false_2 by done.
      by rewrite bool_decide_eq_true_2 by apply list_elem_of_here.
    + case_bool_decide as Hin.
      * by rewrite bool_decide_eq_true_2 by (by apply list_elem_of_further).
      * rewrite bool_decide_eq_false_2; [done|]. by intros [?|?]%elem_of_cons.
Qed.

Lemma od_keys_filter_step g d (src k : Obj) :
  k ∈ od_keys (filter_step g d src) <-> k ∈ od_keys d.
Proof.
  unfold filter_step. destruct (od_get src d) as [cur|] eqn:Hs; [|done].
  rewrite od_keys_set_elem. split; [|tauto]. intros [->|?]; [|done].
  apply od_get_is_Some. by rewrite Hs.
Qed.

Lemma od_keys_filter_loop_data g srcs d (k : Obj) :
  k ∈ od_keys (filter_loop_data g d srcs) <-> k ∈ od_keys d.
Proof.
  unfold filter_loop_data. revert d. induction srcs as [|src srcs IH]; intros d; [done|].
  cbn [foldl]. rewrite IH. apply od_keys_filter_step.
Qed.

Lemma od_wf_filter_loop_data g srcs d : od_wf d -> od_wf (filter_loop_data g d srcs).
Proof.
  unfold filter_loop_data. revert d. induction srcs as [|src srcs IH]; intros d Hwf; [done|].
  cbn [foldl]. apply IH. unfold filter_step. destruct (od_get src d); [|done].
  by apply od_wf_set.
Qed.

Lemma od_get_del_all tr d (k : Obj) :
  od_wf d ->
  od_get k (del_all tr d) = if bool_decide (k ∈ tr) then None else od_get k d.
Proof.
  unfold del_all. revert d. induction tr as [|x tr IH]; intros d Hwf.
  - cbn [foldl]. by rewrite bool_decide_eq_false_2 by apply not_elem_of_nil.
  - cbn [foldl]. rewrite IH by (by apply od_wf_del). rewrite od_get_del by done.
    destruct (decide (k = x)) as [->|Hne].
    + rewrite (bool_decide_eq_true_2 (x ∈ x :: tr)) by apply list_elem_of_here.
      by case_bool_decide.
    + case_bool_decide as Hin.
      * by rewrite bool_decide_eq_true_2 by (by apply list_elem_of_further).
      * rewrite bool_decide_eq_false_2; [done|]. by intros [?|?]%elem_of_cons.
Qed.

(** The second loop, on distinct sources that are in the dictionary. *)
Lemma del_list_run tr d :
  od_wf d -> NoDup tr -> (forall x, x ∈ tr -> x ∈ od_keys d) ->
  mfor tr del_item (St d) = Ok tt (St (del_all tr d)).
Proof.
  unfold del_all. revert d. induction tr as [|x tr IH]; intros d Hwf Hnd Hin; [reflexivity|].
  apply NoDup_cons in Hnd as [Hx Hnd]. cbn [mfor foldl].
  rewrite (bind_Ok _ _ _ (St (od_del x d)) tt).
  - apply IH; [by apply od_wf_del|done|]. intros y Hy.
    apply od_get_is_Some. rewrite od_get_del by done.
    rewrite decide_False by (intros ->; done).
    apply od_get_is_Some, Hin. by apply list_elem_of_further.
  - unfold del_item, set_link_data, bind, get_coll, put_coll, get_state, put_state, ret.
    cbn. assert (Hm : od_mem x d = true) by (apply od_mem_true, Hin, list_elem_of_here).
    by rewrite Hm.
Qed.

(** A loop body that filters the dictionary of its source with [g]. *)
Variable g : list (Obj * loc) -> list (Obj * loc).
Variable body : list Obj -> Obj -> @M F (list Obj).
Variable ok : list (Obj * loc) -> Prop.
Hypothesis g_ok : forall cur, ok cur -> ok (g cur).
Hypothesis body_Some : forall d src cur tr,
  od_get src d = Some cur -> ok cur ->
  body tr src (St d)
  = Ok (if bool_decide (length (g cur) = 0) then tr ++ [src] else tr)
       (St (od_set src (g cur) d)).
Hypothesis body_None : forall d src tr,
  od_get src d = None -> body tr src (St d) = Raise KeyError (St d).

Lemma filter_loop_run srcs : forall d tr,
  NoDup srcs -> (forall x, x ∈ srcs -> x ∈ od_keys d) ->
  (forall src cur, od_get src d = Some cur -> ok cur) ->
  mfold srcs tr body (St d)
  = Ok (tr ++ filter_to_remove g d srcs) (St (filter_loop_data g d srcs)).
Proof.
  induction srcs as [|src srcs IH]; intros d tr Hnd Hin Hok.
  - cbn. by rewrite app_nil_r.
  - apply NoDup_cons in Hnd as [Hsrc Hnd].
    destruct (od_get src d) as [cur|] eqn:Hs.
    2:{ exfalso. assert (Hk : src ∈ od_keys d) by apply Hin, list_elem_of_here.
        apply od_get_is_Some in Hk. rewrite Hs in Hk. by destruct Hk. }
    cbn [mfold]. rewrite (bind_Ok _ _ _ _ _ (body_Some d src cur tr Hs (Hok src cur Hs))).
    rewrite IH; [|done| |].
    + assert (Hstep : filter_step g d src = od_set src (g cur) d)
        by (unfold filter_step; by rewrite Hs).
      assert (Hrem : filter_to_remove g d (src :: srcs)
                     = if bool_decide (length (g cur) = 0)
                       then src :: filter_to_remove g d srcs
                       else filter_to_remove g d srcs)
        by (unfold filter_to_remove; cbn [List.filter]; by rewrite Hs).
      assert (Hsame : filter_to_remove g (od_set src (g cur) d) srcs
                      = filter_to_remove g d srcs).
      { unfold filter_to_remove. apply filter_ext_in. intros x Hx%list_elem_of_In.
        rewrite od_get_set. rewrite decide_False; [done|]. by intros ->. }
      assert (Hdata : filter_loop_data g d (src :: srcs)
                      = filter_loop_data g (od_set src (g cur) d) srcs)
        by (unfold filter_loop_data; cbn [foldl]; by rewrite Hstep).
      rewrite Hsame, Hrem, Hdata. destruct (bool_decide (length (g cur) = 0)); [|done].
      by rewrite <- app_assoc.
    + intros x Hx. apply od_keys_set_elem. right. by apply Hin, list_elem_of_further.
    + intros src' cur' Hg. rewrite od_get_set in Hg.
      destruct (decide (src' = src)) as [->|]; [|by apply (Hok src')].
      injection Hg as <-. apply g_ok. by apply (Hok src).
Qed.

(** The first loop stops at the first listed source that is not in the
    dictionary: the sources before it have been filtered, none is deleted. *)
Lemma filter_loop_raises pre src post : forall d tr,
  NoDup pre -> (forall x, x ∈ pre -> x ∈ od_keys d) -> src ∉ od_keys d ->
  (forall s cur, od_get s d = Some cur -> ok cur) ->
  mfold (pre ++ src :: post) tr body (St d)
  = Raise KeyError (St (filter_loop_data g d pre)).
Proof.
  induction pre as [|x pre IH]; intros d tr Hnd Hin Hsrc Hok.
  - cbn [app mfold]. apply bind_Raise. apply body_None. by apply od_get_None.
  - apply NoDup_cons in Hnd as [Hx Hnd].
    destruct (od_get x d) as [cur|] eqn:Hs.
    2:{ exfalso. assert (Hk : x ∈ od_keys d) by apply Hin, list_elem_of_here.
        apply od_get_is_Some in Hk. rewrite Hs in Hk. by destruct Hk. }
    cbn [app mfold]. rewrite (bind_Ok _ _ _ _ _ (body_Some d x cur tr Hs (Hok x cur Hs))).
    rewrite IH; [|done| | |].
    + assert (Hstep : filter_step g d x = od_set x (g cur) d)
        by (unfold filter_step; by rewrite Hs).
      unfold filter_loop_data. cbn [foldl]. by rewrite Hstep.
    + intros y Hy. apply od_keys_set_elem. right. by apply Hin, list_elem_of_further.
    + rewrite od_keys_set_elem. intros [->|?]; [|done]. apply Hsrc, Hin, list_elem_of_here.
    + intros s cur' Hg. rewrite od_get_set in Hg.
      destruct (decide (s = x)) as [->|]; [|by apply (Hok s)].
      injection Hg as <-. apply g_ok. by apply (Hok x).
Qed.

Lemma filter_to_remove_facts srcs d :
  NoDup srcs -> (forall x, x ∈ srcs -> x ∈ od_keys d) ->
  NoDup (filter_to_remove g d srcs)
  /\ forall x, x ∈ filter_to_remove g d srcs -> x ∈ od_keys (filter_loop_data g d srcs).
Proof.
  intros Hnd Hin. split.
  - unfold filter_to_remove. by apply NoDup_ListNoDup, List.NoDup_filter, NoDup_ListNoDup.
  - intros x Hx. apply od_keys_filter_loop_data, Hin. unfold filter_to_remove in Hx.
    apply list_elem_of_In, filter_In in Hx as [Hx _]. by apply list_elem_of_In.
Qed.

(** Both loops. *)
Lemma filter_run srcs d :
  od_wf d -> NoDup srcs -> (forall x, x ∈ srcs -> x ∈ od_keys d) ->
  (forall src cur, od_get src d = Some cur -> ok cur) ->
  (let* to_remove := mfold srcs [] body in mfor to_remove del_item) (St d)
  = Ok tt (St (del_all (filter_to_remove g d srcs) (filter_loop_data g d srcs))).
Proof.
  intros Hwf Hnd Hin Hok.
  rewrite (bind_Ok _ _ _ _ _ (filter_loop_run srcs d [] Hnd Hin Hok)). cbn [app].
  destruct (filter_to_remove_facts srcs d Hnd Hin) as [Hnd' Hin'].
  apply del_list_run; [by apply od_wf_filter_loop_data|done|done].
Qed.

(** What a lookup finds after both loops. *)
Lemma od_get_filtered srcs d (k : Obj) :
  od_wf d -> NoDup srcs ->
  od_get k (del_all (filter_to_remove g d srcs) (filter_loop_data g d srcs))
  = if bool_decide (k ∈ srcs) then
      match od_get k d with
      | Some cur => if bool_decide (length (g cur) = 0) then None else Some (g cur)
      | None => None
      end
    else od_get k d.
Proof.
  intros Hwf Hnd. rewrite od_get_del_all by (by apply od_wf_filter_loop_data).
  rewrite od_get_filter_loop_data by done.
  assert (Hrem : k ∈ filter_to_remove g d srcs
                 <-> k ∈ srcs /\ exists cur, od_get k d = Some cur /\ length (g cur) = 0).
  { unfold filter_to_remove. rewrite list_elem_of_In, filter_In, <- list_elem_of_In.
    split; intros [Hk Hc]; (split; [done|]).
    - destruct (od_get k d) as [cur|]; [|done]. exists cur. split; [done|].
      by apply bool_decide_eq_true_1 in Hc.
    - destruct Hc as (cur & -> & Hl). by apply bool_decide_eq_true_2. }
  destruct (decide (k ∈ srcs)) as [Hk|Hk].
  - rewrite !(bool_decide_eq_true_2 (k ∈ srcs)) by done.
    destruct (od_get k d) as [cur|] eqn:Hs; cbn [fmap option_fmap option_map].
    + destruct (decide (length (g cur) = 0)) as [Hl|Hl].
      * rewrite (bool_decide_eq_true_2 (length (g cur) = 0)) by done.
        rewrite bool_decide_eq_true_2; [done|]. apply Hrem. eauto.
      * rewrite (bool_decide_eq_false_2 (length (g cur) = 0)) by done.
        rewrite bool_decide_eq_false_2; [done|]. rewrite Hrem.
        intros (_ & cur' & [= <-] & ?). done.
    + by destruct (bool_decide (k ∈ filter_to_remove g d srcs)).
  - rewrite !(bool_decide_eq_false_2 (k ∈ srcs)) by done.
    rewrite bool_decide_eq_false_2; [done|]. rewrite Hrem. tauto.
Qed.
End FilterRun.

(** ** The filters *)

Section odict_more_facts.
Context {K V : Type} `{EqDecision K}.
Implicit Types (d : list (K * V)) (k : K) (v : V).

Lemma od_keys_filter_keys (p : K -> bool) d :
  od_keys (od_filter_keys p d) = List.filter p (od_keys d).
Proof.
  unfold od_keys, od_filter_keys. induction d as [|[k v] d IH]; [done|].
  cbn [List.filter fmap list_fmap fst]. destruct (p k); cbn [fmap list_fmap fst]; by rewrite IH.
Qed.

Lemma od_del_set d k v : od_del k (od_set k v d) = od_del k d.
Proof.
  induction d as [|[k0 v0] d IH]; cbn [od_set od_del].
  - by rewrite decide_True.
  - destruct (decide (k = k0)) as [->|Hne]; cbn [od_del].
    + by rewrite decide_True.
    + rewrite decide_False by done. by rewrite IH.
Qed.

Lemma od_get_all_None d : (forall k, od_get k d = None) -> d = [].
Proof.
  destruct d as [|[k v] d]; [done|]. intros Hn. specialize (Hn k). cbn [od_get] in Hn.
  by rewrite decide_True in Hn.
Qed.

Lemma od_get_filter_values (q : V -> bool) d k v :
  od_wf d ->
  od_get k (List.filter (fun kv => q kv.2) d) = Some v <-> od_get k d = Some v /\ q v = true.
Proof.
  unfold od_wf, od_keys. induction d as [|[k0 v0] d IH]; intros Hwf.
  - cbn. split; [done|]. by intros [? _].
  - cbn [fmap list_fmap fst] in Hwf. apply NoDup_cons in Hwf as [Hk0 Hwf].
    cbn [List.filter snd od_get]. destruct (decide (k = k0)) as [->|Hne].
    + destruct (q v0) eqn:Hq.
      * cbn [od_get]. rewrite decide_True by done. split; [by intros [= <-]|by intros [? _]].
      * rewrite IH by done. split.
        -- intros [Hg _]. exfalso. apply Hk0. apply od_get_is_Some. by rewrite Hg.
        -- intros [[= <-] Hq']. congruence.
    + destruct (q v0); [|by apply IH]. cbn [od_get]. rewrite decide_False by done.
      by apply IH.
Qed.
End odict_more_facts.

Section Filters.
Context {F : Type} `{Float F}.
Local Abbreviation State := (@State F).
Local Abbreviation ObjectLink := (@ObjectLink F).
Implicit Types (d : list (Obj * list (Obj * loc))) (srcs : list Obj).

Variable h : gmap loc ObjectLink.
Variable n : loc.
Variable ls : gmap loc (list Strain).
Variable ms : gset Method.
Variable am : bool.

Local Notation St d := (mkState h n ls (mkLinkCollection ms d am)).

(** [filter_sources] keeps the sources the predicate accepts, in their
    order and with their dictionaries, also a source whose dictionary is
    empty; methods, mode and links are left alone. *)
Theorem filter_sources_keeps_accepted_sources (p : Obj -> bool) d :
  exists d',
    filter_sources p (St d) = Ok tt (St d')
    /\ od_keys d' = List.filter p (od_keys d)
    /\ (forall src, od_get src d' = if p src then od_get src d else None).
Proof.
  exists (od_filter_keys p d). split; [reflexivity|].
  split; [apply od_keys_filter_keys|]. intros src. apply od_get_filter_keys.
Qed.

Lemma filter_targets_body_Some (p : Obj -> bool) d (src : Obj) (cur : list (Obj * loc))
    (tr : list Obj) :
  od_get src d = Some cur ->
  (let* cur := get_item src in
   let* _ := set_item src (od_filter_keys p cur) in
   let* cur' := get_item src in
   if bool_decide (length cur' = 0) then ret (tr ++ [src]) else ret tr) (St d)
  = Ok (if bool_decide (length (od_filter_keys p cur) = 0) then tr ++ [src] else tr)
       (St (od_set src (od_filter_keys p cur) d)).
Proof.
  intros Hs.
  rewrite (bind_Ok _ _ _ _ cur (get_item_run h n ls (mkLinkCollection ms d am) src cur Hs)).
  rewrite (bind_Ok _ _ _ _ tt (set_item_run h n ls ms am d src (od_filter_keys p cur))).
  rewrite (bind_Ok _ _ _ _ (od_filter_keys p cur)
             (get_item_run h n ls (mkLinkCollection ms _ am) src _
                ltac:(cbn [_link_data]; rewrite od_get_set; by rewrite decide_True))).
  by destruct (bool_decide (length (od_filter_keys p cur) = 0)).
Qed.

Lemma filter_targets_body_None (p : Obj -> bool) d (src : Obj) (tr : list Obj) :
  od_get src d = None ->
  (let* cur := get_item src in
   let* _ := set_item src (od_filter_keys p cur) in
   let* cur' := get_item src in
   if bool_decide (length cur' = 0) then ret (tr ++ [src]) else ret tr) (St d)
  = Raise KeyError (St d).
Proof. intros Hs. apply bind_Raise. by apply get_item_None. Qed.

Lemma sources_list_facts (sources : option (list Obj)) d :
  od_wf d ->
  (forall l, sources = Some l -> NoDup l /\ forall x, x ∈ l -> x ∈ od_keys d) ->
  let srcs := match sources with None => od_keys d | Some l => l end in
  NoDup srcs /\ (forall x, x ∈ srcs -> x ∈ od_keys d)
  /\ forall k, is_Some (od_get k d) -> bool_decide (k ∈ srcs) = listed sources k.
Proof.
  intros Hwf Hl. destruct sources as [l|]; cbn [listed].
  - destruct (Hl l eq_refl) as [Hnd Hin]. done.
  - split; [done|]. split; [done|]. intros k Hk. apply bool_decide_eq_true_2.
    by apply od_get_is_Some.
Qed.

(** What a pair lookup finds after a filter with [g]. *)
Lemma link_at_filtered g (sources : option (list Obj)) srcs d (src tgt : Obj) :
  od_wf d -> NoDup srcs ->
  (forall k, is_Some (od_get k d) -> bool_decide (k ∈ srcs) = listed sources k) ->
  (forall cur, g cur = [] -> od_get tgt (g cur) = None) ->
  link_at (del_all (filter_to_remove g d srcs) (filter_loop_data g d srcs)) src tgt
  = match od_get src d with
    | Some cur => if listed sources src then od_get tgt (g cur) else od_get tgt cur
    | None => None
    end.
Proof.
  intros Hwf Hnd Hlisted Hnil. unfold link_at. rewrite od_get_filtered by done.
  destruct (od_get src d) as [cur|] eqn:Hs.
  - rewrite (Hlisted src) by (by rewrite Hs). destruct (listed sources src); [|done].
    case_bool_decide as Hl; [|done]. symmetry. apply Hnil.
    by apply length_zero_iff_nil.
  - by case_bool_decide.
Qed.

(** [filter_targets] returns when the listed sources are distinct sources of
    the collection (as they are when [sources] is omitted).  Of a visited
    source it keeps the targets the predicate accepts, with their links;
    a visited source left without a target is removed; a source that
    is not visited keeps its dictionary.  Methods, mode and links are left
    alone. *)
Theorem filter_targets_keeps_accepted_targets (p : Obj -> bool)
    (sources : option (list Obj)) d :
  od_wf d ->
  (forall l, sources = Some l -> NoDup l /\ forall x, x ∈ l -> x ∈ od_keys d) ->
  exists d',
    filter_targets p sources (St d) = Ok tt (St d')
    /\ (forall src tgt,
          link_at d' src tgt
          = if listed sources src && negb (p tgt) then None else link_at d src tgt)
    /\ (forall src ts, listed sources src = true -> od_get src d' = Some ts -> ts ≠ [])
    /\ (forall src, listed sources src = false -> od_get src d' = od_get src d).
Proof.
  intros Hwf Hl.
  destruct (sources_list_facts sources d Hwf Hl) as (Hnd & Hin & Hlisted).
  set (srcs := match sources with None => od_keys d | Some l => l end) in *.
  exists (del_all (filter_to_remove (od_filter_keys p) d srcs)
            (filter_loop_data (od_filter_keys p) d srcs)).
  split.
  { unfold filter_targets.
    rewrite (bind_Ok get_coll _ (St d) _ (mkLinkCollection ms d am) eq_refl).
    cbn [_link_data]. fold srcs.
    apply (filter_run h n ls ms am (od_filter_keys p) _ (fun _ => True));
      [done | | done | done | done | done].
    intros d0 src cur tr Hs _. by apply filter_targets_body_Some. }
  split; [|split].
  - intros src tgt.
    rewrite (link_at_filtered (od_filter_keys p) sources srcs d src tgt Hwf Hnd Hlisted)
      by (by intros cur ->).
    unfold link_at. destruct (od_get src d) as [cur|]; [|by destruct (_ && _)].
    destruct (listed sources src); cbn [andb]; [|done].
    rewrite od_get_filter_keys. by destruct (p tgt).
  - intros src ts Hls. rewrite od_get_filtered by done.
    destruct (od_get src d) as [cur|] eqn:Hs; [|by case_bool_decide].
    rewrite (Hlisted src) by (by rewrite Hs). rewrite Hls.
    case_bool_decide as Hlen; [done|]. intros [= <-] Hnil. apply Hlen.
    by rewrite Hnil.
  - intros src Hls. rewrite od_get_filtered by done.
    destruct (od_get src d) as [cur|] eqn:Hs.
    + rewrite (Hlisted src) by (by rewrite Hs). by rewrite Hls.
    + by case_bool_decide.
Qed.

(** A listed source that is not in the collection: [filter_targets] raises
    KeyError when it reaches it.  By then the sources listed before it have
    lost the targets the predicate refuses, and none of them has been
    removed, even if it is left without a target. *)
Theorem filter_targets_of_absent_source (p : Obj -> bool) (pre post : list Obj)
    (src : Obj) d :
  NoDup pre -> (forall x, x ∈ pre -> x ∈ od_keys d) -> src ∉ od_keys d ->
  exists d',
    filter_targets p (Some (pre ++ src :: post)) (St d) = Raise KeyError (St d')
    /\ (forall k, k ∈ od_keys d' <-> k ∈ od_keys d)
    /\ (forall k tgt,
          link_at d' k tgt
          = if bool_decide (k ∈ pre) && negb (p tgt) then None else link_at d k tgt).
Proof.
  intros Hnd Hin Hsrc. exists (filter_loop_data (od_filter_keys p) d pre). split.
  { unfold filter_targets.
    rewrite (bind_Ok get_coll _ (St d) _ (mkLinkCollection ms d am) eq_refl).
    apply bind_Raise.
    apply (filter_loop_raises h n ls ms am (od_filter_keys p) _ (fun _ => True));
      [done | | | done | done | done | done].
    - intros d0 s cur tr Hs _. by apply filter_targets_body_Some.
    - intros d0 s tr Hs. by apply filter_targets_body_None. }
  split; [intros k; apply od_keys_filter_loop_data|].
  intros k tgt. unfold link_at. rewrite od_get_filter_loop_data by done.
  case_bool_decide as Hk; cbn [andb].
  - destruct (od_get k d) as [cur|]; cbn [fmap option_fmap option_map]; [|by destruct (p tgt)].
    rewrite od_get_filter_keys. by destruct (p tgt).
  - done.
Qed.

(** A source listed twice, all of whose targets the predicate refuses: it is
    put into [to_remove] twice, and the second [del] raises KeyError, after
    the source has been removed. *)
Theorem filter_targets_of_source_listed_twice (p : Obj -> bool) (src : Obj)
    (cur : list (Obj * loc)) d :
  od_wf d -> od_get src d = Some cur -> od_filter_keys p cur = [] ->
  filter_targets p (Some [src; src]) (St d) = Raise KeyError (St (od_del src d)).
Proof.
  intros Hwf Hs Hnil. unfold filter_targets.
  rewrite (bind_Ok get_coll _ (St d) _ (mkLinkCollection ms d am) eq_refl).
  cbn [mfold].
  rewrite (bind_Ok _ _ _ (St (od_set src [] (od_set src [] d))) [src; src]).
  - cbn [mfor].
    rewrite (bind_Ok _ _ _ (St (od_del src d)) tt).
    + apply bind_Raise.
      unfold del_item, set_link_data, bind, get_coll, put_coll, get_state, put_state, ret.
      cbn. unfold od_mem. rewrite od_get_del by done. by rewrite decide_True.
    + unfold del_item, set_link_data, bind, get_coll, put_coll, get_state, put_state, ret.
      cbn. unfold od_mem. rewrite od_get_set, decide_True by done.
      by rewrite !od_del_set.
  - rewrite (bind_Ok _ _ _ _ _ (filter_targets_body_Some p d src cur [] Hs)).
    rewrite Hnil. cbn [length app]. rewrite bool_decide_eq_true_2 by done.
    rewrite (bind_Ok _ _ _ _ _ (filter_targets_body_Some p (od_set src [] d) src [] [src]
               ltac:(rewrite od_get_set; by rewrite decide_True))).
    reflexivity.
Qed.
End Filters.

Lemma results_A2_wf : od_wf Examples.results_A2.
Proof. unfold od_wf, od_keys. apply (bool_decide_unpack _). vm_compute. exact I. Qed.

Lemma filter_targets_keeps_accepted_targets_witness :
  exists d',
    filter_targets Examples.only_spec2 None (Examples.collection_state Examples.results_A2)
    = Ok tt (Examples.collection_state d')
    /\ (forall src tgt,
          link_at d' src tgt
          = if listed None src && negb (Examples.only_spec2 tgt) then None
            else link_at Examples.results_A2 src tgt)
    /\ (forall src ts, listed None src = true -> od_get src d' = Some ts -> ts ≠ [])
    /\ (forall src, listed None src = false
                    -> od_get src d' = od_get src Examples.results_A2).
Proof.
  refine (filter_targets_keeps_accepted_targets (F := Q) Examples.four_links 4
            {[ default_shared_strains := [] ]} {[ Examples.m1 ]} true
            Examples.only_spec2 None Examples.results_A2 results_A2_wf _).
  intros l Hl. discriminate Hl.
Defined.

Lemma filter_targets_of_absent_source_witness :
  exists d',
    filter_targets Examples.only_spec2 (Some ([Examples.gcfB] ++ Examples.spec1 :: []))
      (Examples.collection_state Examples.results_A2)
    = Raise KeyError (Examples.collection_state d')
    /\ (forall k, k ∈ od_keys d' <-> k ∈ od_keys Examples.results_A2)
    /\ (forall k tgt,
          link_at d' k tgt
          = if bool_decide (k ∈ [Examples.gcfB]) && negb (Examples.only_spec2 tgt) then None
            else link_at Examples.results_A2 k tgt).
Proof.
  refine (filter_targets_of_absent_source (F := Q) Examples.four_links 4
            {[ default_shared_strains := [] ]} {[ Examples.m1 ]} true
            Examples.only_spec2 [Examples.gcfB] [] Examples.spec1 Examples.results_A2 _ _ _).
  - apply NoDup_singleton.
  - intros x ->%list_elem_of_singleton. apply (bool_decide_unpack _). vm_compute. exact I.
  - apply (bool_decide_unpack _). vm_compute. exact I.
Defined.

Lemma filter_targets_of_source_listed_twice_witness :
  filter_targets Examples.only_spec2 (Some [Examples.gcfB; Examples.gcfB])
    (Examples.collection_state Examples.results_A2)
  = Raise KeyError (Examples.collection_state (od_del Examples.gcfB Examples.results_A2)).
Proof.
  exact (filter_targets_of_source_listed_twice (F := Q) Examples.four_links 4
           {[ default_shared_strains := [] ]} {[ Examples.m1 ]} true
           Examples.only_spec2 Examples.gcfB [(Examples.spec3, 3)] Examples.results_A2
           results_A2_wf eq_refl eq_refl).
Defined.

(** ** Filters on the links themselves *)

Section FilterLinks.
Context {F : Type} `{Float F}.
Local Abbreviation State := (@State F).
Local Abbreviation ObjectLink := (@ObjectLink F).
Implicit Types (d : list (Obj * list (Obj * loc))) (srcs : list Obj).

Variable h : gmap loc ObjectLink.
Variable n : loc.
Variable ls : gmap loc (list Strain).
Variable ms : gset Method.
Variable am : bool.

Local Notation St d := (mkState h n ls (mkLinkCollection ms d am)).

Lemma filter_values_run (callable_obj : loc -> @M F bool) (q : loc -> bool)
    (items : list (Obj * loc)) (s : State) :
  (forall l, l ∈ items.*2 -> callable_obj l s = Ok (q l) s) ->
  filter_values callable_obj items s = Ok (List.filter (fun kv => q kv.2) items) s.
Proof.
  induction items as [|[k v] items IH]; intros Hro; [reflexivity|].
  cbn [filter_values List.filter snd].
  rewrite (bind_Ok _ _ _ _ _ (Hro v ltac:(cbn [fmap list_fmap snd]; apply list_elem_of_here))).
  rewrite (bind_Ok _ _ _ _ _ (IH ltac:(intros l Hl; apply Hro; cbn [fmap list_fmap];
                                         by apply list_elem_of_further))).
  by destruct (q v).
Qed.

Lemma filter_values_sub (q : loc -> bool) (items : list (Obj * loc)) (l : loc) :
  l ∈ (List.filter (fun kv => q kv.2) items).*2 -> l ∈ items.*2.
Proof.
  intros (kv & -> & Hkv)%list_elem_of_fmap. apply list_elem_of_In, filter_In in Hkv as [Hkv _].
  apply list_elem_of_fmap. exists kv. split; [done|]. by apply list_elem_of_In.
Qed.

(** [filter_links] with a predicate that only reads: on the links of the
    collection it returns [q] and leaves the state as it is. *)
Lemma filter_links_run (callable_obj : loc -> @M F bool) (q : loc -> bool)
    (sources : option (list Obj)) d :
  results_wf d ->
  (forall l, sources = Some l -> NoDup l /\ forall x, x ∈ l -> x ∈ od_keys d) ->
  (forall l d0, l ∈ link_locs d -> callable_obj l (St d0) = Ok (q l) (St d0)) ->
  exists d',
    filter_links callable_obj sources (St d) = Ok tt (St d')
    /\ (forall src tgt l,
          link_at d' src tgt = Some l
          <-> link_at d src tgt = Some l /\ (listed sources src = true -> q l = true))
    /\ (forall src ts, listed sources src = true -> od_get src d' = Some ts -> ts ≠ [])
    /\ (forall src, listed sources src = false -> od_get src d' = od_get src d).
Proof.
  intros [Hwf Hinner] Hl Hro.
  destruct (sources_list_facts sources d Hwf Hl) as (Hnd & Hin & Hlisted).
  set (srcs := match sources with None => od_keys d | Some l => l end) in *.
  set (g := List.filter (fun kv : Obj * loc => q kv.2)).
  exists (del_all (filter_to_remove g d srcs) (filter_loop_data g d srcs)).
  split.
  { unfold filter_links.
    rewrite (bind_Ok get_coll _ (St d) _ (mkLinkCollection ms d am) eq_refl).
    cbn [_link_data]. fold srcs.
    apply (filter_run h n ls ms am g _
             (fun cur => forall l, l ∈ cur.*2 -> l ∈ link_locs d));
      [ | | done | done | done | ].
    - intros cur Hcur l Hin'. by apply Hcur, (filter_values_sub q cur).
    - intros d0 src cur tr Hs Hcur.
      rewrite (bind_Ok _ _ _ _ cur
                 (get_item_run h n ls (mkLinkCollection ms d0 am) src cur Hs)).
      rewrite (bind_Ok _ _ _ _ _ (filter_values_run callable_obj q cur (St d0)
                 ltac:(intros l Hl'; by apply Hro, Hcur))).
      rewrite (bind_Ok _ _ _ _ tt (set_item_run h n ls ms am d0 src (g cur))).
      rewrite (bind_Ok _ _ _ _ (g cur)
                 (get_item_run h n ls (mkLinkCollection ms _ am) src _
                    ltac:(cbn [_link_data]; rewrite od_get_set; by rewrite decide_True))).
      by destruct (bool_decide (length (g cur) = 0)).
    - intros src cur Hs l Hl'. apply (link_locs_of_entry d src cur); [|done].
      by apply od_get_elem_of. }
  split; [|split].
  - intros src tgt l.
    rewrite (link_at_filtered g sources srcs d src tgt Hwf Hnd Hlisted)
      by (by intros cur ->).
    unfold link_at. destruct (od_get src d) as [cur|] eqn:Hs; [|by split; [|intros [? _]]].
    assert (Hwfc : od_wf cur) by (apply (Hinner src); by apply od_get_elem_of).
    destruct (listed sources src).
    + unfold g. rewrite od_get_filter_values by done. split; [intros [? ?]|intros [? Hq]]; auto.
    + split; [by intros ?|by intros [? _]].
  - intros src ts Hls. rewrite od_get_filtered by done.
    destruct (od_get src d) as [cur|] eqn:Hs; [|by case_bool_decide].
    rewrite (Hlisted src) by (by rewrite Hs). rewrite Hls.
    case_bool_decide as Hlen; [done|]. intros [= <-] Hnil. apply Hlen.
    by rewrite Hnil.
  - intros src Hls. rewrite od_get_filtered by done.
    destruct (od_get src d) as [cur|] eqn:Hs.
    + rewrite (Hlisted src) by (by rewrite Hs). by rewrite Hls.
    + by case_bool_decide.
Qed.

(** [filter_links] with a predicate that only reads the links: of a visited
    source it keeps the targets whose link the predicate accepts, and
    removes the source if none is left; a source that is not visited keeps
    its dictionary. *)
Theorem filter_links_keeps_accepted_links (callable_obj : loc -> @M F bool) (q : loc -> bool)
    (sources : option (list Obj)) d :
  results_wf d ->
  (forall l, sources = Some l -> NoDup l /\ forall x, x ∈ l -> x ∈ od_keys d) ->
  (forall l d0, l ∈ link_locs d -> callable_obj l (St d0) = Ok (q l) (St d0)) ->
  exists d',
    filter_links callable_obj sources (St d) = Ok tt (St d')
    /\ (forall src tgt l,
          link_at d' src tgt = Some l
          <-> link_at d src tgt = Some l /\ (listed sources src = true -> q l = true))
    /\ (forall src ts, listed sources src = true -> od_get src d' = Some ts -> ts ≠ [])
    /\ (forall src, listed sources src = false -> od_get src d' = od_get src d).
Proof. apply filter_links_run. Qed.

Lemma has_shared_strains_run (l : loc) (o : ObjectLink) (ss : list Strain) (s : State) :
  st_links s !! l = Some o -> st_lists s !! shared_strains o = Some ss ->
  has_shared_strains l s = Ok (bool_decide (0 < length ss)) s.
Proof.
  intros Ho Hss. unfold has_shared_strains, read_shared_strains.
  rewrite (bind_Ok _ _ s s ss); [reflexivity|].
  rewrite (bind_Ok _ _ _ _ o (read_link_Some s l o Ho)).
  rewrite (bind_Ok get_state _ s s s eq_refl). by rewrite Hss.
Qed.

(** [filter_no_shared_strains] keeps exactly the pairs whose link refers to
    a strain list that is not empty, and no source without a pair.  Links
    built without a [shared_strains] argument all refer to one list: if
    every link of the collection does, the filter keeps every pair of the
    collection or none. *)
Theorem filter_no_shared_strains_keeps_links_with_strains d :
  results_wf d ->
  (forall l, l ∈ link_locs d ->
             exists o, h !! l = Some o /\ is_Some (ls !! shared_strains o)) ->
  exists d',
    filter_no_shared_strains (St d) = Ok tt (St d')
    /\ (forall src tgt l,
          link_at d' src tgt = Some l
          <-> link_at d src tgt = Some l /\ link_shares_strains h ls l = true)
    /\ (forall src ts, od_get src d' = Some ts -> ts ≠ [])
    /\ (forall ss, (forall l o, l ∈ link_locs d -> h !! l = Some o -> shared_strains o = ss) ->
          (forall src tgt, link_at d' src tgt = link_at d src tgt) \/ d' = []).
Proof.
  intros Hwf Halloc.
  destruct (filter_links_run has_shared_strains (link_shares_strains h ls) None d Hwf)
    as (d' & Hrun & Hat & Hne & _).
  { intros l Hl. discriminate Hl. }
  { intros l d0 Hl. destruct (Halloc l Hl) as (o & Ho & ss & Hss).
    rewrite (has_shared_strains_run l o ss (St d0) Ho Hss).
    unfold link_shares_strains. by rewrite Ho, Hss. }
  exists d'. split; [exact Hrun|]. split.
  { intros src tgt l. rewrite Hat. cbn [listed]. split; [intros [? Hq]|intros [? ?]]; auto. }
  split; [intros src ts; by apply Hne|].
  intros ss Hsame.
  assert (Hq : forall l, l ∈ link_locs d ->
                 link_shares_strains h ls l
                 = match ls !! ss with
                   | Some strains => bool_decide (0 < length strains)
                   | None => false
                   end).
  { intros l Hl. destruct (Halloc l Hl) as (o & Ho & _). unfold link_shares_strains.
    by rewrite Ho, (Hsame l o Hl Ho). }
  destruct (match ls !! ss with
            | Some strains => bool_decide (0 < length strains)
            | None => false
            end) eqn:Hb.
  - left. intros src tgt. destruct (link_at d src tgt) as [l|] eqn:Hl.
    + apply Hat. split; [done|]. intros _. rewrite Hq; [done|].
      by apply (link_locs_of_link_at d src tgt).
    + destruct (link_at d' src tgt) as [l|] eqn:Hl'; [|done].
      apply Hat in Hl' as [Hl' _]. congruence.
  - right. apply od_get_all_None. intros src.
    destruct (od_get src d') as [ts|] eqn:Hs; [|done]. exfalso.
    destruct ts as [|[tgt l] ts]; [by apply (Hne src [])|].
    assert (Hl : link_at d' src tgt = Some l).
    { unfold link_at. rewrite Hs. cbn [od_get]. by rewrite decide_True. }
    apply Hat in Hl as [Hl Hq']. specialize (Hq' eq_refl).
    rewrite Hq in Hq' by (by apply (link_locs_of_link_at d src tgt)). congruence.
Qed.
End FilterLinks.

(** ** All targets *)

(** [get_all_targets] lists each target of the collection once: an object
    is listed if and only if some source has a link to it. *)
Theorem get_all_targets_lists_each_target_once (c : LinkCollection) :
  NoDup (get_all_targets c)
  /\ forall tgt, tgt ∈ get_all_targets c
                 <-> exists src l, link_at (links c) src tgt = Some l.
Proof.
  unfold get_all_targets, links. split; [apply NoDup_remove_dups|].
  intros tgt. rewrite elem_of_remove_dups, list_elem_of_In, in_concat. split.
  - intros (ks & Hks%list_elem_of_In & Htgt%list_elem_of_In).
    apply list_elem_of_omap in Hks as (src & _ & Hsrc).
    destruct (od_get src (_link_data c)) as [ts|] eqn:Hs; [|discriminate].
    injection Hsrc as <-. apply od_get_is_Some in Htgt as [l Hl].
    exists src, l. unfold link_at. by rewrite Hs.
  - intros (src & l & Hl). unfold link_at in Hl.
    destruct (od_get src (_link_data c)) as [ts|] eqn:Hs; [|discriminate].
    exists (od_keys ts). split.
    + apply list_elem_of_In, list_elem_of_omap. exists src. split.
      * apply od_get_is_Some. by rewrite Hs.
      * by rewrite Hs.
    + apply list_elem_of_In, od_get_is_Some. by rewrite Hl.
Qed.

Lemma results_A2_results_wf : results_wf Examples.results_A2.
Proof.
  split; [exact results_A2_wf|]. intros src ts Hin. apply list_elem_of_In in Hin. cbn in Hin.
  destruct Hin as [[= <- <-]|[[= <- <-]|[]]];
    unfold od_wf, od_keys; apply (bool_decide_unpack _); vm_compute; exact I.
Qed.

Lemma filter_links_keeps_accepted_links_witness :
  exists d',
    filter_links Examples.is_link_1 None (Examples.collection_state Examples.results_A2)
    = Ok tt (Examples.collection_state d')
    /\ (forall src tgt l,
          link_at d' src tgt = Some l
          <-> link_at Examples.results_A2 src tgt = Some l
              /\ (listed None src = true -> bool_decide (l = 1) = true))
    /\ (forall src ts, listed None src = true -> od_get src d' = Some ts -> ts ≠ [])
    /\ (forall src, listed None src = false
                    -> od_get src d' = od_get src Examples.results_A2).
Proof.
  refine (filter_links_keeps_accepted_links (F := Q) Examples.four_links 4
            {[ default_shared_strains := [] ]} {[ Examples.m1 ]} true
            Examples.is_link_1 (fun l => bool_decide (l = 1)) None Examples.results_A2
            results_A2_results_wf _ _).
  - intros l Hl. discriminate Hl.
  - intros l d0 _. reflexivity.
Defined.

Lemma filter_no_shared_strains_keeps_links_with_strains_witness :
  exists d',
    filter_no_shared_strains (Examples.collection_state Examples.results_A2)
    = Ok tt (Examples.collection_state d')
    /\ (forall src tgt l,
          link_at d' src tgt = Some l
          <-> link_at Examples.results_A2 src tgt = Some l
              /\ link_shares_strains Examples.four_links
                   {[ default_shared_strains := [] ]} l = true)
    /\ (forall src ts, od_get src d' = Some ts -> ts ≠ [])
    /\ (forall ss,
          (forall l o, l ∈ link_locs Examples.results_A2 ->
                       Examples.four_links !! l = Some o -> shared_strains o = ss) ->
          (forall src tgt, link_at d' src tgt = link_at Examples.results_A2 src tgt)
          \/ d' = []).
Proof.
  refine (filter_no_shared_strains_keeps_links_with_strains (F := Q) Examples.four_links 4
            {[ default_shared_strains := [] ]} {[ Examples.m1 ]} true
            Examples.results_A2 results_A2_results_wf _).
  intros l Hl. apply list_elem_of_In in Hl. cbn in Hl.
  destruct Hl as [<-|[<-|[<-|[]]]]; eexists; (split; [reflexivity|]); vm_compute; eauto.
Defined.

(** ** The two contributions of [TestScoring.get_links] *)

Lemma metcalf_run_result (and_mode : bool) :
  Examples.metcalf_run and_mode
  = Ok tt (mkState
             {[ 0 := mkObjectLink Examples.spec1 Examples.gcfA default_shared_strains
                       {[ Examples.m1 := DFloat (4 # 2)%Q ]};
                1 := mkObjectLink Examples.spec2 Examples.gcfA default_shared_strains
                       {[ Examples.m1 := DFloat (6 # 2)%Q ]} ]}
             2 {[ default_shared_strains := [] ]}
             (mkLinkCollection {[ Examples.m1 ]}
                [(Examples.spec1, [(Examples.gcfA, 0)]); (Examples.spec2, [(Examples.gcfA, 1)])]
                and_mode)).
Proof. destruct and_mode; vm_compute; reflexivity. Qed.

Lemma test_run_result (and_mode : bool) :
  Examples.test_run and_mode
  = Ok tt (mkState
             {[ 0 := mkObjectLink Examples.spec1 Examples.gcfA default_shared_strains
                       {[ Examples.m3 := DFloat (1 # 4)%Q ]};
                1 := mkObjectLink Examples.spec2 Examples.gcfA default_shared_strains
                       {[ Examples.m1 := DFloat (6 # 2)%Q ]} ]}
             2 {[ default_shared_strains := [] ]}
             (mkLinkCollection {[ Examples.m1; Examples.m3 ]}
                (if and_mode then [(Examples.spec1, [(Examples.gcfA, 0)])]
                 else [(Examples.spec1, [(Examples.gcfA, 0)]);
                       (Examples.spec2, [(Examples.gcfA, 1)])])
                and_mode)).
Proof. destruct and_mode; vm_compute; reflexivity. Qed.

(** C3 as stated fails for the two contributions of [TestScoring.get_links]
    to a fresh AND-mode collection.  The links of the first contribution,
    by the Metcalf method, hold a Metcalf payload when they are added, and
    the links of the second, by the test method, hold a test payload; but
    the test method deletes the Metcalf payload of its links in between, so
    the pair that is left holds the payload of one of the two methods. *)
Lemma test_scoring_pair_lacks_the_metcalf_payload :
  match Examples.metcalf_run true, Examples.test_run true with
  | Ok _ s1, Ok _ s2 =>
      links_hold (st_links s1) (links (st_coll s1)) {[ Examples.m1 ]}
      /\ methods (st_coll s2) = {[ Examples.m1; Examples.m3 ]}
      /\ method_count (st_coll s2) = 2
      /\ link_at (links (st_coll s2)) Examples.spec1 Examples.gcfA = Some 0
      /\ links_hold (st_links s2) (links (st_coll s2)) {[ Examples.m3 ]}
      /\ ~ links_hold (st_links s2) (links (st_coll s2)) (methods (st_coll s2))
  | _, _ => False
  end.
Proof.
  rewrite metcalf_run_result, test_run_result.
  cbn [st_links st_coll]. unfold links, methods, method_count. cbn [_link_data _methods].
  split.
  { intros l Hl. apply list_elem_of_In in Hl. cbn in Hl.
    destruct Hl as [<-|[<-|[]]]; eexists; (split; [reflexivity|]);
      cbn [_method_data]; rewrite dom_singleton_L; done. }
  split; [done|]. split; [by vm_compute|]. split; [reflexivity|]. split.
  { intros l Hl. apply list_elem_of_In in Hl. cbn in Hl.
    destruct Hl as [<-|[]]. eexists. split; [reflexivity|].
    cbn [_method_data]. rewrite dom_singleton_L. done. }
  intros Hall. destruct (Hall 0) as (o & Ho & Hms).
  { apply list_elem_of_In. cbn. by left. }
  assert (Ho' : o = mkObjectLink Examples.spec1 Examples.gcfA default_shared_strains
                      {[ Examples.m3 := DFloat (1 # 4)%Q ]})
    by (vm_compute in Ho; by injection Ho as <-).
  subst o. cbn [_method_data] in Hms. rewrite dom_singleton_L in Hms.
  assert (Hin : Examples.m1 ∈ ({[ Examples.m3 ]} : gset Method)) by (apply Hms; set_solver).
  apply elem_of_singleton in Hin. discriminate Hin.
Qed.

(** ** RosettaScoring.get_links: the hits that reach the results *)

Section RosettaResults.
Context {F : Type} `{Float F}.
Local Abbreviation State := (@State F).
Local Abbreviation ObjectLink := (@ObjectLink F).
Local Abbreviation RosettaHit := (@RosettaHit F).
Implicit Types (h : gmap loc ObjectLink) (R : list (Obj * list (Obj * loc))).
Implicit Types (es : list (Obj * Obj * RosettaHit)).

Variable self : @RosettaScoring F.
Variable ls : gmap loc (list Strain).
Variable c : LinkCollection.

Local Notation St h n := (mkState h n ls c).


Lemma hits_for_app es es' (s t : Obj) :
  hits_for (es ++ es') s t = hits_for es s t ++ hits_for es' s t.
Proof. unfold hits_for. by rewrite List.filter_app, fmap_app. Qed.








End RosettaResults.

Section RosettaGetLinks.
Context {F : Type} `{Float F}.
Local Abbreviation State := (@State F).
Local Abbreviation ObjectLink := (@ObjectLink F).
Local Abbreviation RosettaHit := (@RosettaHit F).




End RosettaGetLinks.

Section RosettaCutoffsTheorem.
Context {F : Type} `{Float F}.
Local Abbreviation State := (@State F).
Local Abbreviation RosettaHit := (@RosettaHit F).


End RosettaCutoffsTheorem.


(** The scenario of C9: with [bgc_score_cutoff = 0.5], a BGC whose only hit
    has a genomic score of 0.4 produces no link; a second hit of the same
    pair with a genomic score of 0.6 produces a link that holds it, and it
    alone. *)
Example rosetta_scenario_zero_links :
  match RosettaScoring_get_links Examples.empty_npl (Some [Examples.hit_04])
          Examples.rosetta_half [Examples.bgc1] (initial_state true) with
  | Ok _ s' => links (st_coll s') = [] /\ st_links s' = ∅
  | Raise _ _ => False
  end.
Proof. vm_compute. split; reflexivity. Qed.

Example rosetta_scenario_one_link :
  match RosettaScoring_get_links Examples.empty_npl (Some [Examples.hit_04; Examples.hit_06])
          Examples.rosetta_half [Examples.bgc1] (initial_state true) with
  | Ok _ s' =>
      links (st_coll s') = [(Examples.bgc1, [(Examples.spec1, 0)])]
      /\ (_method_data <$> st_links s' !! 0)
         = Some {[ Examples.m2 := DHits [Examples.hit_06] ]}
  | Raise _ _ => False
  end.
Proof. vm_compute. split; reflexivity. Qed.

